(** * LipReading: the training driver, the video encoder and the character decoder

    A shallow embedding of [src/scripts/train.py] and
    [src/models/lipreader/better_model.py].

    Conventions.
    - Python exceptions are values of [exn]; a call that may raise returns a
      [result].
    - Code that logs or prints runs in the monad [M], which threads the list
      of emitted events next to the result.
    - Functions of other modules ([_util], [_data_loader], [_train], [glob],
      [numpy], [torch], [allennlp]) are Section variables: what the driver
      and the models do with their results is modelled, what they compute is
      left open unless the library documents it.
    - The arithmetic of the Python [float] that steers control flow
      ([train_split]) is a parameter of the driver ([FloatArith]): it is
      given for the doubles of the interpreter ([Double.arith]) and for
      exact rationals ([PyNum.arith]).
    - Tensor elements are of a type with the operations of [Scalar]; where a
      statement needs numbers, they are real numbers, and the arithmetic is
      the exact one, without the rounding of [float32]. *)

From Stdlib Require Import List ZArith QArith Qround Bool Lia Permutation Sorted.
From Stdlib Require Import String Ascii.
From Stdlib Require Import Reals Lra.
From Stdlib Require Import SpecFloat.
From Stdlib Require PrimFloat FloatOps.
From Stdlib Require OrderedTypeEx.
Import ListNotations.

Set Implicit Arguments.
Set Warnings "-notation-for-abbreviation".
#[local] Open Scope string_scope.
#[local] Open Scope list_scope.

(** ** Exceptions and results *)

Inductive exn : Type :=
| AssertionError (msg : string)
| TypeError (msg : string)
| AttributeError (name : string)
| ValueError (msg : string)
| OverflowError (msg : string)
| ZeroDivisionError
| IndexError (msg : string)
| RuntimeError (msg : string)
| OSError (msg : string).

Inductive result (A : Type) : Type :=
| Ok (a : A)
| Raise (e : exn).

Arguments Ok {A} a.
Arguments Raise {A} e.

Definition rbind {A B} (r : result A) (k : A -> result B) : result B :=
  match r with
  | Ok a => k a
  | Raise e => Raise e
  end.

Definition rmap {A B} (f : A -> B) (r : result A) : result B :=
  rbind r (fun a => Ok (f a)).

Definition is_ok {A} (r : result A) : bool :=
  match r with Ok _ => true | Raise _ => false end.

Declare Scope result_scope.
Delimit Scope result_scope with res.
Notation "x <- c ;; k" := (rbind c (fun x => k))
  (at level 61, c at next level, right associativity) : result_scope.
Notation "' pat <- c ;; k" := (rbind c (fun x => match x with pat => k end))
  (at level 61, pat pattern, c at next level, right associativity) : result_scope.
Notation "c ;;; k" := (rbind c (fun _ => k))
  (at level 61, right associativity) : result_scope.

(** ** Python values seen by the driver *)

#[local] Unset Elimination Schemes.
Inductive pyval : Type :=
| PyNone
| PyBool (b : bool)
| PyInt (z : Z)
| PyFloat (q : Q)
| PyStr (s : string)
| PyList (l : list pyval)
| PyDict (kv : list (pyval * pyval))
| PyObj (cls : string) (methods : list string) (len : option Z)
| PyInst (cls : string) (attrs : list (string * pyval)).
#[local] Set Elimination Schemes.

(** [PyObj] is an object of a class of another module (a tensor, a numpy
    array, a class object): its class name, the methods the driver may call
    on it and what its [__len__] returns when it has one.  [PyInst] is an
    instance of a class of [better_model] with its instance dictionary. *)

(** [len(v)]: defined on the builtin containers and on objects with
    [__len__]. *)
Definition py_len (v : pyval) : result Z :=
  match v with
  | PyStr s => Ok (Z.of_nat (String.length s))
  | PyList l => Ok (Z.of_nat (List.length l))
  | PyDict kv => Ok (Z.of_nat (List.length kv))
  | PyObj _ _ (Some n) => Ok n
  | _ => Raise (TypeError "object has no len()")
  end.

(** [v.append(x)] as the driver uses it: lists have the method, an object has
    it when its class lists it, every other value raises [AttributeError].
    The appended-to object is not one of the driver's own lists, so only the
    outcome of the call is kept. *)
Definition py_append (v x : pyval) : result unit :=
  match v with
  | PyList _ => Ok tt
  | PyObj _ methods _ =>
      if existsb (String.eqb "append") methods then Ok tt
      else Raise (AttributeError "append")
  | _ => Raise (AttributeError "append")
  end.

(** ** Python numerics used by [_get_datasets] *)

(** What lines 59 and 60 do with a [float]: the product with an [int]
    (which is converted first), the difference with the literal [1.0],
    [int()] and [round()].  [int()] and [round()] raise on a float that is
    not finite. *)
Class FloatArith (F : Type) : Type := {
  float_of_int : Z -> F;
  float_one : F;
  float_mul : F -> F -> F;
  float_sub : F -> F -> F;
  float_int : F -> result Z;
  float_round : F -> result Z
}.

Module PyNum.

(** [int(x)] on a float: truncation toward zero. *)
Definition py_int (x : Q) : Z :=
  if Qle_bool 0 x then Qfloor x else Qceiling x.

(** [round(x)] on a float: to the nearest integer, ties to the even one. *)
Definition py_round (x : Q) : Z :=
  let f := Qfloor x in
  let r := (x - inject_Z f)%Q in
  match Qcompare r (1 # 2) with
  | Lt => f
  | Gt => (f + 1)%Z
  | Eq => if Z.even f then f else (f + 1)%Z
  end.

(** A slice bound [i] on a list of length [n]: negative bounds count from
    the end, and the bound is clamped into [0, n]. *)
Definition norm_index (n : nat) (i : Z) : nat :=
  let j := if (i <? 0)%Z then (i + Z.of_nat n)%Z else i in
  Z.to_nat (Z.max 0 (Z.min (Z.of_nat n) j)).

(** [l[a:b]]; [None] stands for an omitted bound. *)
Definition slice {A} (l : list A) (a b : option Z) : list A :=
  let n := List.length l in
  let lo := match a with Some i => norm_index n i | None => O end in
  let hi := match b with Some i => norm_index n i | None => n end in
  firstn (hi - lo) (skipn lo l).

(** The arithmetic without rounding: a float is the rational it denotes. *)
Definition arith : FloatArith Q := {|
  float_of_int := inject_Z;
  float_one := 1%Q;
  float_mul := Qmult;
  float_sub := Qminus;
  float_int := fun x => Ok (py_int x);
  float_round := fun x => Ok (py_round x)
|}.

End PyNum.

#[export] Existing Instance PyNum.arith.

(** The [float] of CPython: an IEEE 754 double (binary64), with the
    operations as the standard specifies them, rounding to the nearest
    double with ties to the even one.  A double is a [spec_float]: a zero,
    an infinity, NaN, or [(-1)^s * m * 2^e]. *)
Module Double.

Definition prec : Z := 53.
Definition emax : Z := 1024.

Definition is_double (x : spec_float) : bool := valid_binary prec emax x.

Definition mul : spec_float -> spec_float -> spec_float := SFmul prec emax.
Definition sub : spec_float -> spec_float -> spec_float := SFsub prec emax.

(** An [int] operand of a product with a float is converted to the nearest
    double first.  (CPython raises [OverflowError] where the conversion
    gives an infinity here: from [2^1024] on, far above the length of a
    list.) *)
Definition of_int (n : Z) : spec_float := binary_normalize prec emax n 0 false.

Definition zero : spec_float := S754_zero false.
Definition one : spec_float := S754_finite false 4503599627370496 (-52).

(** [x <= y] on floats. *)
Definition leb : spec_float -> spec_float -> bool := SFleb.

(** The integer part of [m * 2^e]. *)
Definition truncate (m : positive) (e : Z) : Z :=
  if (0 <=? e)%Z then (Zpos m * 2 ^ e)%Z else (Zpos m / 2 ^ (- e))%Z.

(** The integer nearest to [m * 2^e], the even one of two that are equally
    near. *)
Definition nearest_even (m : positive) (e : Z) : Z :=
  if (0 <=? e)%Z then (Zpos m * 2 ^ e)%Z
  else
    let d := (2 ^ (- e))%Z in
    let q := (Zpos m / d)%Z in
    let r := (Zpos m mod d)%Z in
    match (2 * r ?= d)%Z with
    | Lt => q
    | Gt => (q + 1)%Z
    | Eq => if Z.even q then q else (q + 1)%Z
    end.

Definition apply_sign (s : bool) (z : Z) : Z := if s then (- z)%Z else z.

(** [int(x)]: truncation toward zero. *)
Definition py_int (x : spec_float) : result Z :=
  match x with
  | S754_zero _ => Ok 0%Z
  | S754_finite s m e => Ok (apply_sign s (truncate m e))
  | S754_infinity _ => Raise (OverflowError "cannot convert float infinity to integer")
  | S754_nan => Raise (ValueError "cannot convert float NaN to integer")
  end.

(** [round(x)]: to the nearest integer, ties to the even one. *)
Definition py_round (x : spec_float) : result Z :=
  match x with
  | S754_zero _ => Ok 0%Z
  | S754_finite s m e => Ok (apply_sign s (nearest_even m e))
  | S754_infinity _ => Raise (OverflowError "cannot convert float infinity to integer")
  | S754_nan => Raise (ValueError "cannot convert float NaN to integer")
  end.

Definition arith : FloatArith spec_float := {|
  float_of_int := of_int;
  float_one := one;
  float_mul := mul;
  float_sub := sub;
  float_int := py_int;
  float_round := py_round
|}.

(** A float literal of the source: the double that the decimal denotes,
    which is the nearest one. *)
Definition literal (x : PrimFloat.float) : spec_float := FloatOps.Prim2SF x.

(** A train fraction: a double between 0 and 1. *)
Definition valid_fraction (x : spec_float) : bool :=
  is_double x && leb zero x && leb x one.

End Double.

#[export] Existing Instance Double.arith.

(** ** Events and the driver monad *)

Inductive labels_t : Type :=
| LabelStr (s : string)
| LabelList (l : list string).

(** A dataset object is opaque to the driver; it is identified with the
    constructor call that made it. *)
Record dataset : Type := mkDataset {
  ds_sentence : bool;
  ds_videos : list string;
  ds_labels : labels_t;
  ds_threshold : Q
}.

Inductive event : Type :=
| EvWarning (labels_path : string) (labels : labels_t)
| EvPrintBlank
| EvPrintText (s : string)
| EvPrintLen (what : string) (d : dataset)
| EvPrintTiming
| EvPrintBest (what : string) (v : pyval)
| EvEval (epoch : nat) (on_test : bool)
| EvTrain (epoch : nat).

(** State and exceptions: a computation reads the state and returns a
    result next to the state it leaves, also when it raises. *)
Definition St (S A : Type) : Type := S -> result A * S.

Definition ret {S A} (a : A) : St S A := fun s => (Ok a, s).
Definition raise {S A} (e : exn) : St S A := fun s => (Raise e, s).
Definition lift {S A} (r : result A) : St S A := fun s => (r, s).

Definition bind {S A B} (m : St S A) (k : A -> St S B) : St S B :=
  fun s =>
    match m s with
    | (Ok a, s') => k a s'
    | (Raise e, s') => (Raise e, s')
    end.

(** [try: body  except: handler] with a bare [except]. *)
Definition try_except {S A} (body : St S A) (handler : St S A) : St S A :=
  fun s =>
    match body s with
    | (Ok a, s') => (Ok a, s')
    | (Raise _, s') => handler s'
    end.

Definition py_assert {S} (b : bool) (msg : string) : St S unit :=
  if b then ret tt else raise (AssertionError msg).

Declare Scope driver_scope.
Delimit Scope driver_scope with drv.
Notation "x <- c ;; k" := (bind c (fun x => k))
  (at level 61, c at next level, right associativity) : driver_scope.
Notation "' pat <- c ;; k" := (bind c (fun x => match x with pat => k end))
  (at level 61, pat pattern, c at next level, right associativity) : driver_scope.
Notation "c ;;; k" := (bind c (fun _ => k))
  (at level 61, right associativity) : driver_scope.

(** The driver's monad: the state is the list of events emitted so far. *)
Definition M (A : Type) : Type := St (list event) A.

Definition emit (e : event) : M unit := fun log => (Ok tt, log ++ [e]).

Definition run {A} (m : M A) : result A * list event := m [].

(** ** [train.py]: [_labels] and [_get_datasets] *)

Definition dquote : string := String (ascii_of_nat 34) EmptyString.

(** The hardcoded alphabet, line 28. *)
Definition _labels : list string :=
  [" "; "!"; dquote; "#"; "$"; "%"; "&"; "'"; "("; ")"; "*"; "+"; ","; "-";
   "."; "/"; "0"; "1"; "2"; "3"; "4"; "5"; "6"; "7"; "8"; "9"; ":"; ";"; "<";
   ">"; "?"; "@"; "["; "]"; "a"; "b"; "c"; "d"; "e"; "f"; "g"; "h"; "i"; "j";
   "k"; "l"; "m"; "n"; "o"; "p"; "q"; "r"; "s"; "t"; "u"; "v"; "w"; "x"; "y";
   "z"].

(** Character classes of the default alphabet (ASCII codes). *)
Inductive char_class : Type := Space | Punctuation | Digit | Lowercase | OtherChar.

Definition classify (c : ascii) : char_class :=
  let n := nat_of_ascii c in
  if Nat.eqb n 32 then Space
  else if (48 <=? n)%nat && (n <=? 57)%nat then Digit
  else if (97 <=? n)%nat && (n <=? 122)%nat then Lowercase
  else if ((33 <=? n)%nat && (n <=? 47)%nat) || ((58 <=? n)%nat && (n <=? 64)%nat)
          || ((91 <=? n)%nat && (n <=? 96)%nat) || ((123 <=? n)%nat && (n <=? 126)%nat)
       then Punctuation
  else OtherChar.

Definition label_class (s : string) : option char_class :=
  match s with
  | String c EmptyString => Some (classify c)
  | _ => None
  end.

Definition in_default_classes (s : string) : bool :=
  match label_class s with
  | Some Space | Some Punctuation | Some Digit | Some Lowercase => true
  | _ => false
  end.

(** [list.sort()] on strings: ascending in code-point order. *)
Fixpoint insert_sorted (s : string) (l : list string) : list string :=
  match l with
  | [] => [s]
  | x :: xs => if String.leb s x then s :: l else x :: insert_sorted s xs
  end.

Definition list_sort (l : list string) : list string :=
  fold_right insert_sorted [] l.

Section GetDatasets.

(** The floats of the interpreter. *)
Context {F : Type} {FA : FloatArith F}.
(** [numpy.random.RandomState]. *)
Variable randstate : Type.
(** [_util.getRelRawPath], [_util.getRelDatasetsPath], [os.path.join]. *)
Variables getRelRawPath getRelDatasetsPath : string -> string.
Variable path_join : string -> string -> string.
(** What lines 42-43 yield for a path: the strings that [''.join] glues
    together, or the exception raised by [open], [json.load] or [join]. *)
Variable load_json : string -> result (list string).
(** [glob.glob]. *)
Variable glob : string -> list string.
(** [rand.shuffle] for [Some r], [np.random.shuffle] for [None]. *)
Variable shuffle : option randstate -> list string -> list string.

Definition _get_datasets (dataset_name : string) (train_split : F)
    (sentence_dataset : bool) (threshold : Q) (labels : string)
    (rand : option randstate) : M (dataset * dataset * dataset) :=
  (* Load vocabulary. *)
  let raw_dir := getRelRawPath dataset_name in
  let labels_path := path_join raw_dir labels in
  (labels <- try_except
     (chars <- lift (load_json labels_path) ;;
      ret (LabelStr (String.concat "" chars)))
     (let labels := LabelList _labels in
      emit (EvWarning labels_path labels) ;;; ret labels) ;;
   (* Load dataset video IDs and shuffle predictably. *)
   let dataset_dir := getRelDatasetsPath dataset_name in
   let videos := glob (path_join dataset_dir "*") in
   py_assert (0 <? List.length videos)%nat "No video ids found" ;;;
   let videos := list_sort videos in
   let videos := shuffle rand videos in
   (* Split dataset into train, val, and testing. *)
   let len := Z.of_nat (List.length videos) in
   train_size <- lift (float_int (float_mul train_split (float_of_int len))) ;;
   val_test_size <- lift (float_round (float_mul (float_of_int len)
                                         (float_sub float_one train_split))) ;;
   py_assert (train_size + val_test_size =? len)%Z "" ;;;
   let val_size := (train_size + val_test_size / 2)%Z in
   let mk vs := mkDataset sentence_dataset vs labels threshold in
   let train_dataset := mk (PyNum.slice videos None (Some train_size)) in
   let val_dataset := mk (PyNum.slice videos (Some train_size) (Some val_size)) in
   let test_dataset := mk (PyNum.slice videos (Some val_size) None) in
   emit EvPrintBlank ;;;
   emit (EvPrintText "Dataset Information:") ;;;
   emit (EvPrintLen "Train Dataset:" train_dataset) ;;;
   emit (EvPrintLen "Val Dataset:" val_dataset) ;;;
   emit (EvPrintLen "Test Dataset:" test_dataset) ;;;
   emit EvPrintBlank ;;;
   ret (train_dataset, val_dataset, test_dataset))%drv.

End GetDatasets.

(** ** Calls and classes: what [_init_models] needs of Python *)

(** A parameter with its default value, if it has one. *)
Record param : Type := mkParam {
  p_name : string;
  p_default : option pyval
}.

Definition signature : Type := list param.

Definition has_name (k : string) (names : list string) : bool :=
  existsb (String.eqb k) names.

Definition lookup {A} (k : string) (kv : list (string * A)) : option A :=
  option_map snd (find (fun p => String.eqb k (fst p)) kv).

(** Positional arguments fill the parameters from the left. *)
Fixpoint bind_positional (sig : signature) (pos : list pyval)
  : list (string * pyval) :=
  match sig, pos with
  | p :: sig', v :: pos' => (p_name p, v) :: bind_positional sig' pos'
  | _, _ => []
  end.

(** Keyword arguments, in call order: a name that is no parameter, or one
    that is already bound, is a [TypeError]. *)
Fixpoint bind_keywords (sig : signature) (bound : list (string * pyval))
    (kw : list (string * pyval)) : result (list (string * pyval)) :=
  match kw with
  | [] => Ok bound
  | (k, v) :: kw' =>
      if negb (has_name k (map p_name sig))
      then Raise (TypeError ("got an unexpected keyword argument " ++ k))
      else if has_name k (map fst bound)
      then Raise (TypeError ("got multiple values for argument " ++ k))
      else bind_keywords sig (bound ++ [(k, v)]) kw'
  end.

(** Parameters left unbound take their default; one without is a
    [TypeError]. *)
Fixpoint fill_defaults (sig : signature) (bound : list (string * pyval))
  : result (list (string * pyval)) :=
  match sig with
  | [] => Ok []
  | p :: sig' =>
      (v <- match lookup (p_name p) bound, p_default p with
            | Some v, _ => Ok v
            | None, Some d => Ok d
            | None, None =>
                Raise (TypeError ("missing required argument " ++ p_name p))
            end ;;
       rest <- fill_defaults sig' bound ;;
       Ok ((p_name p, v) :: rest))%res
  end.

(** Binding the arguments of a call to a function without [*args] and
    [**kwargs], in the interpreter's order. *)
Definition bind_args (sig : signature) (pos : list pyval)
    (kw : list (string * pyval)) : result (list (string * pyval)) :=
  (bound <- bind_keywords sig (bind_positional sig pos) kw ;;
   if (List.length sig <? List.length pos)%nat
   then Raise (TypeError "too many positional arguments")
   else fill_defaults sig bound)%res.

Definition py_truthy (v : pyval) : bool :=
  match v with
  | PyNone => false
  | PyBool b => b
  | PyInt z => negb (z =? 0)%Z
  | PyFloat q => negb (Qeq_bool q 0)
  | PyStr s => negb (String.eqb s "")
  | PyList l => negb (Nat.eqb (List.length l) 0)
  | PyDict kv => negb (Nat.eqb (List.length kv) 0)
  | PyObj _ _ (Some n) => negb (n =? 0)%Z
  | PyObj _ _ None => true
  | PyInst _ _ => true
  end.

(** An instance of a [nn.Module] subclass while its [__init__] runs: the
    instance dictionary, and whether [nn.Module.__init__] has run on it. *)
Record instance : Type := mkInstance {
  inst_class : string;
  inst_attrs : list (string * pyval);
  inst_module_init : bool
}.

Definition new_instance (cls : string) : instance := mkInstance cls [] false.

(** [self.name = v] for a value that is neither a module nor a parameter. *)
Definition setattr (name : string) (v : pyval) : St instance unit :=
  fun self =>
    (Ok tt,
     mkInstance (inst_class self) ((name, v) :: inst_attrs self)
       (inst_module_init self)).

(** [self.name = m] for a [nn.Module] value: refused until
    [nn.Module.__init__] has run. *)
Definition setattr_module (name : string) (v : pyval) : St instance unit :=
  fun self =>
    if inst_module_init self then setattr name v self
    else (Raise (AttributeError "cannot assign module before Module.__init__() call"), self).

(** [self.name]: neither [nn.Module] nor the two classes define class
    attributes of the names read below, so the lookup is in the instance
    dictionary. *)
Definition getattr_self (name : string) : St instance pyval :=
  fun self =>
    match lookup name (inst_attrs self) with
    | Some v => (Ok v, self)
    | None => (Raise (AttributeError name), self)
    end.

(** [super(C, self).__init__()] runs [nn.Module.__init__] on the instance;
    [super(C).__init__()] (lines 16 and 79) has no instance to run it on and
    leaves [self] as it is. *)
Definition super_init (with_instance : bool) : St instance unit :=
  fun self =>
    (Ok tt,
     if with_instance
     then mkInstance (inst_class self) (inst_attrs self) true
     else self).

Definition arg (env : list (string * pyval)) (name : string) : pyval :=
  match lookup name env with Some v => v | None => PyNone end.

Section Classes.

(** Attribute reads, calls and products on objects of other modules. *)
Variable ext_getattr : pyval -> string -> result pyval.
Variable ext_call : pyval -> list pyval -> list (string * pyval) -> result pyval.
Variable ext_mul : pyval -> pyval -> result pyval.
(** [nn.LSTM], [nn.Embedding], [nn.Linear]. *)
Variables nn_LSTM nn_Embedding nn_Linear : pyval.

Definition py_getattr (v : pyval) (name : string) : result pyval :=
  match v with
  | PyInst _ attrs =>
      match lookup name attrs with
      | Some a => Ok a
      | None => Raise (AttributeError name)
      end
  | _ => ext_getattr v name
  end.

Definition VideoEncoder_sig : signature :=
  [ mkParam "frame_dim" None; mkParam "hidden_size" None;
    mkParam "rnn_type" (Some nn_LSTM); mkParam "num_layers" (Some (PyInt 1));
    mkParam "bidirectional" (Some (PyBool true));
    mkParam "rnn_dropout" (Some (PyInt 0)) ].

(** [VideoEncoder.__init__], lines 14-26. *)
Definition VideoEncoder_init (env : list (string * pyval)) : St instance unit :=
  (super_init false ;;;
   setattr "hidden_size" (arg env "hidden_size") ;;;
   setattr "rnn_type" (arg env "rnn_type") ;;;
   setattr "num_layers" (arg env "num_layers") ;;;
   setattr "bidirectional" (arg env "bidirectional") ;;;
   setattr "rnn_dropout" (arg env "rnn_dropout") ;;;
   rnn_type <- getattr_self "rnn_type" ;;
   frame_dim <- getattr_self "frame_dim" ;;
   hidden_size <- getattr_self "hidden_size" ;;
   num_layers <- getattr_self "num_layers" ;;
   bidirectional <- getattr_self "bidirectional" ;;
   rnn_dropout <- getattr_self "rnn_dropout" ;;
   rnn <- lift (ext_call rnn_type [frame_dim; hidden_size]
                  [("num_layers", num_layers); ("bidirectional", bidirectional);
                   ("batch_first", PyBool true); ("dropout", rnn_dropout)]) ;;
   setattr_module "rnn" rnn)%drv.

Definition CharDecoder_sig : signature :=
  [ mkParam "encoder" None; mkParam "char_dim" None;
    mkParam "output_size" None; mkParam "char_padding_idx" None;
    mkParam "rnn_dropout" (Some (PyInt 0)) ].

(** [CharDecoder.__init__], lines 78-94. *)
Definition CharDecoder_init (env : list (string * pyval)) : St instance unit :=
  (let encoder := arg env "encoder" in
   super_init false ;;;
   enc_hidden <- lift (py_getattr encoder "hidden_size") ;;
   enc_bidir <- lift (py_getattr encoder "bidirectional") ;;
   hidden <- lift (ext_mul enc_hidden (PyInt (if py_truthy enc_bidir then 2 else 1))) ;;
   setattr "hidden_size" hidden ;;;
   enc_rnn_type <- lift (py_getattr encoder "rnn_type") ;;
   setattr "rnn_type" enc_rnn_type ;;;
   enc_layers <- lift (py_getattr encoder "num_layers") ;;
   setattr "num_layers" enc_layers ;;;
   setattr "rnn_dropout" (arg env "rnn_dropout") ;;;
   setattr "char_dim" (arg env "char_dim") ;;;
   setattr "output_size" (arg env "output_size") ;;;
   setattr "char_padding_idx" (arg env "char_padding_idx") ;;;
   output_size <- getattr_self "output_size" ;;
   char_dim <- getattr_self "char_dim" ;;
   char_padding_idx <- getattr_self "char_padding_idx" ;;
   embedding <- lift (ext_call nn_Embedding [output_size; char_dim]
                        [("padding_idx", char_padding_idx)]) ;;
   setattr_module "embedding" embedding ;;;
   rnn_type <- getattr_self "rnn_type" ;;
   char_dim <- getattr_self "char_dim" ;;
   hidden_size <- getattr_self "hidden_size" ;;
   num_layers <- getattr_self "num_layers" ;;
   rnn_dropout <- getattr_self "rnn_dropout" ;;
   rnn <- lift (ext_call rnn_type [char_dim; hidden_size]
                  [("num_layers", num_layers); ("batch_first", PyBool true);
                   ("dropout", rnn_dropout)]) ;;
   setattr_module "rnn" rnn ;;;
   hidden_size <- getattr_self "hidden_size" ;;
   twice <- lift (ext_mul (PyInt 2) hidden_size) ;;
   attn_proj <- lift (ext_call nn_Linear [twice; PyInt 1] []) ;;
   setattr_module "attn_proj" attn_proj ;;;
   concat_layer <- lift (ext_call nn_Linear [twice; hidden_size] []) ;;
   setattr_module "concat_layer" concat_layer ;;;
   output_size <- getattr_self "output_size" ;;
   output_proj <- lift (ext_call nn_Linear [hidden_size; output_size] []) ;;
   setattr_module "output_proj" output_proj)%drv.

(** A class of the module: its name, the signature of [__init__] without
    [self], and the body of [__init__]. *)
Record class_def : Type := mkClass {
  cd_name : string;
  cd_sig : signature;
  cd_init : list (string * pyval) -> St instance unit
}.

(** A function of another module, known by its name. *)
Definition ext_function (name : string) : pyval :=
  PyObj ("function " ++ name) [] None.

(** A global name of the module holds one of its classes, a function
    imported from another module, or a value that is not callable (a module
    or a [dict]). *)
Inductive member : Type :=
| MClass (c : class_def)
| MFunction (f : pyval)
| MValue.

(** The names that the source of [better_model] binds at module level. *)
Definition better_model : list (string * member) :=
  [ ("masked_softmax", MFunction (ext_function "masked_softmax"));
    ("sort_batch_by_length", MFunction (ext_function "sort_batch_by_length"));
    ("torch", MValue); ("nn", MValue); ("F", MValue);
    ("supported_rnns", MValue); ("supported_rnns_inv", MValue);
    ("VideoEncoder", MClass (mkClass "VideoEncoder" VideoEncoder_sig VideoEncoder_init));
    ("CharDecoder", MClass (mkClass "CharDecoder" CharDecoder_sig CharDecoder_init)) ].

Definition module_getattr (m : list (string * member)) (name : string)
  : result member :=
  match lookup name m with
  | Some x => Ok x
  | None => Raise (AttributeError name)
  end.

(** Calling a member of the module: a class binds the arguments to
    [__init__] and runs it on a new instance; an imported function does
    what its own module makes it do. *)
Definition call_member (f : member) (pos : list pyval)
    (kw : list (string * pyval)) : result pyval :=
  match f with
  | MClass c =>
      (env <- bind_args (cd_sig c) pos kw ;;
       match cd_init c env (new_instance (cd_name c)) with
       | (Ok _, self) => Ok (PyInst (inst_class self) (inst_attrs self))
       | (Raise e, _) => Raise e
       end)%res
  | MFunction f => ext_call f pos kw
  | MValue => Raise (TypeError "object is not callable")
  end.

(** [_init_models], lines 83-102. *)
Definition _init_models (char2idx num_layers frame_dim hidden_size char_dim
    enable_ctc rnn_type attention_type bidirectional rnn_dropout : pyval)
  : result (pyval * pyval) :=
  (video_encoder <- module_getattr better_model "VideoEncoder" ;;
   vocab_size <- py_len char2idx ;;
   encoder <- call_member video_encoder [frame_dim; hidden_size]
     [("rnn_type", rnn_type); ("num_layers", num_layers);
      ("bidirectional", bidirectional); ("rnn_dropout", rnn_dropout);
      ("enable_ctc", enable_ctc); ("vocab_size", PyInt vocab_size);
      ("char2idx", char2idx)] ;;
   char_decoding_step <- module_getattr better_model "CharDecodingStep" ;;
   vocab_size <- py_len char2idx ;;
   decoding_step <- call_member char_decoding_step [encoder]
     [("char_dim", char_dim); ("vocab_size", PyInt vocab_size);
      ("char2idx", char2idx); ("rnn_dropout", rnn_dropout);
      ("attention_type", attention_type)] ;;
   Ok (encoder, decoding_step))%res.

End Classes.

(** ** [train.py]: [train] *)

(** A [torch.utils.data.DataLoader]: opaque to the driver, identified with
    the arguments it was made from. *)
Record loader : Type := mkLoader {
  ld_dataset : dataset;
  ld_batch_size : pyval;
  ld_num_workers : pyval
}.

(** [np.min] of a Python list: an empty one has no minimum. *)
Definition np_min (min_nonempty : list pyval -> result pyval) (l : list pyval)
  : result pyval :=
  match l with
  | [] => Raise (ValueError "zero-size array to reduction operation minimum which has no identity")
  | _ :: _ => min_nonempty l
  end.

(** The four lists of lines 177-180. *)
Record stats : Type := mkStats {
  val_cers : list pyval;
  test_cers : list pyval;
  train_decoder_losses : list pyval;
  train_ctc_losses : list pyval
}.

Record train_args (F : Type) : Type := mkTrainArgs {
  a_data : string;
  a_labels : string;
  a_sentence_dataset : bool;
  a_occlussion_threshold : Q;
  a_train_split : F;
  a_num_workers : pyval;
  a_num_epochs : Z;
  a_batch_size : pyval;
  a_learning_rate : pyval;
  a_enable_ctc : pyval;
  a_teacher_forcing_ratio : pyval;
  a_grad_norm : pyval;
  a_num_layers : pyval;
  a_frame_dim : pyval;
  a_hidden_size : pyval;
  a_char_dim : pyval;
  a_rnn_type : pyval;
  a_attention_type : pyval;
  a_bidirectional : pyval;
  a_rnn_dropout : pyval;
  a_seed : Z;
  a_cuda : bool
}.

Section Train.

Context {F : Type} {FA : FloatArith F}.
Variable randstate : Type.
Variables getRelRawPath getRelDatasetsPath : string -> string.
Variable path_join : string -> string -> string.
Variable load_json : string -> result (list string).
Variable glob : string -> list string.
Variable shuffle : option randstate -> list string -> list string.
Variable ext_getattr : pyval -> string -> result pyval.
Variable ext_call : pyval -> list pyval -> list (string * pyval) -> result pyval.
Variable ext_mul : pyval -> pyval -> result pyval.
Variables nn_LSTM nn_Embedding nn_Linear : pyval.
(** [torch.manual_seed(seed)] and [torch.cuda.manual_seed_all(seed)]: each
    returns, or raises on a seed it does not take. *)
Variables manual_seed cuda_manual_seed_all : Z -> result unit.
(** [np.random.RandomState(seed=seed)]: the generator, or the exception
    for a seed it does not take. *)
Variable RandomState : Z -> result randstate.
(** [_data.DataLoader(dataset, batch_size=batch_size,
    num_workers=num_workers, collate_fn=_data_loader._collate_fn)]: the
    loader, or the exception for arguments it does not take. *)
Variable DataLoader : dataset -> pyval -> pyval -> result loader.
(** [train_dataset.char2idx]. *)
Variable char2idx_of : dataset -> pyval.
(** [_train.eval] and [_train.train] (with the optimizer built for the
    call) in epoch [i], on the models and a loader: the values returned or
    the exception raised. *)
Variable train_eval : nat -> pyval * pyval -> loader -> result (pyval * pyval * pyval).
Variable train_train : nat -> pyval * pyval -> loader -> result (pyval * pyval).
(** [(count - correct).float() / count]. *)
Variable error_rate : pyval -> pyval -> result pyval.
(** [np.min] on a list that is not empty. *)
Variable min_nonempty : list pyval -> result pyval.

(** One pass of the loop body, lines 184-200. *)
Definition epoch (models : pyval * pyval) (train_loader val_loader test_loader : loader)
    (i : nat) (st : stats) : M stats :=
  (emit (EvEval i false) ;;;
   '(decoder_loss, correct, count) <- lift (train_eval i models val_loader) ;;
   val_cer <- lift (error_rate correct count) ;;
   emit (EvTrain i) ;;;
   '(avg_decoder_loss, avg_ctc_loss) <- lift (train_train i models train_loader) ;;
   emit (EvEval i true) ;;;
   '(decoder_loss, correct, count) <- lift (train_eval i models test_loader) ;;
   test_cer <- lift (error_rate correct count) ;;
   let st := mkStats (val_cers st ++ [val_cer]) (test_cers st)
               (train_decoder_losses st) (train_ctc_losses st) in
   let st := mkStats (val_cers st) (test_cers st ++ [test_cer])
               (train_decoder_losses st) (train_ctc_losses st) in
   let st := mkStats (val_cers st) (test_cers st)
               (train_decoder_losses st ++ [avg_decoder_loss]) (train_ctc_losses st) in
   lift (py_append avg_ctc_loss avg_ctc_loss) ;;;
   ret st)%drv.

(** [for i in range(num_epochs)]. *)
Fixpoint epochs (models : pyval * pyval) (train_loader val_loader test_loader : loader)
    (range : list nat) (st : stats) : M stats :=
  match range with
  | [] => ret st
  | i :: range' =>
      (st' <- epoch models train_loader val_loader test_loader i st ;;
       epochs models train_loader val_loader test_loader range' st')%drv
  end.

(** The end-of-run summary, lines 201-210. *)
Definition summary (num_epochs : Z) (st : stats) : M unit :=
  (emit EvPrintBlank ;;;
   (if (num_epochs =? 0)%Z then raise ZeroDivisionError else ret tt) ;;;
   emit EvPrintTiming ;;;
   emit (EvPrintText "Training Statistics") ;;;
   v <- lift (np_min min_nonempty (val_cers st)) ;;
   emit (EvPrintBest "Best Val CER" v) ;;;
   v <- lift (np_min min_nonempty (test_cers st)) ;;
   emit (EvPrintBest "Best Test CER" v) ;;;
   v <- lift (np_min min_nonempty (train_decoder_losses st)) ;;
   emit (EvPrintBest "Best Decoder Loss" v) ;;;
   v <- lift (np_min min_nonempty (train_ctc_losses st)) ;;
   emit (EvPrintBest "Best CTC Loss" v) ;;;
   emit EvPrintBlank)%drv.

(** Lines 176-210: the loop and the summary, given the models and the
    loaders. *)
Definition train_loop (num_epochs : Z) (models : pyval * pyval)
    (train_loader val_loader test_loader : loader) : M unit :=
  (st <- epochs models train_loader val_loader test_loader
           (seq 0 (Z.to_nat num_epochs)) (mkStats [] [] [] []) ;;
   summary num_epochs st)%drv.

(** [train], lines 104-210.  The device of line 164 is built from one of
    two literal names, which does not raise; it is handed on to
    [_train.eval] and [_train.train], whose outcomes are parameters. *)
Definition train (a : train_args F) : M unit :=
  (lift (manual_seed (a_seed a)) ;;;
   lift (cuda_manual_seed_all (a_seed a)) ;;;
   rand <- lift (RandomState (a_seed a)) ;;
   '(train_dataset, val_dataset, test_dataset) <-
      _get_datasets getRelRawPath getRelDatasetsPath path_join load_json glob
        shuffle (a_data a) (a_train_split a) (a_sentence_dataset a)
        (a_occlussion_threshold a) (a_labels a) (Some rand) ;;
   train_loader <- lift (DataLoader train_dataset (a_batch_size a) (a_num_workers a)) ;;
   val_loader <- lift (DataLoader train_dataset (a_batch_size a) (a_num_workers a)) ;;
   test_loader <- lift (DataLoader test_dataset (a_batch_size a) (a_num_workers a)) ;;
   models <- lift (_init_models ext_getattr ext_call ext_mul nn_LSTM nn_Embedding
                     nn_Linear (char2idx_of train_dataset) (a_num_layers a)
                     (a_frame_dim a) (a_hidden_size a) (a_char_dim a)
                     (a_enable_ctc a) (a_rnn_type a) (a_attention_type a)
                     (a_bidirectional a) (a_rnn_dropout a)) ;;
   train_loop (a_num_epochs a) models train_loader val_loader test_loader)%drv.

End Train.

(** ** Tensors

    A tensor of known rank is a nested list, outermost dimension first; the
    elements are of a type [A] that stands for the floating-point numbers.
    Index tensors ([LongTensor]) hold [Z] or, where torch produced them as
    positions, [nat]. *)

Notation vec A := (list A) (only parsing).
Notation mat A := (list (list A)) (only parsing).
Notation tensor3 A := (list (list (list A))) (only parsing).

Section Tensors.

Variable A : Type.


(** [t.index_select(0, index)]: a position outside the dimension raises. *)
Fixpoint index_select {X} (t : list X) (index : list nat) : result (list X) :=
  match index with
  | [] => Ok []
  | i :: index' =>
      match nth_error t i with
      | Some x => rmap (cons x) (index_select t index')
      | None => Raise (IndexError "index out of range in self")
      end
  end.

(** [t.index_select(1, index)]. *)
Fixpoint index_select_1 {X} (t : list (list X)) (index : list nat)
  : result (list (list X)) :=
  match t with
  | [] => Ok []
  | row :: t' =>
      (row' <- index_select row index ;;
       rest <- index_select_1 t' index ;;
       Ok (row' :: rest))%res
  end.

(** [s[0:n:2]] and [s[1:n:2]] along the first dimension. *)
Fixpoint evens {X} (l : list X) : list X :=
  match l with
  | [] => []
  | x :: l' => x :: match l' with [] => [] | _ :: l'' => evens l'' end
  end.

Definition odds {X} (l : list X) : list X :=
  match l with
  | [] => []
  | _ :: l' => evens l'
  end.

(** [zip_exact f what a b]: the two lists are combined position by
    position; lists of different length are a size mismatch. *)
Fixpoint zip_exact {X Y W} (f : X -> Y -> result W) (a : list X) (b : list Y)
  : result (list W) :=
  match a, b with
  | [], [] => Ok []
  | x :: a', y :: b' =>
      (w <- f x y ;; rest <- zip_exact f a' b' ;; Ok (w :: rest))%res
  | _, _ => Raise (RuntimeError "Sizes of tensors must match except in the concatenating dimension")
  end.

(** [torch.cat([a, b], dim=2)] on two tensors of rank 3. *)
Definition cat_dim2 (a b : tensor3 A) : result (tensor3 A) :=
  zip_exact (zip_exact (fun u v : vec A => Ok (u ++ v))) a b.

(** The shape of a tensor of rank 3. *)
Definition has_shape3 (t : tensor3 A) (d0 d1 d2 : nat) : Prop :=
  List.length t = d0 /\
  Forall (fun m : mat A =>
            List.length m = d1 /\ Forall (fun v : vec A => List.length v = d2) m) t.

End Tensors.

(** ** [better_model.py]: [VideoEncoder] *)

(** The keys of [supported_rnns]. *)
Inductive rnn_type : Type := LSTM | RNN | GRU.

Section Encoder.

Variable A : Type.
Variable zero : A.

(** [torch.sort(descending)] on a tensor of rank 1: the sorted values and
    the positions they came from.  The order among equal values is the
    library's choice. *)
Variable torch_sort : bool -> list Z -> list Z * list nat.

(** What the recurrent network computes for one sample, run over the
    frames of its valid prefix: the output at every timestep, and the final
    hidden and cell state of every layer and direction (forward and
    backward of a layer next to each other, as [nn.RNN] orders them).  The
    weights are part of the function. *)
Record rnn_out : Type := mkRnnOut {
  out_seq : list (vec A);
  h_n : list (vec A);
  c_n : list (vec A)
}.

Variable rnn_sample : list (vec A) -> rnn_out.

(** The fields of a [VideoEncoder] that [forward] reads. *)
Record VideoEncoder : Type := mkVideoEncoder {
  hidden_size : nat;
  enc_rnn_type : rnn_type;
  num_layers : nat;
  bidirectional : bool
}.

Definition num_dir (self : VideoEncoder) : nat :=
  if bidirectional self then 2 else 1.

(** The final state of a network: one tensor, or the pair of the hidden and
    the cell state for an LSTM. *)
Inductive final_state : Type :=
| StateTensor (h : tensor3 A)
| StateTuple (h c : tensor3 A).

(** [allennlp.nn.util.sort_batch_by_length], as the library implements it:
    sort the lengths in descending order, reorder the batch alike, and
    recover the restoring positions by sorting the permutation itself. *)
Definition sort_batch_by_length {X} (tensor : list X) (sequence_lengths : list Z)
  : result (list X * list Z * list nat * list nat) :=
  (let '(sorted_sequence_lengths, permutation_index) :=
     torch_sort true sequence_lengths in
   sorted_tensor <- index_select tensor permutation_index ;;
   let index_range := seq 0 (List.length sequence_lengths) in
   let '(_, reverse_mapping) := torch_sort false (map Z.of_nat permutation_index) in
   restoration_indices <- index_select index_range reverse_mapping ;;
   Ok (sorted_tensor, sorted_sequence_lengths, restoration_indices, permutation_index))%res.

(** A packed batch: per sample (longest first) the valid timesteps only,
    and the lengths the batch was packed with. *)
Record PackedSequence (X : Type) : Type := mkPacked {
  ps_data : list (list X);
  ps_lengths : list nat
}.

Fixpoint descending (l : list Z) : bool :=
  match l with
  | [] => true
  | x :: l' =>
      match l' with
      | [] => true
      | y :: _ => (y <=? x)%Z && descending l'
      end
  end.

(** [nn.utils.rnn.pack_padded_sequence(input, lengths, batch_first=True)]
    and what the network of line 43 accepts of its result: one length per
    sample, every length positive, in decreasing order and within the
    padded time dimension.  (torch itself packs lengths that exceed the
    time dimension; the network then refuses the packing.  The refusal is
    put here, so that [run_rnn] sees well-formed packings only.) *)
Definition pack_padded_sequence {X} (input : list (list X)) (lengths : list Z)
  : result (PackedSequence X) :=
  if negb (Nat.eqb (List.length input) (List.length lengths))
  then Raise (RuntimeError "Expected len(lengths) to be equal to batch_size")
  else if Nat.eqb (List.length input) 0
  then Raise (RuntimeError "Cannot pack empty tensors")
  else if negb (forallb (fun l => 0 <? l)%Z lengths)
  then Raise (RuntimeError "Length of all samples has to be greater than 0")
  else if negb (descending lengths)
  then Raise (RuntimeError "lengths array must be sorted in decreasing order")
  else if negb (forallb (fun p => (snd p <=? Z.of_nat (List.length (fst p)))%Z)
                  (combine input lengths))
  then Raise (RuntimeError "a length exceeds the padded sequence")
  else Ok (mkPacked
             (map (fun p => firstn (Z.to_nat (snd p)) (fst p)) (combine input lengths))
             (map Z.to_nat lengths)).

(** State number [k] of every sample of the batch: one row of the
    [(num_layers * num_dir, batch, hidden)] tensor. *)
Definition state_row (pick : rnn_out -> list (vec A)) (outs : list rnn_out) (k : nat)
  : mat A :=
  map (fun o => nth k (pick o) []) outs.

(** [self.rnn(packed_frames)], line 43, on a packing of frames of the size
    the network was built for ([frame_dim], which the model does not
    represent: frames of another size make the network raise). *)
Definition run_rnn (self : VideoEncoder) (packed : PackedSequence (vec A))
  : PackedSequence (vec A) * final_state :=
  let outs := map rnn_sample (ps_data packed) in
  let rows := seq 0 (num_layers self * num_dir self) in
  let h := map (state_row h_n outs) rows in
  let c := map (state_row c_n outs) rows in
  (mkPacked (map out_seq outs) (ps_lengths packed),
   match enc_rnn_type self with
   | LSTM => StateTuple h c
   | _ => StateTensor h
   end).

(** [nn.utils.rnn.pad_packed_sequence(packed, batch_first=True)]: every
    sample is filled with zero rows up to the longest length of the batch. *)
Definition pad_packed_sequence (width : nat) (packed : PackedSequence (vec A))
  : tensor3 A :=
  let max_len := hd O (ps_lengths packed) in
  map (fun s => s ++ repeat (repeat zero width) (max_len - List.length s))
      (ps_data packed).

(** [_cat], lines 67-68. *)
Definition _cat (s : tensor3 A) : result (tensor3 A) :=
  cat_dim2 (evens s) (odds s).

(** [VideoEncoder._cat_directions], lines 61-75. *)
Definition _cat_directions (state : final_state) : result final_state :=
  match state with
  | StateTuple h c =>
      (h' <- _cat h ;; c' <- _cat c ;; Ok (StateTuple h' c'))%res
  | StateTensor h => rmap StateTensor (_cat h)
  end.

(** [VideoEncoder.forward], lines 28-59. *)
Definition VideoEncoder_forward (self : VideoEncoder)
    (frames : tensor3 A) (frame_lens : list Z)
  : result (tensor3 A * final_state) :=
  ('(sorted_frames, sorted_frame_lens, restoration_indices, _) <-
     sort_batch_by_length frames frame_lens ;;
   packed_frames <- pack_padded_sequence sorted_frames sorted_frame_lens ;;
   let '(packed_hidden_states, state) := run_rnn self packed_frames in
   let hidden_states :=
     pad_packed_sequence (num_dir self * hidden_size self) packed_hidden_states in
   state <- (if bidirectional self then _cat_directions state else Ok state) ;;
   hidden_states <- index_select hidden_states restoration_indices ;;
   state <- match state with
            | StateTuple h c =>
                (h' <- index_select_1 h restoration_indices ;;
                 c' <- index_select_1 c restoration_indices ;;
                 Ok (StateTuple h' c'))
            | StateTensor h => rmap StateTensor (index_select_1 h restoration_indices)
            end ;;
   Ok (hidden_states, state))%res.

End Encoder.

(** ** [better_model.py]: [CharDecoder] *)

(** The arithmetic of tensor elements.  [s_lit] reads a decimal literal. *)
Class Scalar (A : Type) : Type := {
  s_zero : A;
  s_one : A;
  s_add : A -> A -> A;
  s_mul : A -> A -> A;
  s_div : A -> A -> A;
  s_exp : A -> A;
  s_tanh : A -> A;
  s_lit : Q -> A
}.

Section Decoder.

Context {A : Type} {SA : Scalar A}.

(** The recurrent state handed from step to step; only the recurrent
    network looks inside. *)
Variable State : Type.

(** A tensor whose rank is known only at run time. *)
Inductive tensor : Type :=
| T1 (t : vec A)
| T2 (t : mat A)
| T3 (t : tensor3 A)
| T4 (t : list (tensor3 A)).

Definition rank (t : tensor) : nat :=
  match t with T1 _ => 1 | T2 _ => 2 | T3 _ => 3 | T4 _ => 4 end.

(** What [self.rnn] is called on: a tensor of indices of rank 2, or a
    tensor of numbers. *)
Inductive rnn_input : Type :=
| LongInput (t : list (list Z))
| FloatInput (t : tensor).

(** [nn.Linear(in_features, out_features)]: one weight row and one bias per
    output feature. *)
Record Linear : Type := mkLinear {
  in_features : nat;
  weight : mat A;
  bias : vec A
}.

(** [nn.Linear(in_features, 1)], the shape [attn_proj] is built with. *)
Record Linear1 : Type := mkLinear1 {
  in_features1 : nat;
  weight1 : vec A;
  bias1 : A
}.

(** The fields of a [CharDecoder] that [forward] reads. *)
Record CharDecoder : Type := mkCharDecoder {
  embedding : mat A;
  rnn : rnn_input -> State -> result (tensor * State);
  attn_proj : Linear1;
  concat_layer : Linear;
  output_proj : Linear
}.

Fixpoint mapM {X Y} (f : X -> result Y) (l : list X) : result (list Y) :=
  match l with
  | [] => Ok []
  | x :: l' => (y <- f x ;; rest <- mapM f l' ;; Ok (y :: rest))%res
  end.

Definition sum_vec (v : vec A) : A := fold_right s_add s_zero v.

Definition dot (w x : vec A) : A :=
  sum_vec (map (fun p => s_mul (fst p) (snd p)) (combine w x)).

(** Elementwise operation with broadcasting along one dimension: equal
    sizes pair up, a size of one is repeated, other sizes do not match. *)
Definition bzip {X Y W} (f : X -> Y -> result W) (a : list X) (b : list Y)
  : result (list W) :=
  if Nat.eqb (List.length a) (List.length b) then zip_exact f a b
  else match a, b with
       | [x], _ => mapM (fun y => f x y) b
       | _, [y] => mapM (fun x => f x y) a
       | _, _ => Raise (RuntimeError "The size of tensor a must match the size of tensor b")
       end.

Definition bzip2 (f : A -> A -> A) (a b : mat A) : result (mat A) :=
  bzip (bzip (fun x y => Ok (f x y))) a b.

(** Line 111: [torch.arange(en_seq_len).expand(batch_size, en_seq_len) <
    encoder_lens.unsqueeze(dim=1)]. *)
Definition make_encoder_mask (batch_size en_seq_len : nat) (encoder_lens : list Z)
  : result (list (list bool)) :=
  bzip (bzip (fun t len => Ok (Z.of_nat t <? len)%Z))
       (repeat (seq 0 en_seq_len) batch_size)
       (map (fun len => [len]) encoder_lens).

(** [self.embedding(char)]: the rows of the table at the given indices. *)
Definition embedding_lookup (table : mat A) (char : list Z) : result (mat A) :=
  mapM (fun c =>
          if (c <? 0)%Z then Raise (IndexError "index out of range in self")
          else match nth_error table (Z.to_nat c) with
               | Some row => Ok row
               | None => Raise (IndexError "index out of range in self")
               end) char.

(** Expanding one dimension to size [n]: it has that size already, or size
    one. *)
Definition expand_dim {X} (n : nat) (l : list X) : result (list X) :=
  if Nat.eqb (List.length l) n then Ok l
  else match l with
       | [x] => Ok (repeat x n)
       | _ => Raise (RuntimeError "The expanded size of the tensor must match the existing size")
       end.

Definition expand3 (t : tensor3 A) (d0 d1 d2 : nat) : result (tensor3 A) :=
  (rows <- expand_dim d0 t ;;
   mapM (fun m => r <- expand_dim d1 m ;; mapM (expand_dim d2) r) rows)%res.

(** [t.expand_as(other)] for [other] of rank 3: missing leading dimensions
    count as size one. *)
Definition expand_as (t : tensor) (other : tensor3 A) : result (tensor3 A) :=
  let d0 := List.length other in
  let d1 := List.length (hd [] other) in
  let d2 := List.length (hd [] (hd [] other)) in
  match t with
  | T1 v => expand3 [[v]] d0 d1 d2
  | T2 m => expand3 [m] d0 d1 d2
  | T3 t3 => expand3 t3 d0 d1 d2
  | T4 _ => Raise (RuntimeError "the number of sizes provided must be greater or equal to the number of dimensions in the tensor")
  end.

Definition linear_vec (l : Linear) (x : vec A) : result (vec A) :=
  if Nat.eqb (List.length x) (in_features l)
  then Ok (map (fun p => s_add (dot (fst p) x) (snd p)) (combine (weight l) (bias l)))
  else Raise (RuntimeError "size mismatch").

(** A function of the last dimension applied throughout a tensor. *)
Definition map_last (f : vec A -> result (vec A)) (t : tensor) : result tensor :=
  match t with
  | T1 v => rmap T1 (f v)
  | T2 m => rmap T2 (mapM f m)
  | T3 t3 => rmap T3 (mapM (mapM f) t3)
  | T4 t4 => rmap T4 (mapM (mapM (mapM f)) t4)
  end.

Definition linear (l : Linear) (t : tensor) : result tensor :=
  map_last (linear_vec l) t.

Definition tanh_tensor (t : tensor) : result tensor :=
  map_last (fun v => Ok (map s_tanh v)) t.

(** [self.attn_proj(x).squeeze(dim=-1)] on a tensor of rank 3: the single
    output feature is the last dimension that the squeeze removes. *)
Definition attn_scores (l : Linear1) (x : tensor3 A) : result (mat A) :=
  mapM (mapM (fun v : vec A =>
                if Nat.eqb (List.length v) (in_features1 l)
                then Ok (s_add (dot (weight1 l) v) (bias1 l))
                else Raise (RuntimeError "size mismatch"))) x.

(** [torch.nn.functional.softmax(x, dim=-1)] on one row. *)
Definition softmax_row (x : vec A) : vec A :=
  let e := map s_exp x in
  map (fun y => s_div y (sum_vec e)) e.

Definition mask_float (mask : list (list bool)) : mat A :=
  map (map (fun b : bool => if b then s_one else s_zero)) mask.

(** [allennlp.nn.util.masked_softmax(vector, mask, dim=-1)] on tensors of
    rank 2, as the library implements it (with [memory_efficient] left at
    [False]): the masked logits are zeroed, the softmax of the row is
    masked again and divided by its sum plus [1e-13]. *)
Definition masked_softmax (vector : mat A) (mask : list (list bool))
  : result (mat A) :=
  (let mask := mask_float mask in
   zeroed <- bzip2 s_mul vector mask ;;
   let result := map softmax_row zeroed in
   result <- bzip2 s_mul result mask ;;
   let total := map (fun row => [s_add (sum_vec row) (s_lit (1 # 10000000000000))]) result in
   bzip2 s_div result total)%res.

Definition vec_add (u v : vec A) : vec A :=
  map (fun p => s_add (fst p) (snd p)) (combine u v).

(** A row vector times a matrix. *)
Definition vec_mat (r : vec A) (m : mat A) : vec A :=
  fold_right (fun p acc => vec_add (map (s_mul (fst p)) (snd p)) acc)
             (repeat s_zero (List.length (hd [] m)))
             (combine r m).

(** [a.bmm(b)]: the batches pair up, and in every pair the row length of
    [a] is the number of rows of [b]. *)
Definition bmm (a b : tensor3 A) : result (tensor3 A) :=
  zip_exact (fun (x y : mat A) =>
               mapM (fun r : vec A =>
                       if Nat.eqb (List.length r) (List.length y)
                       then Ok (vec_mat r y)
                       else Raise (RuntimeError "batch2 has the wrong size")) x) a b.

(** [t.squeeze(dim=1)]: dimension 1 is removed when its size is one.  The
    size of dimension 1 is read off the first entry along dimension 0; a
    tensor that is empty along dimension 0 does not record it and is left
    as it is. *)
Definition squeeze1 (t : tensor) : result tensor :=
  match t with
  | T1 _ => Raise (IndexError "Dimension out of range")
  | T2 m =>
      if Nat.eqb (List.length (hd [] m)) 1 then Ok (T1 (List.concat m)) else Ok t
  | T3 t3 =>
      if Nat.eqb (List.length (hd [] t3)) 1 then Ok (T2 (List.concat t3)) else Ok t
  | T4 t4 =>
      if Nat.eqb (List.length (hd [] t4)) 1 then Ok (T3 (List.concat t4)) else Ok t
  end.

(** The sizes of a tensor, read off its first entries. *)
Definition shape (t : tensor) : list nat :=
  match t with
  | T1 v => [List.length v]
  | T2 m => [List.length m; List.length (hd [] m)]
  | T3 t3 =>
      [List.length t3; List.length (hd [] t3); List.length (hd [] (hd [] t3))]
  | T4 t4 =>
      [List.length t4; List.length (hd [] t4); List.length (hd [] (hd [] t4));
       List.length (hd [] (hd [] (hd [] t4)))]
  end.

Definition list_eqb (a b : list nat) : bool :=
  if list_eq_dec Nat.eq_dec a b then true else false.

(** The sizes that [torch.cat(.., dim=1)] compares: all but dimension 1. *)
Definition shape_but1 (t : tensor) : list nat :=
  match shape t with
  | d0 :: _ :: rest => d0 :: rest
  | s => s
  end.

Definition app_rows {X} (a b : list (list X)) : list (list X) :=
  map (fun p => fst p ++ snd p) (combine a b).

(** [torch.cat([a, b], dim=1)]: an empty tensor of rank 1 is skipped; the
    other tensors have the same rank and the same sizes outside
    dimension 1. *)
Definition cat_dim1 (a b : tensor) : result tensor :=
  match a, b with
  | T1 [], _ => Ok b
  | _, T1 [] => Ok a
  | T1 _, T1 _ => Raise (IndexError "Dimension out of range")
  | T2 x, T2 y =>
      if list_eqb (shape_but1 a) (shape_but1 b) then Ok (T2 (app_rows x y))
      else Raise (RuntimeError "Sizes of tensors must match except in dimension 1")
  | T3 x, T3 y =>
      if list_eqb (shape_but1 a) (shape_but1 b) then Ok (T3 (app_rows x y))
      else Raise (RuntimeError "Sizes of tensors must match except in dimension 1")
  | T4 x, T4 y =>
      if list_eqb (shape_but1 a) (shape_but1 b) then Ok (T4 (app_rows x y))
      else Raise (RuntimeError "Sizes of tensors must match except in dimension 1")
  | _, _ => Raise (RuntimeError "Tensors must have same number of dimensions")
  end.

(** Lines 111 and 127: the attention weights of one decoding step, from the
    attention logits and the encoder lengths. *)
Definition attention_weights (batch_size en_seq_len : nat) (encoder_lens : list Z)
    (attn_logits : mat A) : result (mat A) :=
  (encoder_mask <- make_encoder_mask batch_size en_seq_len encoder_lens ;;
   masked_softmax attn_logits encoder_mask)%res.

(** [CharDecoder.forward], lines 96-138. *)
Definition CharDecoder_forward (self : CharDecoder) (char : list Z)
    (previous_state : State) (encoder_lens : list Z)
    (encoder_hidden_states : tensor3 A) : result (tensor * State) :=
  (let batch_size := List.length char in
   let en_seq_len := List.length (hd [] encoder_hidden_states) in
   encoder_mask <- make_encoder_mask batch_size en_seq_len encoder_lens ;;
   embedded_char <- embedding_lookup (embedding self) char ;;
   let char := map (fun c => [c]) char in
   '(hidden_state, final_state) <- rnn self (LongInput char) previous_state ;;
   expanded_hidden_state <- expand_as hidden_state encoder_hidden_states ;;
   joined <- cat_dim2 encoder_hidden_states expanded_hidden_state ;;
   attn_logits <- attn_scores (attn_proj self) joined ;;
   attn_weights <- masked_softmax attn_logits encoder_mask ;;
   let attn_weights := map (fun row => [row]) attn_weights in
   context <- bmm attn_weights encoder_hidden_states ;;
   let context := T4 (map (fun m => [m]) context) in
   squeezed <- squeeze1 hidden_state ;;
   new_hidden_state <- cat_dim1 context squeezed ;;
   new_hidden_state <- linear (concat_layer self) new_hidden_state ;;
   new_hidden_state <- tanh_tensor new_hidden_state ;;
   output_logits <- linear (output_proj self) new_hidden_state ;;
   Ok (output_logits, final_state))%res.

End Decoder.

(** ** [train.py]: the shared logger *)

Section SharedLogger.

(** A logger object of [_util]. *)
Variable logger : Type.
(** [_util.getLogger(name, verbosity=verbosity)]. *)
Variable getLogger : string -> pyval -> result logger.
(** [os.path.basename(__file__).split('.')[0]]. *)
Variable module_name : string.

(** [_getSharedLogger], lines 30-34; the state is the global [_logger]. *)
Definition _getSharedLogger (verbosity : pyval) : St (option logger) logger :=
  fun _logger =>
    match _logger with
    | None =>
        match getLogger module_name verbosity with
        | Ok l => (Ok l, Some l)
        | Raise e => (Raise e, None)
        end
    | Some l => (Ok l, Some l)
    end.

End SharedLogger.

(** ** [better_model.py]: [supported_rnns] and its inverse *)

Section Dict.

(** A [dict] with keys in [K]: the items in insertion order, no key
    twice.  [eqb] is the equality of keys. *)
Variables K V : Type.
Variable eqb : K -> K -> bool.

(** [d[k] = v]: a key that is present keeps its place and takes the new
    value, a new key goes last. *)
Fixpoint dict_set (d : list (K * V)) (k : K) (v : V) : list (K * V) :=
  match d with
  | [] => [(k, v)]
  | (k', v') :: d' =>
      if eqb k k' then (k', v) :: d' else (k', v') :: dict_set d' k v
  end.

(** [dict(pairs)]. *)
Definition dict_of_pairs (pairs : list (K * V)) : list (K * V) :=
  fold_left (fun d p => dict_set d (fst p) (snd p)) pairs [].

(** [d.get(k)]. *)
Definition dict_get (d : list (K * V)) (k : K) : option V :=
  option_map snd (find (fun p => eqb k (fst p)) d).

End Dict.

Definition rnn_type_eqb (a b : rnn_type) : bool :=
  match a, b with
  | LSTM, LSTM | RNN, RNN | GRU, GRU => true
  | _, _ => false
  end.

(** Lines 6-10; the classes [nn.LSTM], [nn.RNN] and [nn.GRU] are the
    values of [rnn_type]. *)
Definition supported_rnns : list (string * rnn_type) :=
  [("lstm", LSTM); ("rnn", RNN); ("gru", GRU)].

(** [dict((v, k) for k, v in d.items())], line 11. *)
Definition dict_invert {K V} (eqbV : V -> V -> bool) (d : list (K * V)) : list (V * K) :=
  dict_of_pairs eqbV (map (fun p => (snd p, fst p)) d).

Definition supported_rnns_inv : list (rnn_type * string) :=
  dict_invert rnn_type_eqb supported_rnns.

(** * Definitions the properties are stated with *)

(** ** The driver *)

(** A log that holds nothing but warnings about the label file: no dataset
    was built or reported. *)
Definition only_warnings (log : list event) : Prop :=
  Forall (fun e => match e with EvWarning _ _ => True | _ => False end) log.

Definition is_training_event (e : event) : bool :=
  match e with
  | EvEval _ _ | EvTrain _ => true
  | _ => false
  end.

Definition is_ctc_report (e : event) : bool :=
  match e with
  | EvPrintBest what _ => String.eqb what "Best CTC Loss"
  | _ => false
  end.

Section LabelsStage.

Variable getRelRawPath : string -> string.
Variable path_join : string -> string -> string.
Variable load_json : string -> result (list string).

(** The vocabulary stage, lines 39-46, run on an empty log. *)
Definition labels_stage (dataset_name labels : string) : labels_t * list event :=
  let labels_path := path_join (getRelRawPath dataset_name) labels in
  match load_json labels_path with
  | Ok chars => (LabelStr (String.concat "" chars), [])
  | Raise _ => (LabelList _labels, [EvWarning labels_path (LabelList _labels)])
  end.

End LabelsStage.

(** A small directory: ten videos, the label file missing, and a shuffle
    that reverses the list. *)

Definition small_glob (_ : string) : list string :=
  ["v07"; "v02"; "v10"; "v01"; "v05"; "v03"; "v09"; "v04"; "v08"; "v06"].

Definition reversing_shuffle (_ : option unit) (l : list string) : list string :=
  rev l.

Definition no_label_file (_ : string) : result (list string) :=
  Raise (OSError "No such file or directory").

Definition slash_join (a b : string) : string := (a ++ "/" ++ b)%string.

Definition raw_path (d : string) : string := ("data/raw/" ++ d)%string.

Definition datasets_path (d : string) : string := ("data/datasets/" ++ d)%string.

Definition small_run {F : Type} {FA : FloatArith F} (train_split : F)
    (glob : string -> list string)
  : result (dataset * dataset * dataset) * list event :=
  run (_get_datasets raw_path datasets_path slash_join no_label_file glob
         reversing_shuffle "StephenColbert/medium_no_vtx1" train_split false
         (8 # 10) "labels.json" (Some tt)).

(** Train fractions as the interpreter reads their literals: the default
    of [train], line 109, and four others. *)
Module Fraction.
Import PrimFloat.
#[local] Set Warnings "-inexact-float".
Definition default : spec_float := Double.literal 0.8.
Definition nine_tenths : spec_float := Double.literal 0.9.
Definition nineteen_twentieths : spec_float := Double.literal 0.95.
Definition two : spec_float := Double.literal 2.0.
Definition three_quarters : spec_float := Double.literal 0.75.
End Fraction.

(** A double that is a zero, or positive with an exponent of at most [E]
    and as many digits that digits and exponent add up to at most [G]: it
    is below [2^G]. *)
Definition bounded_nonneg (E G : Z) (x : spec_float) : Prop :=
  match x with
  | S754_zero _ => True
  | S754_finite false m e => (e <= E)%Z /\ (Zpos (digits2_pos m) + e <= G)%Z
  | _ => False
  end.

(** Outcomes of one epoch of evaluation and training. *)

Definition no_loader : loader := mkLoader (mkDataset false [] (LabelList _labels) 0) PyNone PyNone.

Definition eval_outcome (_ : nat) (_ : pyval * pyval) (_ : loader)
  : result (pyval * pyval * pyval) :=
  Ok (PyFloat (3 # 2), PyInt 7, PyInt 10).

Definition rate_outcome (correct count : pyval) : result pyval :=
  match correct, count with
  | PyInt c, PyInt n =>
      if (n =? 0)%Z then Raise ZeroDivisionError
      else Ok (PyFloat (Qmake (n - c) (Z.to_pos n)))
  | _, _ => Raise (TypeError "unsupported operand")
  end.

Definition first_of (l : list pyval) : result pyval :=
  match l with x :: _ => Ok x | [] => Raise (ValueError "empty") end.

(** ** The encoder *)

(** The entries of [l] at the positions [index], [d] standing in for a
    position outside [l]. *)
Definition gather {X} (d : X) (l : list X) (index : list nat) : list X :=
  map (fun i => nth i l d) index.

Definition in_range {X} (l : list X) (index : list nat) : Prop :=
  Forall (fun i => (i < List.length l)%nat) index.

Section EncoderReference.

Variable A : Type.
Variable zero : A.
Variable torch_sort : bool -> list Z -> list Z * list nat.
Variable rnn_sample : list (vec A) -> rnn_out A.

(** The batch can be packed: it is not empty, every length is positive and
    within the frames of its sample. *)
Definition valid_batch (frames : tensor3 A) (lens : list Z) : bool :=
  negb (Nat.eqb (List.length lens) 0)
  && forallb (fun l => 0 <? l)%Z lens
  && forallb (fun p => (snd p <=? Z.of_nat (List.length (fst p)))%Z) (combine frames lens).

(** The valid prefix of every sample, in batch order. *)
Definition prefixes (frames : tensor3 A) (lens : list Z) : list (mat A) :=
  map (fun p => firstn (Z.to_nat (snd p)) (fst p)) (combine frames lens).

(** The forward and the backward state of layer [l], side by side, for
    every sample. *)
Definition merged_row (pick : rnn_out A -> list (vec A)) (outs : list (rnn_out A))
    (l : nat) : mat A :=
  map (fun o => nth (2 * l) (pick o) [] ++ nth (2 * l + 1) (pick o) []) outs.

Definition final_rows (self : VideoEncoder) (pick : rnn_out A -> list (vec A))
    (outs : list (rnn_out A)) : tensor3 A :=
  if bidirectional self
  then map (merged_row pick outs) (seq 0 (num_layers self))
  else map (state_row pick outs) (seq 0 (num_layers self)).

Definition batch_state (self : VideoEncoder) (outs : list (rnn_out A)) : final_state A :=
  match enc_rnn_type self with
  | LSTM => StateTuple (final_rows self (@h_n A) outs) (final_rows self (@c_n A) outs)
  | _ => StateTensor (final_rows self (@h_n A) outs)
  end.

Definition pad_to (width max_len : nat) (s : mat A) : mat A :=
  s ++ repeat (repeat zero width) (max_len - List.length s).

Definition batch_hidden (self : VideoEncoder) (max_len : nat) (outs : list (rnn_out A))
  : tensor3 A :=
  map (fun o => pad_to (num_dir self * hidden_size self) max_len (out_seq o)) outs.

(** What [forward] returns, computed sample by sample in batch order:
    [max_len] is the longest length of the batch. *)
Definition forward_in_batch_order (self : VideoEncoder) (frames : tensor3 A)
    (lens : list Z) : tensor3 A * final_state A :=
  let outs := map rnn_sample (prefixes frames lens) in
  let max_len := hd 0%nat (map Z.to_nat (fst (torch_sort true lens))) in
  (batch_hidden self max_len outs, batch_state self outs).

(** Lines 53-57 on their own: the samples of a final state selected along
    the batch dimension. *)
Definition state_index_select_1 (state : final_state A) (index : list nat)
  : result (final_state A) :=
  match state with
  | StateTuple h c =>
      (h' <- index_select_1 h index ;;
       c' <- index_select_1 c index ;;
       Ok (StateTuple h' c'))%res
  | StateTensor h => rmap (@StateTensor A) (index_select_1 h index)
  end.

(** What [nn.RNN], [nn.LSTM] and [nn.GRU] document of their outputs: one
    output of [num_dir * hidden_size] features per timestep, and one final
    hidden (and cell) state of [hidden_size] features per layer and
    direction. *)
Definition rnn_output_shapes (self : VideoEncoder) : Prop :=
  forall s : list (vec A),
    List.length (out_seq (rnn_sample s)) = List.length s /\
    Forall (fun v : vec A => List.length v = (num_dir self * hidden_size self)%nat)
           (out_seq (rnn_sample s)) /\
    List.length (h_n (rnn_sample s)) = (num_layers self * num_dir self)%nat /\
    Forall (fun v : vec A => List.length v = hidden_size self) (h_n (rnn_sample s)) /\
    List.length (c_n (rnn_sample s)) = (num_layers self * num_dir self)%nat /\
    Forall (fun v : vec A => List.length v = hidden_size self) (c_n (rnn_sample s)).

Definition state_has_shape (state : final_state A) (d0 d1 d2 : nat) : Prop :=
  match state with
  | StateTensor h => has_shape3 h d0 d1 d2
  | StateTuple h c => has_shape3 h d0 d1 d2 /\ has_shape3 c d0 d1 d2
  end.

Definition is_tuple (state : final_state A) : bool :=
  match state with StateTuple _ _ => true | StateTensor _ => false end.

(** The longest length of a batch. *)
Definition max_length (lens : list Z) : Z := fold_right Z.max 0%Z lens.

End EncoderReference.

(** A stable insertion sort to stand for [torch.sort], and a network that
    counts the frames it has seen to stand for the recurrent network. *)

Definition before (descending : bool) (x y : Z) : bool :=
  if descending then (y <=? x)%Z else (x <=? y)%Z.

Fixpoint insert_keyed (descending : bool) (x : Z * nat) (l : list (Z * nat))
  : list (Z * nat) :=
  match l with
  | [] => [x]
  | y :: l' =>
      if before descending (fst x) (fst y) then x :: l
      else y :: insert_keyed descending x l'
  end.

Definition insertion_sort (descending : bool) (l : list Z) : list Z * list nat :=
  let sorted := fold_right (insert_keyed descending) []
                  (combine l (seq 0 (List.length l))) in
  (map fst sorted, map snd sorted).

(** A network of [layers] layers with [hidden] features per direction that
    writes the number of frames seen so far into every feature. *)
Definition counting_rnn (layers dirs hidden : nat) (s : list (vec Z)) : rnn_out Z :=
  mkRnnOut
    (map (fun t => repeat (Z.of_nat (S t)) (dirs * hidden)) (seq 0 (List.length s)))
    (repeat (repeat (Z.of_nat (List.length s)) hidden) (layers * dirs))
    (repeat (repeat 0%Z hidden) (layers * dirs)).

(** Two samples of five frames of four features; the second has three
    valid frames. *)
Definition two_samples : tensor3 Z :=
  [ map (fun t => repeat t 4) [1; 2; 3; 4; 5]%Z;
    map (fun t => repeat t 4) [6; 7; 8; 0; 0]%Z ].

Definition lstm_encoder : VideoEncoder := mkVideoEncoder 8 LSTM 1 true.

Definition two_samples_swapped : tensor3 Z :=
  [ map (fun t => repeat t 4) [6; 7; 8; 0; 0]%Z;
    map (fun t => repeat t 4) [1; 2; 3; 4; 5]%Z ].

(** ** The decoder *)

Definition map2 {X Y W} (f : X -> Y -> W) (a : list X) (b : list Y) : list W :=
  map (fun p => f (fst p) (snd p)) (combine a b).

Section AttentionReference.

Context {A : Type} {SA : Scalar A}.

(** The mask of one sample: position [t] is valid when [t < len]. *)
Definition mask_row (en_seq_len : nat) (len : Z) : list bool :=
  map (fun t => (Z.of_nat t <? len)%Z) (seq 0 en_seq_len).

Definition float_row (m : list bool) : vec A :=
  map (fun b : bool => if b then s_one else s_zero) m.

(** The softmax of the logits with the masked ones zeroed, masked again:
    what the weights are before they are divided by their sum. *)
Definition masked_mass (en_seq_len : nat) (x : vec A) (len : Z) : vec A :=
  let m := float_row (mask_row en_seq_len len) in
  map2 s_mul (softmax_row (map2 s_mul x m)) m.

(** The attention weights of one sample. *)
Definition masked_row (en_seq_len : nat) (x : vec A) (len : Z) : vec A :=
  let q := masked_mass en_seq_len x len in
  map (fun y => s_div y (s_add (sum_vec q) (s_lit (1 # 10000000000000)))) q.

End AttentionReference.

(** The real numbers as tensor elements: the arithmetic without rounding,
    overflow or NaN.  A statement over them holds of the [float32] tensors
    of the code up to rounding. *)
#[export] Instance R_scalar : Scalar R := {|
  s_zero := 0%R;
  s_one := 1%R;
  s_add := Rplus;
  s_mul := Rmult;
  s_div := Rdiv;
  s_exp := exp;
  s_tanh := tanh;
  s_lit := Q2R
|}.

(** Real numbers next to what is not a number: [Some x] is the number [x],
    [None] stands for NaN and for the infinities.  What is computed from
    [None] is [None], and so is a quotient by zero; on numbers the
    arithmetic is the exact one. *)
Definition lift2 (f : R -> R -> R) (a b : option R) : option R :=
  match a, b with
  | Some x, Some y => Some (f x y)
  | _, _ => None
  end.

#[export] Instance partial_scalar : Scalar (option R) := {|
  s_zero := Some 0%R;
  s_one := Some 1%R;
  s_add := lift2 Rplus;
  s_mul := lift2 Rmult;
  s_div := fun a b =>
    match a, b with
    | Some x, Some y => if Req_dec_T y 0 then None else Some (x / y)%R
    | _, _ => None
    end;
  s_exp := option_map exp;
  s_tanh := option_map tanh;
  s_lit := fun q => Some (Q2R q)
|}.



(** The softmax mass on the valid positions of one sample: the sum, over
    the positions [t < len], of the softmax of the logits with the masked
    ones zeroed. *)
Definition valid_mass (en_seq_len : nat) (x : vec R) (len : Z) : R :=
  sum_vec (firstn (Z.to_nat len)
             (softmax_row (map2 s_mul x (float_row (mask_row en_seq_len len))))).

Definition epsilon : R := s_lit (1 # 10000000000000).

(** Numbers kept as expressions, so that a decoding step can be evaluated
    without choosing an arithmetic. *)

Inductive expr : Type :=
| Lit (q : Q)
| Add (a b : expr)
| Mul (a b : expr)
| Div (a b : expr)
| Exp (a : expr)
| Tanh (a : expr).

#[export] Instance expr_scalar : Scalar expr := {|
  s_zero := Lit 0;
  s_one := Lit 1;
  s_add := Add;
  s_mul := Mul;
  s_div := Div;
  s_exp := Exp;
  s_tanh := Tanh;
  s_lit := Lit
|}.

(** A network that answers an index tensor of shape [(batch, 1)] as it
    would a batch of embedded characters: with an output of shape
    [(batch, 1, 1)]. *)
Definition lenient_network (input : @rnn_input expr) (st : unit)
  : result (@tensor expr * unit) :=
  match input with
  | LongInput t => Ok (T3 (map (fun _ => [[Lit (1 # 2)]]) t), st)
  | FloatInput _ => Ok (T3 [], st)
  end.

(** A network that, like [nn.RNN], takes numbers only. *)
Definition strict_network (input : @rnn_input expr) (st : unit)
  : result (@tensor expr * unit) :=
  match input with
  | LongInput _ => Raise (RuntimeError "expected a floating point input of rank 3")
  | FloatInput t => Ok (t, st)
  end.

(** A decoder with [hidden_size = 1], [char_dim = 1] and
    [output_size = 2]. *)
Definition small_decoder (net : @rnn_input expr -> unit -> result (@tensor expr * unit))
  : CharDecoder unit :=
  mkCharDecoder
    [[Lit 1]; [Lit 2]]
    net
    (mkLinear1 2 [Lit 1; Lit 1] (Lit 0))
    (mkLinear 2 [[Lit 1; Lit 1]] [Lit 0])
    (mkLinear 1 [[Lit 1]; [Lit 2]] [Lit 0; Lit 0]).

(** ** Further definitions for the driver *)

(** Calls made one after the other on the same state. *)
Fixpoint for_each {S X Y} (f : X -> St S Y) (l : list X) : St S (list Y) :=
  match l with
  | [] => ret []
  | x :: l' => (y <- f x ;; rest <- for_each f l' ;; ret (y :: rest))%drv
  end.

(** A logger that is nothing but the arguments it was made with. *)
Definition plain_logger (name : string) (verbosity : pyval) : result (string * pyval) :=
  Ok (name, verbosity).

Definition is_warning (e : event) : bool :=
  match e with EvWarning _ _ => true | _ => false end.

(** What a complete pass of the loop body emits. *)
Definition epoch_events (i : nat) : list event :=
  [EvEval i false; EvTrain i; EvEval i true].

(** [l] is a beginning of [l']. *)
Definition starts {X} (l l' : list X) : Prop := exists rest, l' = l ++ rest.

(** A label file that holds three characters. *)
Definition abc_label_file (_ : string) : result (list string) := Ok ["a"; "b"; "c"].

(** The directory of [small_glob] listed in another order. *)
Definition small_glob_listed_otherwise (_ : string) : list string :=
  ["v10"; "v09"; "v01"; "v02"; "v03"; "v04"; "v05"; "v06"; "v07"; "v08"].

(** [_train.train] returning a list as its CTC loss. *)
Definition train_outcome (_ : nat) (_ : pyval * pyval) (_ : loader)
  : result (pyval * pyval) :=
  Ok (PyFloat (1 # 2), PyList []).

(** ** Further definitions for the encoder *)

(** [two_samples] with other numbers in the padding of the second sample. *)
Definition two_samples_padded_otherwise : tensor3 Z :=
  [ map (fun t => repeat t 4) [1; 2; 3; 4; 5]%Z;
    map (fun t => repeat t 4) [6; 7; 8; 99; -7]%Z ].

(** A network that hands back its input as its output, and the last frame
    it has seen as its one final state. *)
Definition echo_rnn (s : list (vec Z)) : rnn_out Z :=
  mkRnnOut s [last s []] [last s []].

(** The insertion sort run from the other end of the list: among equal
    values the positions come out in the opposite order. *)
Definition insertion_sort_from_the_end (descending : bool) (l : list Z)
  : list Z * list nat :=
  let sorted := fold_right (insert_keyed descending) []
                  (rev (combine l (seq 0 (List.length l)))) in
  (map fst sorted, map snd sorted).

(** A unidirectional encoder of one layer over four features. *)
Definition plain_encoder : VideoEncoder := mkVideoEncoder 4 GRU 1 false.

(** ** Further definitions for the decoder *)

Section AttentionStage.

Context {A : Type} {SA : Scalar A}.
Variable State : Type.

(** Lines 111 and 123-129 of [forward]: the context vectors, from the
    output of the recurrent network; the product of line 129 before its
    [unsqueeze]. *)
Definition attention_context (self : CharDecoder State) (batch_size : nat)
    (hidden_state : tensor) (encoder_lens : list Z)
    (encoder_hidden_states : tensor3 A) : result (tensor3 A) :=
  (let en_seq_len := List.length (hd [] encoder_hidden_states) in
   encoder_mask <- make_encoder_mask batch_size en_seq_len encoder_lens ;;
   expanded_hidden_state <- expand_as hidden_state encoder_hidden_states ;;
   joined <- cat_dim2 encoder_hidden_states expanded_hidden_state ;;
   attn_logits <- attn_scores (attn_proj self) joined ;;
   attn_weights <- masked_softmax attn_logits encoder_mask ;;
   let attn_weights := map (fun row => [row]) attn_weights in
   bmm attn_weights encoder_hidden_states)%res.

End AttentionStage.

(** A decoder over the real numbers with [hidden_size = 1]. *)
Definition real_decoder : CharDecoder unit :=
  mkCharDecoder [[0%R]] (fun _ st => Ok (T3 [], st))
    (mkLinear1 2 [1%R; 1%R] 0%R)
    (mkLinear 2 [[1%R; 1%R]] [0%R])
    (mkLinear 1 [[1%R]] [0%R]).


(** * Properties of the driver *)

(** ** Python numerics *)

Lemma py_int_nonneg (x : Q) : (0 <= x)%Q -> PyNum.py_int x = Qfloor x.
Proof.
  intros Hx. unfold PyNum.py_int.
  destruct (Qle_bool 0 x) eqn:E; [reflexivity|].
  apply Qle_bool_iff in Hx. congruence.
Qed.

Lemma py_int_fraction (p : Q) (n : Z) :
  (0 <= p)%Q -> (p <= 1)%Q -> (0 <= n)%Z ->
  (0 <= PyNum.py_int (p * inject_Z n) <= n)%Z.
Proof.
  intros H0 H1 Hn.
  assert (Hn' : (0 <= inject_Z n)%Q) by (unfold Qle; simpl; lia).
  assert (Hlo : (0 <= p * inject_Z n)%Q) by (apply Qmult_le_0_compat; assumption).
  assert (Hhi : (p * inject_Z n <= inject_Z n)%Q).
  { setoid_replace (inject_Z n) with (1 * inject_Z n)%Q at 2 by (symmetry; apply Qmult_1_l).
    apply Qmult_le_compat_r; assumption. }
  rewrite py_int_nonneg by assumption. split.
  - change 0%Z with (Qfloor (inject_Z 0)). apply Qfloor_resp_le. exact Hlo.
  - rewrite <- (Qfloor_Z n) at 2. apply Qfloor_resp_le. exact Hhi.
Qed.

Lemma norm_index_in_range (n : nat) (i : Z) :
  (0 <= i <= Z.of_nat n)%Z -> PyNum.norm_index n i = Z.to_nat i.
Proof.
  intros H. unfold PyNum.norm_index.
  destruct (i <? 0)%Z eqn:E; [apply Z.ltb_lt in E; lia|].
  f_equal. lia.
Qed.

(** Three consecutive slices with bounds in range put the list back
    together. *)
Lemma slices_partition {A} (l : list A) (a b : Z) :
  (0 <= a)%Z -> (a <= b)%Z -> (b <= Z.of_nat (List.length l))%Z ->
  PyNum.slice l None (Some a) = firstn (Z.to_nat a) l /\
  PyNum.slice l (Some a) (Some b) = firstn (Z.to_nat b - Z.to_nat a) (skipn (Z.to_nat a) l) /\
  PyNum.slice l (Some b) None = skipn (Z.to_nat b) l /\
  PyNum.slice l None (Some a) ++ PyNum.slice l (Some a) (Some b)
    ++ PyNum.slice l (Some b) None = l.
Proof.
  intros Ha Hab Hb. unfold PyNum.slice.
  rewrite !norm_index_in_range by lia.
  assert (E3 : firstn (List.length l - Z.to_nat b) (skipn (Z.to_nat b) l)
               = skipn (Z.to_nat b) l).
  { apply firstn_all2. rewrite length_skipn. lia. }
  rewrite E3, Nat.sub_0_r. simpl skipn.
  repeat split; try reflexivity.
  replace (skipn (Z.to_nat b) l)
    with (skipn (Z.to_nat b - Z.to_nat a) (skipn (Z.to_nat a) l)).
  - rewrite firstn_skipn. apply firstn_skipn.
  - rewrite skipn_skipn. f_equal. lia.
Qed.

Lemma slices_lengths {A} (l : list A) (a b : Z) :
  (0 <= a)%Z -> (a <= b)%Z -> (b <= Z.of_nat (List.length l))%Z ->
  List.length (PyNum.slice l None (Some a)) = Z.to_nat a /\
  List.length (PyNum.slice l (Some a) (Some b)) = Z.to_nat (b - a) /\
  List.length (PyNum.slice l (Some b) None) = Z.to_nat (Z.of_nat (List.length l) - b).
Proof.
  intros Ha Hab Hb.
  destruct (slices_partition l Ha Hab Hb) as (E1 & E2 & E3 & _).
  rewrite E1, E2, E3, !length_firstn, !length_skipn. lia.
Qed.

(** In a list without repetition, a value sits in exactly one of three
    consecutive parts. *)
Lemma in_exactly_one {A} (x y z : list A) (v : A) :
  NoDup (x ++ y ++ z) -> In v (x ++ y ++ z) ->
  (In v x /\ ~ In v y /\ ~ In v z) \/
  (~ In v x /\ In v y /\ ~ In v z) \/
  (~ In v x /\ ~ In v y /\ In v z).
Proof.
  intros Hnd Hin.
  assert (Hxy : forall u, In u x -> In u (y ++ z) -> False).
  { intros u Hu Hu'. revert Hnd Hu Hu'. clear. induction x as [|a x IH]; simpl.
    - tauto.
    - intros Hnd [->|Hu] Hu'.
      + inversion Hnd as [|? ? Hn _]. apply Hn. apply in_or_app. now right.
      + inversion Hnd. eauto. }
  assert (Hyz : forall u, In u y -> In u z -> False).
  { apply NoDup_app_remove_l in Hnd. revert Hnd. clear. induction y as [|a y IH]; simpl.
    - tauto.
    - intros Hnd u [->|Hu] Hu'.
      + inversion Hnd as [|? ? Hn _]. apply Hn. apply in_or_app. now right.
      + inversion Hnd. eauto. }
  apply in_app_or in Hin. destruct Hin as [H|H].
  - left. repeat split; [assumption| |]; intro H'; apply (Hxy v H); apply in_or_app; tauto.
  - apply in_app_or in H. destruct H as [H|H].
    + right; left. repeat split; [|assumption|].
      * intro H'. apply (Hxy v H'). apply in_or_app. tauto.
      * intro H'. exact (Hyz v H H').
    + right; right. repeat split; [| |assumption].
      * intro H'. apply (Hxy v H'). apply in_or_app. tauto.
      * intro H'. exact (Hyz v H' H).
Qed.

(** ** Doubles

    The sizes of mantissas and exponents through a rounding, to the end
    that the products of lines 59 and 60 are finite and not negative for a
    train fraction between 0 and 1. *)

Section DoubleFacts.

Import Double.
#[local] Open Scope Z_scope.
#[local] Unset Implicit Arguments.

Lemma digits2_pos_upper (m : positive) : Zpos m < 2 ^ Zpos (digits2_pos m).
Proof.
  induction m as [m IH|m IH|]; cbn [digits2_pos].
  - rewrite Pos2Z.inj_succ, Z.pow_succ_r by lia. lia.
  - rewrite Pos2Z.inj_succ, Z.pow_succ_r by lia. lia.
  - reflexivity.
Qed.

Lemma digits2_pos_lower (m : positive) : 2 ^ (Zpos (digits2_pos m) - 1) <= Zpos m.
Proof.
  induction m as [m IH|m IH|]; cbn [digits2_pos].
  - rewrite Pos2Z.inj_succ. replace (Z.succ (Zpos (digits2_pos m)) - 1)
      with (Z.succ (Zpos (digits2_pos m) - 1)) by lia.
    rewrite Z.pow_succ_r by lia. lia.
  - rewrite Pos2Z.inj_succ. replace (Z.succ (Zpos (digits2_pos m)) - 1)
      with (Z.succ (Zpos (digits2_pos m) - 1)) by lia.
    rewrite Z.pow_succ_r by lia. lia.
  - reflexivity.
Qed.

Lemma digits2_pos_le (m : positive) (k : Z) :
  Zpos m < 2 ^ k -> Zpos (digits2_pos m) <= k.
Proof.
  intros H. pose proof (digits2_pos_lower m) as L.
  destruct (Z_lt_le_dec k (Zpos (digits2_pos m))) as [Hlt|]; [|assumption].
  exfalso.
  assert (2 ^ k <= 2 ^ (Zpos (digits2_pos m) - 1)).
  { destruct (Z_lt_le_dec k 0) as [Hk|Hk].
    - rewrite (Z.pow_neg_r 2 k Hk). apply Z.pow_nonneg. lia.
    - apply Z.pow_le_mono_r; lia. }
  lia.
Qed.

Lemma digits2_pos_mul (a b : positive) :
  Zpos (digits2_pos (a * b)) <= Zpos (digits2_pos a) + Zpos (digits2_pos b).
Proof.
  apply digits2_pos_le. rewrite Pos2Z.inj_mul, Z.pow_add_r by lia.
  pose proof (digits2_pos_upper a). pose proof (digits2_pos_upper b). nia.
Qed.

Lemma iter_xO_value (m d : positive) : Zpos (Pos.iter xO m d) = Zpos m * 2 ^ Zpos d.
Proof.
  revert m. induction d as [| d IH] using Pos.peano_ind; intros m.
  - rewrite Pos.iter_succ_r || simpl. cbn. lia.
  - rewrite Pos.iter_succ, Pos2Z.inj_succ, Z.pow_succ_r by lia.
    rewrite Pos2Z.inj_xO, IH. lia.
Qed.

Lemma iter_xO_digits (m d : positive) :
  Zpos (digits2_pos (Pos.iter xO m d)) = Zpos (digits2_pos m) + Zpos d.
Proof.
  revert m. induction d as [| d IH] using Pos.peano_ind; intros m.
  - cbn [Pos.iter digits2_pos]. lia.
  - rewrite Pos.iter_succ. cbn [digits2_pos]. rewrite Pos2Z.inj_succ, IH. lia.
Qed.

Lemma fexp_eq (z : Z) : fexp prec emax z = Z.max (z - 53) (-1074).
Proof. reflexivity. Qed.

Lemma shr_record_of_loc_m (m : Z) (l : location) : shr_m (shr_record_of_loc m l) = m.
Proof. destruct l as [|[]]; reflexivity. Qed.

Lemma Zdigits2_nonneg (m : Z) : 0 <= m -> 0 <= Zdigits2 m.
Proof. destruct m; simpl; lia. Qed.

Lemma shr_1_digits (r : shr_record) :
  0 <= shr_m r ->
  0 <= shr_m (shr_1 r) /\ Zdigits2 (shr_m (shr_1 r)) = Z.max (Zdigits2 (shr_m r) - 1) 0.
Proof.
  destruct r as [m rb sb]. cbn [shr_m]. intros Hm.
  destruct m as [|[p|p|]|p]; cbn [shr_1 shr_m Zdigits2 digits2_pos]; try lia.
Qed.

Lemma iter_pos_count {A : Type} (f : A -> A) (P : Z -> A -> Prop) :
  (forall k x, P k x -> P (k + 1) (f x)) ->
  forall p k x, P k x -> P (k + Zpos p) (iter_pos f p x).
Proof.
  intros Hstep. induction p as [p IH|p IH|]; intros k x Hx; cbn [iter_pos].
  - replace (k + Zpos p~1) with (k + 1 + Zpos p + Zpos p) by lia.
    apply IH, IH, Hstep, Hx.
  - replace (k + Zpos p~0) with (k + Zpos p + Zpos p) by lia.
    apply IH, IH, Hx.
  - apply Hstep, Hx.
Qed.

Lemma shr_digits (mrs : shr_record) (e n : Z) :
  0 <= shr_m mrs ->
  0 <= shr_m (fst (shr mrs e n)) /\
  snd (shr mrs e n) = Z.max e (e + n) /\
  Zdigits2 (shr_m (fst (shr mrs e n)))
  = if 0 <? n then Z.max (Zdigits2 (shr_m mrs) - n) 0 else Zdigits2 (shr_m mrs).
Proof.
  intros Hm. destruct n as [|p|p]; cbn [shr fst snd Z.ltb Z.compare].
  - repeat split; [assumption | lia].
  - pose proof (@iter_pos_count shr_record shr_1
                  (fun k r => 0 <= shr_m r /\
                              Zdigits2 (shr_m r) = Z.max (Zdigits2 (shr_m mrs) - k) 0)) as H.
    cbv beta in H.
    destruct (H (fun k x Hx => ltac:(
                  destruct Hx as [H0 Hd]; destruct (shr_1_digits x H0) as [H1 H2];
                  split; [exact H1 | rewrite H2, Hd; lia])) p 0 mrs) as [H0 Hd].
    { split; [assumption|]. pose proof (Zdigits2_nonneg _ Hm). lia. }
    repeat split; [assumption | lia | rewrite Hd; f_equal; lia].
  - repeat split; [assumption | lia].
Qed.

Lemma digits2_pos_succ (p : positive) :
  Zpos (digits2_pos (Pos.succ p)) <= Zpos (digits2_pos p) + 1.
Proof.
  induction p as [p IH|p IH|]; cbn [Pos.succ digits2_pos]; rewrite ?Pos2Z.inj_succ; lia.
Qed.

Lemma round_nearest_even_digits (m : Z) (l : location) :
  0 <= m ->
  0 <= round_nearest_even m l /\ Zdigits2 (round_nearest_even m l) <= Zdigits2 m + 1.
Proof.
  intros Hm.
  assert (Hsucc : 0 <= m + 1 /\ Zdigits2 (m + 1) <= Zdigits2 m + 1).
  { split; [lia|]. destruct m as [|p|p]; [cbn; lia | | lia].
    replace (Zpos p + 1) with (Zpos (Pos.succ p)) by lia.
    cbn [Zdigits2]. apply digits2_pos_succ. }
  assert (Hsame : 0 <= m /\ Zdigits2 m <= Zdigits2 m + 1) by lia.
  destruct l as [|[]]; cbn [round_nearest_even]; try assumption.
  destruct (Z.even m); assumption.
Qed.

Lemma binary_round_aux_bounded (mx ex : Z) (lx : location) (G E : Z) :
  0 <= mx -> Zdigits2 mx + ex <= G -> ex <= E ->
  Z.max E (Z.max (G - 52) (-1074)) <= 971 ->
  bounded_nonneg (Z.max E (Z.max (G - 52) (-1074))) (Z.max G (Z.max E (-1074)) + 1)
    (binary_round_aux prec emax false mx ex lx).
Proof.
  intros Hm HG HE Hfit. unfold binary_round_aux, shr_fexp.
  pose proof (shr_digits (shr_record_of_loc mx lx) ex
                (fexp prec emax (Zdigits2 mx + ex) - ex)) as H1.
  rewrite shr_record_of_loc_m in H1. specialize (H1 Hm).
  destruct (shr (shr_record_of_loc mx lx) ex _) as [mrs' e'].
  cbn [fst snd] in H1. destruct H1 as (H1m & H1e & H1d).
  pose proof (round_nearest_even_digits (shr_m mrs') (loc_of_shr_record mrs') H1m) as [Hrm Hrd].
  set (mr := round_nearest_even (shr_m mrs') (loc_of_shr_record mrs')) in *.
  pose proof (shr_digits (shr_record_of_loc mr loc_Exact) e'
                (fexp prec emax (Zdigits2 mr + e') - e')) as H2.
  rewrite shr_record_of_loc_m in H2. specialize (H2 Hrm).
  destruct (shr (shr_record_of_loc mr loc_Exact) e' _) as [mrs'' e''].
  cbn [fst snd] in H2. destruct H2 as (H2m & H2e & H2d).
  rewrite fexp_eq in *.
  pose proof (Zdigits2_nonneg _ Hm) as Hd0.
  pose proof (Zdigits2_nonneg _ H1m) as Hd1.
  pose proof (Zdigits2_nonneg _ Hrm) as Hd2.
  assert (He' : e' <= Z.max E (Z.max (G - 53) (-1074))) by lia.
  assert (Hmag' : Zdigits2 (shr_m mrs') + e' <= Z.max G (Z.max E (-1074))).
  { destruct (0 <? Z.max (Zdigits2 mx + ex - 53) (-1074) - ex) eqn:C;
      [apply Z.ltb_lt in C | apply Z.ltb_ge in C]; lia. }
  assert (He'' : e'' <= Z.max E (Z.max (G - 52) (-1074))) by lia.
  assert (Hmag'' : Zdigits2 (shr_m mrs'') + e'' <= Z.max G (Z.max E (-1074)) + 1).
  { destruct (0 <? Z.max (Zdigits2 mr + e' - 53) (-1074) - e') eqn:C;
      [apply Z.ltb_lt in C | apply Z.ltb_ge in C]; lia. }
  destruct (shr_m mrs'') as [|m|m] eqn:Em; cbn [bounded_nonneg].
  - exact I.
  - replace (e'' <=? emax - prec) with true by (symmetry; apply Z.leb_le; unfold emax, prec; lia).
    cbn [bounded_nonneg]. cbn [Zdigits2] in Hmag''. split; assumption.
  - lia.
Qed.

Lemma binary_round_bounded (mx : positive) (ex : Z) (G E : Z) :
  Zpos (digits2_pos mx) + ex <= G -> ex <= E ->
  Z.max E (Z.max (G - 52) (-1074)) <= 971 ->
  bounded_nonneg (Z.max E (Z.max (G - 52) (-1074))) (Z.max G (Z.max E (-1074)) + 1)
    (binary_round prec emax false mx ex).
Proof.
  intros HG HE Hfit. unfold binary_round, shl_align.
  destruct (fexp prec emax (Zpos (digits2_pos mx) + ex) - ex) as [|d|d] eqn:Ed.
  - apply binary_round_aux_bounded; cbn [Zdigits2]; try assumption; lia.
  - apply binary_round_aux_bounded; cbn [Zdigits2]; try assumption; lia.
  - apply binary_round_aux_bounded; cbn [Zdigits2]; try assumption; try lia.
    rewrite iter_xO_digits. lia.
Qed.

Lemma binary_normalize_bounded (m ex : Z) (G E : Z) :
  0 <= m -> Zdigits2 m + ex <= G -> ex <= E ->
  Z.max E (Z.max (G - 52) (-1074)) <= 971 ->
  bounded_nonneg (Z.max E (Z.max (G - 52) (-1074))) (Z.max G (Z.max E (-1074)) + 1)
    (binary_normalize prec emax m ex false).
Proof.
  intros Hm HG HE Hfit. destruct m as [|p|p]; cbn [binary_normalize].
  - exact I.
  - apply binary_round_bounded; assumption.
  - lia.
Qed.

Lemma bounded_nonneg_weaken (E G E' G' : Z) (x : spec_float) :
  E <= E' -> G <= G' -> bounded_nonneg E G x -> bounded_nonneg E' G' x.
Proof.
  intros HE HG. destruct x as [s|s| |[|] m e]; cbn [bounded_nonneg]; try tauto. lia.
Qed.

Lemma of_int_bounded (n : Z) :
  0 <= n < 2 ^ 63 -> bounded_nonneg 11 64 (of_int n).
Proof.
  intros Hn. unfold of_int.
  apply (@bounded_nonneg_weaken (Z.max 0 (Z.max (63 - 52) (-1074)))
           (Z.max 63 (Z.max 0 (-1074)) + 1)); [lia | lia |].
  apply binary_normalize_bounded; try lia.
  destruct n as [|p|p]; cbn [Zdigits2]; try lia.
  pose proof (digits2_pos_le p 63). lia.
Qed.

Lemma mul_bounded (Ex Gx Ey Gy : Z) (x y : spec_float) :
  bounded_nonneg Ex Gx x -> bounded_nonneg Ey Gy y ->
  Z.max (Ex + Ey) (Z.max (Gx + Gy - 52) (-1074)) <= 971 ->
  bounded_nonneg (Z.max (Ex + Ey) (Z.max (Gx + Gy - 52) (-1074)))
    (Z.max (Gx + Gy) (Z.max (Ex + Ey) (-1074)) + 1) (mul x y).
Proof.
  intros Hx Hy Hfit.
  destruct x as [sx|sx| |[|] mx ex]; cbn [bounded_nonneg] in Hx; try contradiction;
    destruct y as [sy|sy| |[|] my ey]; cbn [bounded_nonneg] in Hy; try contradiction;
    try exact I.
  unfold mul, SFmul. cbn [xorb].
  apply binary_round_aux_bounded; cbn [Zdigits2]; try lia.
  pose proof (digits2_pos_mul mx my). lia.
Qed.

Lemma compare_cont_lt (m n : positive) :
  Pos.compare_cont Eq m n = Lt -> Zpos m < Zpos n.
Proof. intros H. unfold Z.lt. cbn [Z.compare]. exact H. Qed.

Lemma canonical_digits (m : positive) (e : Z) :
  valid_binary prec emax (S754_finite false m e) = true -> Zpos (digits2_pos m) <= 53.
Proof.
  cbn [valid_binary]. unfold bounded, canonical_mantissa. rewrite fexp_eq.
  intros H. apply andb_prop in H. destruct H as [H _]. apply Z.eqb_eq in H. lia.
Qed.

Lemma valid_fraction_bounded (x : spec_float) :
  valid_fraction x = true -> bounded_nonneg (-52) 1 x.
Proof.
  unfold valid_fraction, is_double, leb, zero, one, SFleb.
  intros H. apply andb_prop in H. destruct H as [H H1].
  apply andb_prop in H. destruct H as [Hv H0].
  destruct x as [s|s| |s m e]; cbn [bounded_nonneg]; try exact I.
  - destruct s; discriminate.
  - discriminate.
  - destruct s; [discriminate|]. clear H0.
    pose proof (canonical_digits _ _ Hv) as Hd.
    cbn [SFcompare] in H1.
    destruct (Z.compare_spec e (-52)) as [E|E|E]; [lia | lia | discriminate].
Qed.

Lemma aligned_one_minus (m d : positive) :
  Zpos m < 2 ^ 53 ->
  0 <= Zpos (Pos.iter xO 4503599627370496%positive d) - Zpos m < 2 ^ (52 + Zpos d).
Proof.
  intros Hm. rewrite iter_xO_value, Z.pow_add_r by lia.
  assert (H2 : 2 ^ 1 <= 2 ^ Zpos d) by (apply Z.pow_le_mono_r; lia).
  assert (E52 : 2 ^ 52 = 4503599627370496) by reflexivity.
  assert (E53 : 2 ^ 53 = 4503599627370496 * 2 ^ 1) by reflexivity.
  rewrite E52. rewrite E53 in Hm. nia.
Qed.

Lemma le_one_cases (m : positive) (e : Z) :
  SFleb (S754_finite false m e) one = true ->
  e < -52 \/ (e = -52 /\ Zpos m <= 4503599627370496).
Proof.
  unfold SFleb, one. cbn [SFcompare]. intros H.
  destruct (Z.compare_spec e (-52)) as [E|E|E].
  - right. split; [exact E|].
    destruct (Pos.compare_cont Eq m 4503599627370496) eqn:C.
    + apply Pos.compare_eq in C. rewrite C. apply Z.le_refl.
    + apply compare_cont_lt in C. apply Z.lt_le_incl. exact C.
    + exfalso. clear - H. congruence.
  - left. exact E.
  - exfalso. clear - H. congruence.
Qed.

Lemma sub_one_integer (m : positive) (e : Z) :
  Zpos (digits2_pos m) <= 53 ->
  e < -52 \/ (e = -52 /\ Zpos m <= 4503599627370496) ->
  0 <= Zpos (fst (shl_align 4503599627370496 (-52) e)) - Zpos (fst (shl_align m e e))
    < 2 ^ (- e).
Proof.
  intros Hd Hc.
  assert (Hm : Zpos m < 2 ^ 53).
  { eapply Z.lt_le_trans; [apply digits2_pos_upper|]. apply Z.pow_le_mono_r; lia. }
  unfold shl_align. rewrite Z.sub_diag. cbn [fst].
  destruct Hc as [E|[E Hle]].
  - destruct (e - -52) as [|d|d] eqn:Ed; try lia. cbn [fst].
    replace (- e) with (52 + Zpos d) by lia. now apply aligned_one_minus.
  - subst e. rewrite Z.sub_diag. cbn [fst].
    assert (E52 : 2 ^ (- -52) = 4503599627370496) by reflexivity.
    rewrite E52. lia.
Qed.

Lemma sub_one_bounded (x : spec_float) :
  valid_fraction x = true -> bounded_nonneg (-52) 1 (sub one x).
Proof.
  intros Hx. pose proof (valid_fraction_bounded x Hx) as Hb.
  unfold valid_fraction, is_double, leb, zero in Hx.
  apply andb_prop in Hx. destruct Hx as [Hx H1].
  apply andb_prop in Hx. destruct Hx as [Hv _].
  destruct x as [s|s| |[|] m e]; cbn [bounded_nonneg] in Hb; try contradiction.
  - unfold sub, one. cbn [SFsub bounded_nonneg]. split; [lia|]. cbn [digits2_pos]. lia.
  - destruct Hb as [He _].
    pose proof (sub_one_integer m e (canonical_digits _ _ Hv) (le_one_cases _ _ H1)) as Hdiff.
    unfold sub. unfold one at 1. cbn [SFsub cond_Zopp].
    assert (Hmin : Z.min (-52) e = e) by lia. rewrite Hmin.
    set (p := Zpos (fst (shl_align 4503599627370496 (-52) e))
              - Zpos (fst (shl_align m e e))) in *.
    clearbody p.
    apply (@bounded_nonneg_weaken (Z.max (-52) (Z.max (0 - 52) (-1074)))
             (Z.max 0 (Z.max (-52) (-1074)) + 1)); [lia | lia |].
    apply binary_normalize_bounded; try lia.
    destruct p as [|q|q]; cbn [Zdigits2]; try lia.
    pose proof (digits2_pos_le q (- e)). lia.
Qed.

Lemma truncate_nonneg (m : positive) (e : Z) : 0 <= truncate m e.
Proof.
  unfold truncate. destruct (0 <=? e) eqn:E.
  - apply Z.mul_nonneg_nonneg; [lia | apply Z.pow_nonneg; lia].
  - apply Z.div_pos; [lia | apply Z.pow_pos_nonneg; [lia | apply Z.leb_gt in E; lia]].
Qed.

Lemma nearest_even_nonneg (m : positive) (e : Z) : 0 <= nearest_even m e.
Proof.
  unfold nearest_even. destruct (0 <=? e) eqn:E.
  - apply Z.mul_nonneg_nonneg; [lia | apply Z.pow_nonneg; lia].
  - cbv zeta.
    assert (H : 0 <= Zpos m / 2 ^ (- e)).
    { apply Z.div_pos; [lia | apply Z.pow_pos_nonneg; [lia | apply Z.leb_gt in E; lia]]. }
    destruct (_ ?= _); [destruct (Z.even _)| |]; lia.
Qed.

Lemma py_int_bounded (E G : Z) (x : spec_float) :
  bounded_nonneg E G x -> exists k, py_int x = Ok k /\ 0 <= k.
Proof.
  destruct x as [s|s| |[|] m e]; cbn [bounded_nonneg py_int apply_sign];
    try contradiction; intros _.
  - exists 0. split; [reflexivity | lia].
  - eexists. split; [reflexivity | apply truncate_nonneg].
Qed.

Lemma py_round_bounded (E G : Z) (x : spec_float) :
  bounded_nonneg E G x -> exists k, py_round x = Ok k /\ 0 <= k.
Proof.
  destruct x as [s|s| |[|] m e]; cbn [bounded_nonneg py_round apply_sign];
    try contradiction; intros _.
  - exists 0. split; [reflexivity | lia].
  - eexists. split; [reflexivity | apply nearest_even_nonneg].
Qed.

(** Lines 59 and 60 on a train fraction between 0 and 1 and a list of
    fewer than [2^63] videos: both products are finite, so [int()] and
    [round()] return, and what they return is not negative. *)
Lemma split_sizes_computed (train_split : spec_float) (n : Z) :
  valid_fraction train_split = true -> 0 <= n < 2 ^ 63 ->
  exists a b,
    py_int (mul train_split (of_int n)) = Ok a /\
    py_round (mul (of_int n) (sub one train_split)) = Ok b /\
    0 <= a /\ 0 <= b.
Proof.
  intros Hv Hn.
  pose proof (valid_fraction_bounded _ Hv) as Hts.
  pose proof (sub_one_bounded _ Hv) as Hrest.
  pose proof (of_int_bounded n Hn) as Hlen.
  destruct (py_int_bounded _ _ _ (mul_bounded _ _ _ _ _ _ Hts Hlen ltac:(lia)))
    as (a & Ha & Ha0).
  destruct (py_round_bounded _ _ _ (mul_bounded _ _ _ _ _ _ Hlen Hrest ltac:(lia)))
    as (b & Hb & Hb0).
  exists a, b. repeat split; assumption.
Qed.

End DoubleFacts.

(** ** [_get_datasets] *)

Lemma insert_sorted_perm (s : string) (l : list string) :
  Permutation (insert_sorted s l) (s :: l).
Proof.
  induction l as [|x xs IH]; simpl.
  - apply Permutation_refl.
  - destruct (String.leb s x).
    + apply Permutation_refl.
    + eapply perm_trans; [apply perm_skip, IH | apply perm_swap].
Qed.

Lemma list_sort_perm (l : list string) : Permutation (list_sort l) l.
Proof.
  induction l as [|x xs IH]; simpl.
  - constructor.
  - eapply perm_trans; [apply insert_sorted_perm | now apply perm_skip].
Qed.

Section GetDatasetsFacts.

Variable randstate : Type.
Variables getRelRawPath getRelDatasetsPath : string -> string.
Variable path_join : string -> string -> string.
Variable load_json : string -> result (list string).
Variable glob : string -> list string.
Variable shuffle : option randstate -> list string -> list string.

(** [shuffle] reorders in place: it neither drops nor repeats an entry. *)
Hypothesis shuffle_perm : forall r l, Permutation (shuffle r l) l.

Lemma labels_stage_only_warnings dataset_name labels :
  only_warnings (snd (labels_stage getRelRawPath path_join load_json dataset_name labels)).
Proof.
  unfold labels_stage, only_warnings.
  destruct (load_json _); simpl; repeat constructor.
Qed.

(** [_get_datasets] unfolded along its outcomes, whatever the arithmetic
    of floats. *)
Lemma get_datasets_outcomes {F : Type} {FA : FloatArith F} dataset_name
    (train_split : F) sentence threshold labels rand :
  let videos := glob (path_join (getRelDatasetsPath dataset_name) "*") in
  let shuffled := shuffle rand (list_sort videos) in
  let n := Z.of_nat (List.length shuffled) in
  let lab := labels_stage getRelRawPath path_join load_json dataset_name labels in
  let mk vs := mkDataset sentence vs (fst lab) threshold in
  run (_get_datasets getRelRawPath getRelDatasetsPath path_join load_json glob
         shuffle dataset_name train_split sentence threshold labels rand)
  = if (0 <? List.length videos)%nat then
      match float_int (float_mul train_split (float_of_int n)) with
      | Raise e => (Raise e, snd lab)
      | Ok train_size =>
          match float_round (float_mul (float_of_int n)
                               (float_sub float_one train_split)) with
          | Raise e => (Raise e, snd lab)
          | Ok val_test_size =>
              if (train_size + val_test_size =? n)%Z then
                let val_size := (train_size + val_test_size / 2)%Z in
                let tr := mk (PyNum.slice shuffled None (Some train_size)) in
                let va := mk (PyNum.slice shuffled (Some train_size) (Some val_size)) in
                let te := mk (PyNum.slice shuffled (Some val_size) None) in
                (Ok (tr, va, te),
                 snd lab ++ [EvPrintBlank; EvPrintText "Dataset Information:";
                             EvPrintLen "Train Dataset:" tr; EvPrintLen "Val Dataset:" va;
                             EvPrintLen "Test Dataset:" te; EvPrintBlank])
              else (Raise (AssertionError ""), snd lab)
          end
      end
    else (Raise (AssertionError "No video ids found"), snd lab).
Proof.
  cbv zeta. unfold run, _get_datasets, labels_stage, bind, try_except, lift, ret, emit, py_assert, raise.
  destruct (load_json _) as [chars|e]; simpl;
    destruct (0 <? List.length _)%nat; simpl; try reflexivity;
    destruct (float_int _) as [a|e1]; simpl; try reflexivity;
    destruct (float_round _) as [b|e2]; simpl; try reflexivity;
    destruct (_ + _ =? _)%Z; simpl; reflexivity.
Qed.

(** The same with floats as exact rationals. *)
Lemma get_datasets_cases dataset_name (train_split : Q) sentence threshold labels rand :
  let videos := glob (path_join (getRelDatasetsPath dataset_name) "*") in
  let shuffled := shuffle rand (list_sort videos) in
  let n := Z.of_nat (List.length shuffled) in
  let train_size := PyNum.py_int (train_split * inject_Z n) in
  let val_test_size := PyNum.py_round (inject_Z n * (1 - train_split)) in
  let val_size := (train_size + val_test_size / 2)%Z in
  let lab := labels_stage getRelRawPath path_join load_json dataset_name labels in
  let mk vs := mkDataset sentence vs (fst lab) threshold in
  let tr := mk (PyNum.slice shuffled None (Some train_size)) in
  let va := mk (PyNum.slice shuffled (Some train_size) (Some val_size)) in
  let te := mk (PyNum.slice shuffled (Some val_size) None) in
  run (_get_datasets getRelRawPath getRelDatasetsPath path_join load_json glob
         shuffle dataset_name train_split sentence threshold labels rand)
  = if (0 <? List.length videos)%nat then
      if (train_size + val_test_size =? n)%Z then
        (Ok (tr, va, te),
         snd lab ++ [EvPrintBlank; EvPrintText "Dataset Information:";
                     EvPrintLen "Train Dataset:" tr; EvPrintLen "Val Dataset:" va;
                     EvPrintLen "Test Dataset:" te; EvPrintBlank])
      else (Raise (AssertionError ""), snd lab)
    else (Raise (AssertionError "No video ids found"), snd lab).
Proof.
  cbv zeta. rewrite get_datasets_outcomes. reflexivity.
Qed.

(** What the partition is, once the split sizes are known to add up. *)
Lemma slices_are_a_partition (videos shuffled : list string) (a b : Z) :
  Permutation shuffled videos ->
  (0 <= a)%Z -> (0 <= b)%Z -> (a + b)%Z = Z.of_nat (List.length videos) ->
  let tr := PyNum.slice shuffled None (Some a) in
  let va := PyNum.slice shuffled (Some a) (Some (a + b / 2)%Z) in
  let te := PyNum.slice shuffled (Some (a + b / 2)%Z) None in
  tr = firstn (Z.to_nat a) shuffled /\
  tr ++ va ++ te = shuffled /\
  List.length va = Z.to_nat (b / 2) /\
  List.length te = Z.to_nat (b - b / 2) /\
  (List.length va <= List.length te <= List.length va + 1)%nat /\
  (NoDup videos -> forall v, In v videos ->
     (In v tr /\ ~ In v va /\ ~ In v te) \/
     (~ In v tr /\ In v va /\ ~ In v te) \/
     (~ In v tr /\ ~ In v va /\ In v te)).
Proof.
  intros Hperm Ha0 Hb0 Hsum. cbv zeta.
  assert (Hlen : List.length shuffled = List.length videos)
    by (apply Permutation_length; exact Hperm).
  assert (Hhalf : (0 <= b / 2 <= b)%Z).
  { split; [apply Z.div_pos; lia | apply Z.div_le_upper_bound; lia]. }
  set (val_size := (a + b / 2)%Z) in *.
  assert (Hb : (val_size <= Z.of_nat (List.length shuffled))%Z)
    by (rewrite Hlen; unfold val_size; lia).
  assert (Ha : (a <= val_size)%Z) by (unfold val_size; lia).
  destruct (slices_partition shuffled Ha0 Ha Hb) as (E1 & _ & _ & Eall).
  destruct (slices_lengths shuffled Ha0 Ha Hb) as (_ & L2 & L3).
  split; [exact E1|]. split; [exact Eall|].
  assert (Lva : Z.to_nat (val_size - a) = Z.to_nat (b / 2))
    by (unfold val_size; f_equal; lia).
  assert (Lte : Z.to_nat (Z.of_nat (List.length shuffled) - val_size)
                = Z.to_nat (b - b / 2))
    by (rewrite Hlen; unfold val_size; f_equal; lia).
  rewrite L2, L3, Lva, Lte.
  split; [reflexivity|]. split; [reflexivity|]. split.
  - pose proof (Z.div_mod b 2 ltac:(lia)) as Hdm.
    pose proof (Z.mod_pos_bound b 2 ltac:(lia)) as Hm. lia.
  - intros Hnd v Hin. apply in_exactly_one.
    + rewrite Eall. eapply Permutation_NoDup; [apply Permutation_sym, Hperm | exact Hnd].
    + rewrite Eall. eapply Permutation_in; [apply Permutation_sym, Hperm | exact Hin].
Qed.

(** C8.  The train fraction is a double, and lines 59 and 60 compute the
    two split sizes in doubles.  With the discovered videos sorted and
    shuffled into [shuffled] (a rearrangement of the discovered ones): an
    empty discovery and split sizes that do not add up to the number of
    videos each end in an [AssertionError] with no dataset built or
    reported; for a train fraction between 0 and 1, both sizes are computed
    and neither is negative, and when they add up, the train set is the
    first [int(train_split * n)] shuffled videos, train, validation and
    test are consecutive parts that make up the shuffled list, validation
    and test get the two halves of the rest (the test set the larger one
    when the rest is odd), and every video lies in exactly one of the
    three. *)
Theorem get_datasets_partition dataset_name (train_split : spec_float) sentence
    threshold labels rand :
  let videos := glob (path_join (getRelDatasetsPath dataset_name) "*") in
  let shuffled := shuffle rand (list_sort videos) in
  let n := Z.of_nat (List.length videos) in
  let train_size := Double.py_int (Double.mul train_split (Double.of_int n)) in
  let val_test_size :=
    Double.py_round (Double.mul (Double.of_int n) (Double.sub Double.one train_split)) in
  let r := run (_get_datasets getRelRawPath getRelDatasetsPath path_join load_json
                  glob shuffle dataset_name train_split sentence threshold labels rand) in
  Permutation shuffled videos /\
  (videos = [] ->
     fst r = Raise (AssertionError "No video ids found") /\ only_warnings (snd r)) /\
  (videos <> [] ->
   forall a b, train_size = Ok a -> val_test_size = Ok b -> (a + b)%Z <> n ->
     fst r = Raise (AssertionError "") /\ only_warnings (snd r)) /\
  (videos <> [] -> Double.valid_fraction train_split = true -> (n < 2 ^ 63)%Z ->
   exists a b,
     train_size = Ok a /\ val_test_size = Ok b /\ (0 <= a)%Z /\ (0 <= b)%Z /\
     ((a + b)%Z = n ->
      exists tr va te,
        fst r = Ok (tr, va, te) /\
        ds_videos tr = firstn (Z.to_nat a) shuffled /\
        ds_videos tr ++ ds_videos va ++ ds_videos te = shuffled /\
        List.length (ds_videos va) = Z.to_nat (b / 2) /\
        List.length (ds_videos te) = Z.to_nat (b - b / 2) /\
        (List.length (ds_videos va) <= List.length (ds_videos te)
           <= List.length (ds_videos va) + 1)%nat /\
        (NoDup videos -> forall v, In v videos ->
           (In v (ds_videos tr) /\ ~ In v (ds_videos va) /\ ~ In v (ds_videos te)) \/
           (~ In v (ds_videos tr) /\ In v (ds_videos va) /\ ~ In v (ds_videos te)) \/
           (~ In v (ds_videos tr) /\ ~ In v (ds_videos va) /\ In v (ds_videos te))))).
Proof.
  intros videos shuffled n train_size val_test_size r.
  assert (Hperm : Permutation shuffled videos).
  { unfold shuffled. eapply perm_trans; [apply shuffle_perm | apply list_sort_perm]. }
  assert (Hlen : List.length shuffled = List.length videos)
    by (apply Permutation_length; exact Hperm).
  pose proof (get_datasets_outcomes dataset_name train_split sentence threshold labels rand)
    as Hrun.
  cbv zeta in Hrun. fold videos in Hrun. fold shuffled in Hrun.
  rewrite Hlen in Hrun. fold n in Hrun.
  change (float_int (float_mul train_split (float_of_int n))) with train_size in Hrun.
  change (float_round (float_mul (float_of_int n) (float_sub float_one train_split)))
    with val_test_size in Hrun.
  fold r in Hrun.
  pose proof (labels_stage_only_warnings dataset_name labels) as Hwarn.
  split; [exact Hperm|]. split; [|split].
  - intros Hnil. rewrite Hnil in Hrun. cbn [List.length Nat.ltb Nat.leb] in Hrun.
    rewrite Hrun. now split.
  - intros Hne a b Ha Hb Hsum.
    assert (Hpos : (0 <? List.length videos)%nat = true).
    { apply Nat.ltb_lt. destruct videos; [congruence | simpl; lia]. }
    rewrite Hpos, Ha, Hb in Hrun.
    rewrite (proj2 (Z.eqb_neq _ _) Hsum) in Hrun. rewrite Hrun. now split.
  - intros Hne Hvalid Hn.
    assert (Hpos : (0 <? List.length videos)%nat = true).
    { apply Nat.ltb_lt. destruct videos; [congruence | simpl; lia]. }
    destruct (@split_sizes_computed train_split n Hvalid ltac:(unfold n; lia))
      as (a & b & Ha & Hb & Ha0 & Hb0).
    exists a, b. fold train_size in Ha. fold val_test_size in Hb.
    split; [exact Ha|]. split; [exact Hb|]. split; [exact Ha0|]. split; [exact Hb0|].
    intros Hsum.
    rewrite Hpos, Ha, Hb, (proj2 (Z.eqb_eq _ _) Hsum) in Hrun.
    rewrite Hrun. cbn [fst].
    eexists _, _, _. split; [reflexivity|]. cbn [ds_videos].
    exact (@slices_are_a_partition videos shuffled a b Hperm Ha0 Hb0 Hsum).
Qed.

(** The default alphabet is made of the space, punctuation marks, the ten
    digits and the twenty-six lowercase letters, each once. *)
Lemma labels_alphabet :
  forallb in_default_classes _labels = true /\
  NoDup _labels /\
  List.length (filter (fun s => match label_class s with Some Space => true | _ => false end) _labels) = 1%nat /\
  List.length (filter (fun s => match label_class s with Some Digit => true | _ => false end) _labels) = 10%nat /\
  List.length (filter (fun s => match label_class s with Some Lowercase => true | _ => false end) _labels) = 26%nat /\
  List.length (filter (fun s => match label_class s with Some Punctuation => true | _ => false end) _labels) = 23%nat.
Proof.
  split; [vm_compute; reflexivity|]. split.
  - apply (NoDup_count_occ' string_dec). intros x Hx.
    repeat (destruct Hx as [<-|Hx]; [vm_compute; reflexivity|]). destruct Hx.
  - repeat split; vm_compute; reflexivity.
Qed.

(** C9.  When reading the label file raises, whatever the exception,
    [_get_datasets] logs the warning with the hardcoded alphabet first and
    goes on: what can still end the call is one of the two configuration
    assertions, or [int()] or [round()] on a product that is not finite,
    which no train fraction between 0 and 1 gives; when the split sizes add
    up, it returns three datasets built on the hardcoded alphabet.  That
    alphabet has sixty characters, none twice: the space, the ten digits,
    the twenty-six lowercase letters and twenty-three punctuation marks. *)
Theorem get_datasets_missing_labels dataset_name (train_split : spec_float) sentence
    threshold labels rand e :
  let labels_path := path_join (getRelRawPath dataset_name) labels in
  let videos := glob (path_join (getRelDatasetsPath dataset_name) "*") in
  let n := Z.of_nat (List.length (shuffle rand (list_sort videos))) in
  let train_size := Double.py_int (Double.mul train_split (Double.of_int n)) in
  let val_test_size :=
    Double.py_round (Double.mul (Double.of_int n) (Double.sub Double.one train_split)) in
  let r := run (_get_datasets getRelRawPath getRelDatasetsPath path_join load_json
                  glob shuffle dataset_name train_split sentence threshold labels rand) in
  load_json labels_path = Raise e ->
  hd_error (snd r) = Some (EvWarning labels_path (LabelList _labels)) /\
  (forall e', fst r = Raise e' ->
     (videos = [] /\ e' = AssertionError "No video ids found") \/
     (exists a b, train_size = Ok a /\ val_test_size = Ok b /\
                  (a + b)%Z <> n /\ e' = AssertionError "") \/
     train_size = Raise e' \/
     (exists a, train_size = Ok a /\ val_test_size = Raise e')) /\
  (Double.valid_fraction train_split = true -> (n < 2 ^ 63)%Z ->
     exists a b, train_size = Ok a /\ val_test_size = Ok b) /\
  (videos <> [] ->
   forall a b, train_size = Ok a -> val_test_size = Ok b -> (a + b)%Z = n ->
     exists tr va te,
       fst r = Ok (tr, va, te) /\
       ds_labels tr = LabelList _labels /\
       ds_labels va = LabelList _labels /\
       ds_labels te = LabelList _labels) /\
  List.length _labels = 60%nat /\
  NoDup _labels /\
  forallb in_default_classes _labels = true /\
  List.length (filter (fun s => match label_class s with Some Space => true | _ => false end) _labels) = 1%nat /\
  List.length (filter (fun s => match label_class s with Some Digit => true | _ => false end) _labels) = 10%nat /\
  List.length (filter (fun s => match label_class s with Some Lowercase => true | _ => false end) _labels) = 26%nat /\
  List.length (filter (fun s => match label_class s with Some Punctuation => true | _ => false end) _labels) = 23%nat.
Proof.
  intros labels_path videos n train_size val_test_size r Hload.
  pose proof (get_datasets_outcomes dataset_name train_split sentence threshold labels rand)
    as Hrun.
  cbv zeta in Hrun. fold videos in Hrun. fold n in Hrun.
  change (float_int (float_mul train_split (float_of_int n))) with train_size in Hrun.
  change (float_round (float_mul (float_of_int n) (float_sub float_one train_split)))
    with val_test_size in Hrun.
  fold r in Hrun.
  unfold labels_stage in Hrun. fold labels_path in Hrun. rewrite Hload in Hrun.
  cbn [fst snd] in Hrun.
  split; [|split; [|split; [|split]]].
  - rewrite Hrun. destruct (0 <? _)%nat; [|reflexivity].
    destruct train_size; [|reflexivity]. destruct val_test_size; [|reflexivity].
    destruct (_ =? _)%Z; reflexivity.
  - intros e' He'. rewrite Hrun in He'.
    destruct videos as [|v vs]; cbn [List.length Nat.ltb Nat.leb] in He'.
    + left. cbn [fst] in He'. split; [reflexivity | congruence].
    + right. destruct train_size as [a|ea]; cbn [fst] in He'.
      * destruct val_test_size as [b|eb]; cbn [fst] in He'.
        -- left. exists a, b. destruct (a + b =? n)%Z eqn:E; cbn [fst] in He'.
           ++ discriminate.
           ++ apply Z.eqb_neq in E. repeat split; congruence.
        -- right. right. exists a. split; congruence.
      * right. left. congruence.
  - intros Hvalid Hn.
    destruct (@split_sizes_computed train_split n Hvalid ltac:(unfold n; lia))
      as (a & b & Ha & Hb & _).
    exists a, b. split; assumption.
  - intros Hne a b Ha Hb Hsum. rewrite Hrun.
    destruct videos as [|v vs]; [congruence|]. cbn [List.length Nat.ltb Nat.leb].
    rewrite Ha, Hb, (proj2 (Z.eqb_eq _ _) Hsum). cbn [fst].
    eexists _, _, _. repeat split.
  - destruct labels_alphabet as (Hclass & Hnd & Hcounts).
    split; [reflexivity|]. split; [exact Hnd|]. split; [exact Hclass | exact Hcounts].
Qed.

End GetDatasetsFacts.

(** ** [_init_models] and [train] *)

Ltac run_monad :=
  unfold run, bind, try_except, lift, ret, emit, raise, py_assert, setattr,
    setattr_module, getattr_self, super_init in *.

Section InitModelsFacts.

Variable ext_getattr : pyval -> string -> result pyval.
Variable ext_call : pyval -> list pyval -> list (string * pyval) -> result pyval.
Variable ext_mul : pyval -> pyval -> result pyval.
Variables nn_LSTM nn_Embedding nn_Linear : pyval.

(** The call of line 96 does not bind: [enable_ctc] is no parameter of
    [VideoEncoder.__init__]. *)
Lemma VideoEncoder_call_does_not_bind
    (frame_dim hidden_size rnn_type num_layers bidirectional rnn_dropout
     enable_ctc vocab_size char2idx : pyval) :
  bind_args (VideoEncoder_sig nn_LSTM) [frame_dim; hidden_size]
    [("rnn_type", rnn_type); ("num_layers", num_layers);
     ("bidirectional", bidirectional); ("rnn_dropout", rnn_dropout);
     ("enable_ctc", enable_ctc); ("vocab_size", vocab_size); ("char2idx", char2idx)]
  = Raise (TypeError "got an unexpected keyword argument enable_ctc").
Proof. reflexivity. Qed.

(** Whatever it is called with, [VideoEncoder.__init__] stops at the read
    of [self.frame_dim]: by then the five assignments of lines 18-22 are
    done, none of them to [frame_dim], and [nn.Module.__init__] has not run
    on the instance. *)
Lemma VideoEncoder_init_stops_at_frame_dim (env : list (string * pyval)) :
  VideoEncoder_init ext_call env (new_instance "VideoEncoder")
  = (Raise (AttributeError "frame_dim"),
     mkInstance "VideoEncoder"
       [("rnn_dropout", arg env "rnn_dropout");
        ("bidirectional", arg env "bidirectional");
        ("num_layers", arg env "num_layers");
        ("rnn_type", arg env "rnn_type");
        ("hidden_size", arg env "hidden_size")] false).
Proof. reflexivity. Qed.

Lemma init_models_raises (char2idx num_layers frame_dim hidden_size char_dim
    enable_ctc rnn_type attention_type bidirectional rnn_dropout : pyval) :
  exists msg,
    _init_models ext_getattr ext_call ext_mul nn_LSTM nn_Embedding nn_Linear
      char2idx num_layers frame_dim hidden_size char_dim enable_ctc rnn_type
      attention_type bidirectional rnn_dropout
    = Raise (TypeError msg).
Proof.
  unfold _init_models.
  change (module_getattr
            (better_model ext_getattr ext_call ext_mul nn_LSTM nn_Embedding nn_Linear)
            "VideoEncoder")
    with (Ok (MClass (mkClass "VideoEncoder" (VideoEncoder_sig nn_LSTM)
                        (VideoEncoder_init ext_call)))).
  cbn [rbind].
  destruct (py_len char2idx) as [n|e] eqn:E.
  - cbn [rbind call_member cd_sig]. rewrite VideoEncoder_call_does_not_bind.
    eexists. reflexivity.
  - destruct char2idx as [| | | | | | |cls ms [len|]|]; simpl in E; try discriminate;
      inversion E; subst; eexists; reflexivity.
Qed.

End InitModelsFacts.

Section TrainFacts.

Context {F : Type} {FA : FloatArith F}.
Variable randstate : Type.
Variables getRelRawPath getRelDatasetsPath : string -> string.
Variable path_join : string -> string -> string.
Variable load_json : string -> result (list string).
Variable glob : string -> list string.
Variable shuffle : option randstate -> list string -> list string.
Variable ext_getattr : pyval -> string -> result pyval.
Variable ext_call : pyval -> list pyval -> list (string * pyval) -> result pyval.
Variable ext_mul : pyval -> pyval -> result pyval.
Variables nn_LSTM nn_Embedding nn_Linear : pyval.
Variables manual_seed cuda_manual_seed_all : Z -> result unit.
Variable RandomState : Z -> result randstate.
Variable DataLoader : dataset -> pyval -> pyval -> result loader.
Variable char2idx_of : dataset -> pyval.
Variable train_eval : nat -> pyval * pyval -> loader -> result (pyval * pyval * pyval).
Variable train_train : nat -> pyval * pyval -> loader -> result (pyval * pyval).
Variable error_rate : pyval -> pyval -> result pyval.
Variable min_nonempty : list pyval -> result pyval.

Lemma get_datasets_no_training dataset_name (train_split : F) sentence threshold
    labels rand :
  existsb is_training_event
    (snd (run (_get_datasets getRelRawPath getRelDatasetsPath path_join load_json
                 glob shuffle dataset_name train_split sentence threshold labels rand)))
  = false.
Proof.
  rewrite get_datasets_outcomes. cbv zeta. unfold labels_stage.
  destruct (load_json _); destruct (0 <? _)%nat; try reflexivity;
    destruct (float_int _); try reflexivity;
    destruct (float_round _); try reflexivity;
    destruct (_ =? _)%Z; reflexivity.
Qed.

(** [train] up to the models: the seeding, the datasets and the loaders,
    with the log of the datasets, and then the [TypeError] of
    [_init_models]. *)
Lemma train_outcomes (a : train_args F) :
  let r := run (train getRelRawPath getRelDatasetsPath path_join load_json glob shuffle
                  ext_getattr ext_call ext_mul nn_LSTM nn_Embedding nn_Linear
                  manual_seed cuda_manual_seed_all RandomState DataLoader char2idx_of
                  train_eval train_train error_rate min_nonempty a) in
  match (manual_seed (a_seed a) ;;; cuda_manual_seed_all (a_seed a) ;;;
         RandomState (a_seed a))%res with
  | Raise e => r = (Raise e, [])
  | Ok rand =>
      let d := run (_get_datasets getRelRawPath getRelDatasetsPath path_join load_json
                      glob shuffle (a_data a) (a_train_split a) (a_sentence_dataset a)
                      (a_occlussion_threshold a) (a_labels a) (Some rand)) in
      snd r = snd d /\
      match fst d with
      | Raise e => fst r = Raise e
      | Ok (train_dataset, _, test_dataset) =>
          match (DataLoader train_dataset (a_batch_size a) (a_num_workers a) ;;;
                 DataLoader train_dataset (a_batch_size a) (a_num_workers a) ;;;
                 DataLoader test_dataset (a_batch_size a) (a_num_workers a))%res with
          | Raise e => fst r = Raise e
          | Ok _ => exists msg, fst r = Raise (TypeError msg)
          end
      end
  end.
Proof.
  cbv zeta. unfold train, run, bind, lift.
  destruct (manual_seed (a_seed a)) as [[]|e]; cbn [rbind]; [|reflexivity].
  destruct (cuda_manual_seed_all (a_seed a)) as [[]|e]; cbn [rbind]; [|reflexivity].
  destruct (RandomState (a_seed a)) as [rand|e]; cbn [rbind]; [|reflexivity].
  destruct (_get_datasets _ _ _ _ _ _ _ _ _ _ _ _ []) as [[[[tr va] te]|e] log];
    cbn [fst snd]; [|split; reflexivity].
  destruct (DataLoader tr _ _) as [l1|e]; cbn [rbind fst snd]; [|split; reflexivity].
  destruct (DataLoader te _ _) as [l3|e]; cbn [rbind fst snd]; [|split; reflexivity].
  destruct (init_models_raises ext_getattr ext_call ext_mul nn_LSTM nn_Embedding
              nn_Linear (char2idx_of tr) (a_num_layers a) (a_frame_dim a)
              (a_hidden_size a) (a_char_dim a) (a_enable_ctc a) (a_rnn_type a)
              (a_attention_type a) (a_bidirectional a) (a_rnn_dropout a)) as [msg Hmsg].
  rewrite Hmsg. cbn [fst snd]. split; [reflexivity|]. exists msg. reflexivity.
Qed.

(** C7.  For every argument assignment: [_init_models] raises a
    [TypeError], the module has no [CharDecodingStep] while it has a
    [CharDecoder] whose [__init__] takes other parameters than the call of
    line 99 passes, the call of [VideoEncoder] passes [enable_ctc] (and
    [vocab_size], [char2idx]) that [__init__] does not take,
    [VideoEncoder.__init__] itself stops at the read of the never assigned
    [self.frame_dim] with [nn.Module.__init__] not run on the instance, and
    [train] ends in an exception with no evaluation or training event
    emitted. *)
Theorem model_construction_always_raises (a : train_args F)
    (char2idx num_layers frame_dim hidden_size char_dim enable_ctc rnn_type
     attention_type bidirectional rnn_dropout encoder : pyval)
    (env : list (string * pyval)) :
  (exists msg,
     _init_models ext_getattr ext_call ext_mul nn_LSTM nn_Embedding nn_Linear
       char2idx num_layers frame_dim hidden_size char_dim enable_ctc rnn_type
       attention_type bidirectional rnn_dropout
     = Raise (TypeError msg)) /\
  module_getattr (better_model ext_getattr ext_call ext_mul nn_LSTM nn_Embedding nn_Linear)
    "CharDecodingStep" = Raise (AttributeError "CharDecodingStep") /\
  (exists c,
     module_getattr (better_model ext_getattr ext_call ext_mul nn_LSTM nn_Embedding nn_Linear)
       "CharDecoder" = Ok (MClass c) /\
     map p_name (cd_sig c)
     = ["encoder"; "char_dim"; "output_size"; "char_padding_idx"; "rnn_dropout"] /\
     exists msg,
       bind_args (cd_sig c) [encoder]
         [("char_dim", char_dim); ("vocab_size", PyInt 0); ("char2idx", char2idx);
          ("rnn_dropout", rnn_dropout); ("attention_type", attention_type)]
       = Raise (TypeError msg)) /\
  map p_name (VideoEncoder_sig nn_LSTM)
  = ["frame_dim"; "hidden_size"; "rnn_type"; "num_layers"; "bidirectional"; "rnn_dropout"] /\
  (let out := VideoEncoder_init ext_call env (new_instance "VideoEncoder") in
   fst out = Raise (AttributeError "frame_dim") /\
   lookup "frame_dim" (inst_attrs (snd out)) = None /\
   inst_module_init (snd out) = false) /\
  (let out := run (train getRelRawPath getRelDatasetsPath path_join load_json glob
                     shuffle ext_getattr ext_call ext_mul nn_LSTM nn_Embedding
                     nn_Linear manual_seed cuda_manual_seed_all RandomState DataLoader
                     char2idx_of train_eval train_train error_rate min_nonempty a) in
   (exists e, fst out = Raise e) /\ existsb is_training_event (snd out) = false).
Proof.
  split; [apply init_models_raises|].
  split; [reflexivity|].
  split.
  { eexists. split; [reflexivity|]. split; [reflexivity|]. eexists. reflexivity. }
  split; [reflexivity|].
  split; [rewrite VideoEncoder_init_stops_at_frame_dim; repeat split|].
  cbv zeta.
  pose proof (train_outcomes a) as Hrun. cbv zeta in Hrun.
  destruct (manual_seed (a_seed a) ;;; cuda_manual_seed_all (a_seed a) ;;;
            RandomState (a_seed a))%res as [rand|e].
  - destruct Hrun as [Hlog Hres]. rewrite Hlog. split.
    + destruct (fst (run (_get_datasets _ _ _ _ _ _ _ _ _ _ _ _)))
        as [[[tr va] te]|e]; [|eexists; exact Hres].
      destruct (DataLoader tr _ _ ;;; DataLoader tr _ _ ;;; DataLoader te _ _)%res;
        [destruct Hres as [msg Hres]|]; eexists; exact Hres.
    + apply get_datasets_no_training.
  - rewrite Hrun. split; [eexists; reflexivity | reflexivity].
Qed.

(** One pass of the loop body leaves [train_ctc_losses] as it found it and
    reports no CTC loss. *)
Lemma epoch_keeps_ctc_losses models train_loader val_loader test_loader i st log :
  let out := epoch train_eval train_train error_rate models train_loader
               val_loader test_loader i st log in
  (forall st', fst out = Ok st' -> train_ctc_losses st' = train_ctc_losses st) /\
  (existsb is_ctc_report log = false -> existsb is_ctc_report (snd out) = false).
Proof.
  cbv zeta. unfold epoch. run_monad.
  assert (Hlog : forall l ev, is_ctc_report ev = false ->
            existsb is_ctc_report l = false -> existsb is_ctc_report (l ++ [ev]) = false).
  { intros l ev Hev Hl. rewrite existsb_app, Hl. simpl. now rewrite Hev. }
  destruct (train_eval i models val_loader) as [[[dl c] n]|e]; simpl;
    [|split; [discriminate | intros; now apply Hlog]].
  destruct (error_rate c n) as [val_cer|e]; simpl;
    [|split; [discriminate | intros; now apply Hlog]].
  destruct (train_train i models train_loader) as [[adl acl]|e]; simpl;
    [|split; [discriminate | intros; repeat apply Hlog; auto]].
  destruct (train_eval i models test_loader) as [[[dl' c'] n']|e]; simpl;
    [|split; [discriminate | intros; repeat apply Hlog; auto]].
  destruct (error_rate c' n') as [test_cer|e]; simpl;
    [|split; [discriminate | intros; repeat apply Hlog; auto]].
  destruct (py_append acl acl) as [[]|e]; simpl.
  - split; [intros st' E; inversion E; reflexivity | intros; repeat apply Hlog; auto].
  - split; [discriminate | intros; repeat apply Hlog; auto].
Qed.

Lemma epochs_keep_ctc_losses models train_loader val_loader test_loader range :
  forall st log,
  let out := epochs train_eval train_train error_rate models train_loader
               val_loader test_loader range st log in
  (forall st', fst out = Ok st' -> train_ctc_losses st' = train_ctc_losses st) /\
  (existsb is_ctc_report log = false -> existsb is_ctc_report (snd out) = false).
Proof.
  induction range as [|i range IH]; intros st log; cbv zeta; simpl.
  - unfold ret. simpl. split; [intros st' E; now inversion E | auto].
  - unfold bind.
    pose proof (epoch_keeps_ctc_losses models train_loader val_loader test_loader i st log) as He.
    cbv zeta in He.
    destruct (epoch _ _ _ _ _ _ _ _ _ _) as [[st1|e] log1]; simpl in *.
    + destruct He as [He1 He2]. specialize (IH st1 log1). cbv zeta in IH.
      destruct IH as [IH1 IH2]. split.
      * intros st' E. rewrite (IH1 st' E). now apply He1.
      * intros Hlog. apply IH2, He2, Hlog.
    + split; [discriminate | apply He].
Qed.

(** The summary of a run whose [train_ctc_losses] is empty ends in an
    exception before a CTC loss is reported. *)
Lemma summary_without_ctc_losses num_epochs st log :
  train_ctc_losses st = [] ->
  existsb is_ctc_report log = false ->
  let out := summary min_nonempty num_epochs st log in
  (exists e, fst out = Raise e) /\ existsb is_ctc_report (snd out) = false.
Proof.
  intros Hctc Hlog. cbv zeta. unfold summary. run_monad. rewrite Hctc.
  assert (Happ : forall l ev, is_ctc_report ev = false ->
            existsb is_ctc_report l = false -> existsb is_ctc_report (l ++ [ev]) = false).
  { intros l ev Hev Hl. rewrite existsb_app, Hl. simpl. now rewrite Hev. }
  destruct (num_epochs =? 0)%Z; simpl;
    [split; [eexists; reflexivity | now apply Happ]|].
  destruct (np_min min_nonempty (val_cers st)); simpl;
    [|split; [eexists; reflexivity | repeat apply Happ; auto]].
  destruct (np_min min_nonempty (test_cers st)); simpl;
    [|split; [eexists; reflexivity | repeat apply Happ; auto]].
  destruct (np_min min_nonempty (train_decoder_losses st)); simpl;
    [|split; [eexists; reflexivity | repeat apply Happ; auto]].
  split; [eexists; reflexivity | repeat apply Happ; auto].
Qed.

(** C10.  The loop and the summary, whatever the models, the loaders, the
    number of epochs and the outcomes of evaluation and training: the run
    ends in an exception and no best CTC loss is ever reported, because
    line 200 appends to [avg_ctc_loss] and [train_ctc_losses] stays
    empty. *)
Lemma train_loop_never_reports_ctc_loss num_epochs models train_loader val_loader test_loader :
  let out := run (train_loop train_eval train_train error_rate min_nonempty
                    num_epochs models train_loader val_loader test_loader) in
  (exists e, fst out = Raise e) /\ existsb is_ctc_report (snd out) = false.
Proof.
  cbv zeta. unfold run, train_loop, bind.
  pose proof (epochs_keep_ctc_losses models train_loader val_loader test_loader
                (seq 0 (Z.to_nat num_epochs)) (mkStats [] [] [] []) []) as He.
  cbv zeta in He.
  destruct (epochs _ _ _ _ _ _ _ _ _ _) as [[st|e] log]; simpl in *.
  - destruct He as [He1 He2]. apply summary_without_ctc_losses.
    + now rewrite (He1 st eq_refl).
    + now apply He2.
  - split; [eexists; reflexivity | now apply He].
Qed.

End TrainFacts.

(** ** A run on a small directory

    Ten videos, the label file missing, the default train fraction of 0.8
    and a shuffle that reverses the list. *)

Lemma reversing_shuffle_perm (r : option unit) (l : list string) :
  Permutation (reversing_shuffle r l) l.
Proof. apply Permutation_sym, Permutation_rev. Qed.

(** The default fraction is the double nearest to 0.8, a train fraction,
    and splits ten videos into eight and two. *)
Lemma default_fraction :
  Fraction.default = S754_finite false 7205759403792794 (-53) /\
  Double.valid_fraction Fraction.default = true /\
  Double.py_int (Double.mul Fraction.default (Double.of_int 10)) = Ok 8%Z /\
  Double.py_round (Double.mul (Double.of_int 10) (Double.sub Double.one Fraction.default))
  = Ok 2%Z.
Proof. repeat split; vm_compute; reflexivity. Qed.

(** Of two videos, 0.75 leaves [2 * 0.25 = 0.5] for the rest, a tie that
    [round] settles for the even 0: with [int(1.5) = 1] the sizes add up to
    1 and the second assertion raises. *)
Lemma tie_fraction :
  Double.py_int (Double.mul Fraction.three_quarters (Double.of_int 2)) = Ok 1%Z /\
  Double.py_round (Double.mul (Double.of_int 2)
                     (Double.sub Double.one Fraction.three_quarters)) = Ok 0%Z.
Proof. split; vm_compute; reflexivity. Qed.

Lemma get_datasets_partition_witness :
  (exists tr va te,
     fst (small_run Fraction.default small_glob) = Ok (tr, va, te) /\
     ds_videos tr = ["v10"; "v09"; "v08"; "v07"; "v06"; "v05"; "v04"; "v03"] /\
     ds_videos va = ["v02"] /\
     ds_videos te = ["v01"]) /\
  fst (small_run Fraction.three_quarters (fun _ => ["v1"; "v2"]))
  = Raise (AssertionError "").
Proof.
  split.
  - destruct default_fraction as (_ & Hvalid & Hts & Hvts).
    destruct (get_datasets_partition raw_path datasets_path slash_join no_label_file
                small_glob reversing_shuffle reversing_shuffle_perm
                "StephenColbert/medium_no_vtx1" Fraction.default false (8 # 10)
                "labels.json" (Some tt)) as (_ & _ & _ & H).
    destruct H as (a & b & Ha & Hb & _ & _ & H).
    + discriminate.
    + exact Hvalid.
    + reflexivity.
    + change (Z.of_nat (List.length (small_glob _))) with 10%Z in Ha, Hb.
      rewrite Hts in Ha. rewrite Hvts in Hb.
      assert (a = 8%Z) by congruence. assert (b = 2%Z) by congruence. subst a b.
      destruct (H eq_refl) as (tr & va & te & Hrun & Htr & Hall & _).
      exists tr, va, te. split; [exact Hrun|].
      vm_compute in Hrun. injection Hrun as <- <- <-. repeat split.
  - destruct tie_fraction as (Hts & Hvts).
    destruct (get_datasets_partition raw_path datasets_path slash_join no_label_file
                (fun _ => ["v1"; "v2"]) reversing_shuffle reversing_shuffle_perm
                "StephenColbert/medium_no_vtx1" Fraction.three_quarters false (8 # 10)
                "labels.json" (Some tt)) as (_ & _ & H & _).
    apply (H ltac:(discriminate) 1%Z 0%Z Hts Hvts). discriminate.
Defined.

(** A fraction between 0 and 1 whose split sizes do not add up: of three
    videos, 0.9 gives [int(2.7) = 2] for training and [round(0.3) = 0] for
    the rest. *)
Example get_datasets_sizes_do_not_add_up :
  small_run Fraction.nine_tenths (fun _ => ["v1"; "v2"; "v3"])
  = (Raise (AssertionError ""),
     [EvWarning "data/raw/StephenColbert/medium_no_vtx1/labels.json" (LabelList _labels)]).
Proof. vm_compute. reflexivity. Qed.

(** The rounding of doubles decides: of fifteen videos, 0.9 gives
    [int(13.5) = 13] for training, and [1.0 - 0.9] is a double below 0.1,
    so that [15 * (1.0 - 0.9)] is below 1.5 and rounds to 1.  The sizes add
    up to 14 and the second assertion raises, where the exact 1.5 would
    round to 2. *)
Example rounding_decides_against_fifteen_videos :
  Double.py_int (Double.mul Fraction.nine_tenths (Double.of_int 15)) = Ok 13%Z /\
  Double.py_round (Double.mul (Double.of_int 15)
                     (Double.sub Double.one Fraction.nine_tenths)) = Ok 1%Z /\
  PyNum.py_round (inject_Z 15 * (1 - (9 # 10))) = 2%Z /\
  fst (small_run Fraction.nine_tenths
         (fun _ => ["v01"; "v02"; "v03"; "v04"; "v05"; "v06"; "v07"; "v08"; "v09";
                    "v10"; "v11"; "v12"; "v13"; "v14"; "v15"]))
  = Raise (AssertionError "").
Proof. repeat split; vm_compute; reflexivity. Qed.

(** And the other way round: of ten videos, 0.95 gives [int(9.5) = 9], and
    [10 * (1.0 - 0.95)] is a double above 0.5 that rounds to 1, where the
    exact 0.5 would round to 0.  The call returns nine videos for training,
    none for validation and one for testing. *)
Example rounding_decides_for_ten_videos :
  Double.py_round (Double.mul (Double.of_int 10)
                     (Double.sub Double.one Fraction.nineteen_twentieths)) = Ok 1%Z /\
  PyNum.py_round (inject_Z 10 * (1 - (95 # 100))) = 0%Z /\
  exists tr va te,
    fst (small_run Fraction.nineteen_twentieths small_glob) = Ok (tr, va, te) /\
    List.length (ds_videos tr) = 9%nat /\ ds_videos va = [] /\ ds_videos te = ["v01"].
Proof.
  split; [vm_compute; reflexivity|]. split; [vm_compute; reflexivity|].
  eexists _, _, _. split; [vm_compute; reflexivity|]. repeat split.
Qed.

(** The two assertions do not confine the train fraction to [0, 1]: 2.0
    is taken, and hands every video to the train set. *)
Example get_datasets_accepts_two :
  exists tr va te,
    fst (small_run Fraction.two small_glob) = Ok (tr, va, te) /\
    List.length (ds_videos tr) = 10%nat /\ ds_videos va = [] /\ ds_videos te = [].
Proof. eexists _, _, _. split; [vm_compute; reflexivity|]. repeat split. Qed.

Lemma get_datasets_missing_labels_witness :
  hd_error (snd (small_run Fraction.default small_glob))
  = Some (EvWarning "data/raw/StephenColbert/medium_no_vtx1/labels.json" (LabelList _labels)) /\
  exists tr va te,
    fst (small_run Fraction.default small_glob) = Ok (tr, va, te) /\
    ds_labels tr = LabelList _labels /\
    ds_labels va = LabelList _labels /\
    ds_labels te = LabelList _labels.
Proof.
  destruct default_fraction as (_ & _ & Hts & Hvts).
  destruct (get_datasets_missing_labels raw_path datasets_path slash_join no_label_file
              small_glob reversing_shuffle "StephenColbert/medium_no_vtx1" Fraction.default
              false (8 # 10) "labels.json" (Some tt) (e := OSError "No such file or directory")
              eq_refl) as (Hwarn & _ & _ & Hok & _).
  split; [exact Hwarn|].
  apply (Hok ltac:(discriminate) 8%Z 2%Z); [exact Hts | exact Hvts | reflexivity].
Defined.

(** ** One epoch of the training loop on concrete outcomes *)

(** [_train.train] returning its two average losses as floats: line 200
    raises in the first epoch. *)
Example train_loop_with_float_losses :
  run (train_loop eval_outcome
         (fun _ _ _ => Ok (PyFloat (1 # 2), PyFloat (1 # 4)))
         rate_outcome first_of 1 (PyNone, PyNone) no_loader no_loader no_loader)
  = (Raise (AttributeError "append"),
     [EvEval 0 false; EvTrain 0; EvEval 0 true]).
Proof. vm_compute. reflexivity. Qed.

(** [_train.train] returning a list as its CTC loss: line 200 appends the
    list to itself, [train_ctc_losses] stays empty and line 209 raises. *)
Example train_loop_with_list_losses :
  run (train_loop eval_outcome
         (fun _ _ _ => Ok (PyFloat (1 # 2), PyList []))
         rate_outcome first_of 1 (PyNone, PyNone) no_loader no_loader no_loader)
  = (Raise (ValueError "zero-size array to reduction operation minimum which has no identity"),
     [EvEval 0 false; EvTrain 0; EvEval 0 true; EvPrintBlank; EvPrintTiming;
      EvPrintText "Training Statistics";
      EvPrintBest "Best Val CER" (PyFloat (3 # 10));
      EvPrintBest "Best Test CER" (PyFloat (3 # 10));
      EvPrintBest "Best Decoder Loss" (PyFloat (1 # 2))]).
Proof. vm_compute. reflexivity. Qed.

(** * Properties of the encoder *)

(** ** Selecting by position *)

Lemma index_select_gather {X} (d : X) (t : list X) (index : list nat) :
  in_range t index -> index_select t index = Ok (gather d t index).
Proof.
  induction index as [|i index IH]; intros H; simpl.
  - reflexivity.
  - inversion H as [|? ? Hi Hrest]; subst.
    rewrite (nth_error_nth' t d Hi), (IH Hrest). reflexivity.
Qed.

Lemma index_select_inv {X} (d : X) (t : list X) (index : list nat) (r : list X) :
  index_select t index = Ok r -> in_range t index /\ r = gather d t index.
Proof.
  revert r. induction index as [|i index IH]; intros r H; simpl in H.
  - inversion H. split; constructor.
  - destruct (nth_error t i) as [x|] eqn:E; [|discriminate].
    destruct (index_select t index) as [r'|] eqn:E'; [|discriminate].
    inversion H; subst. destruct (IH r' eq_refl) as [Hin ->].
    split.
    + constructor; [|exact Hin]. apply nth_error_Some. congruence.
    + simpl. f_equal. symmetry. apply nth_error_nth. exact E.
Qed.

Lemma index_select_raises {X} (t : list X) (index : list nat) :
  ~ in_range t index -> exists e, index_select t index = Raise e.
Proof.
  intros H. destruct (index_select t index) as [r|e] eqn:E.
  - exfalso. apply H.
    destruct index as [|i index]; [constructor|].
    destruct t as [|d t]; [simpl in E; destruct i; discriminate|].
    exact (proj1 (index_select_inv d _ _ E)).
  - eexists. reflexivity.
Qed.

Lemma length_gather {X} (d : X) l index : List.length (gather d l index) = List.length index.
Proof. apply length_map. Qed.

Lemma gather_seq {X} (d : X) (l : list X) : gather d l (seq 0 (List.length l)) = l.
Proof.
  unfold gather. apply nth_ext with (d := d) (d' := d).
  - now rewrite length_map, length_seq.
  - intros k Hk. rewrite length_map, length_seq in Hk.
    rewrite (nth_indep _ d (nth 0 l d)) by (now rewrite length_map, length_seq).
    rewrite (map_nth (fun i => nth i l d) (seq 0 (List.length l)) 0%nat k).
    now rewrite seq_nth.
Qed.

Lemma gather_nth {X} (d : X) l index k :
  (k < List.length index)%nat -> nth k (gather d l index) d = nth (nth k index 0%nat) l d.
Proof.
  intros Hk. unfold gather.
  rewrite (nth_indep _ d (nth 0 l d)) by (now rewrite length_map).
  apply (map_nth (fun i => nth i l d)).
Qed.

Lemma gather_map {X Y} (f : X -> Y) (d : X) (e : Y) l index :
  in_range l index -> gather e (map f l) index = map f (gather d l index).
Proof.
  intros H. unfold gather. rewrite map_map. apply map_ext_in.
  intros i Hi. unfold in_range in H. rewrite Forall_forall in H. specialize (H i Hi).
  rewrite (nth_indep _ e (f d)) by (now rewrite length_map).
  apply map_nth.
Qed.

Lemma gather_gather {X} (d : X) l index1 index2 :
  in_range index1 index2 ->
  gather d (gather d l index1) index2 = gather d l (gather 0%nat index1 index2).
Proof.
  intros H. unfold gather. rewrite map_map. apply map_ext_in.
  intros i Hi. unfold in_range in H. rewrite Forall_forall in H.
  apply (gather_nth d l index1). now apply H.
Qed.

Lemma gather_combine {X Y} (d : X) (e : Y) a b index :
  List.length a = List.length b ->
  gather (d, e) (combine a b) index = combine (gather d a index) (gather e b index).
Proof.
  intros Hlen. unfold gather. induction index as [|i index IH]; simpl.
  - reflexivity.
  - rewrite IH. f_equal. now apply combine_nth.
Qed.

Lemma permutation_in_range {X} (l : list X) (p : list nat) :
  Permutation p (seq 0 (List.length l)) -> in_range l p.
Proof.
  intros H. apply Forall_forall. intros i Hi.
  apply (Permutation_in _ H), in_seq in Hi. lia.
Qed.

Lemma gather_permutation {X} (d : X) (l : list X) (p : list nat) :
  Permutation p (seq 0 (List.length l)) -> Permutation (gather d l p) l.
Proof.
  intros H. rewrite <- (gather_seq d l) at 2. unfold gather. now apply Permutation_map.
Qed.

(** ** Sorted lists *)

Lemma sorted_permutation_unique (R : Z -> Z -> Prop) (l1 l2 : list Z) :
  (forall x y, R x y -> R y x -> x = y) ->
  StronglySorted R l1 -> StronglySorted R l2 -> Permutation l1 l2 -> l1 = l2.
Proof.
  intros Hanti. revert l2. induction l1 as [|a l1 IH]; intros l2 H1 H2 Hp.
  - apply Permutation_nil in Hp. now subst.
  - destruct l2 as [|b l2]; [apply Permutation_sym, Permutation_nil in Hp; discriminate|].
    apply StronglySorted_inv in H1. destruct H1 as [H1 Ha].
    apply StronglySorted_inv in H2. destruct H2 as [H2 Hb].
    rewrite Forall_forall in Ha, Hb.
    assert (a = b) as ->.
    { assert (Ia : In a (b :: l2)) by (apply (Permutation_in _ Hp); now left).
      assert (Ib : In b (a :: l1)) by (apply (Permutation_in _ (Permutation_sym Hp)); now left).
      destruct Ia as [->|Ia]; [reflexivity|].
      destruct Ib as [->|Ib]; [reflexivity|].
      apply Hanti; auto. }
    f_equal. apply IH; try assumption. now apply Permutation_cons_inv in Hp.
Qed.

Lemma descending_sorted (l : list Z) : Sorted Z.ge l -> descending l = true.
Proof.
  induction l as [|x l IH]; intros H; [reflexivity|].
  apply Sorted_inv in H. destruct H as [H Hx]. simpl.
  destruct l as [|y l]; [reflexivity|].
  inversion Hx; subst. rewrite (IH H), andb_true_r. apply Z.leb_le. lia.
Qed.

Lemma strongly_sorted_ge (l : list Z) : Sorted Z.ge l -> StronglySorted Z.ge l.
Proof. apply Sorted_StronglySorted. intros x y z. lia. Qed.

Lemma strongly_sorted_le (l : list Z) : Sorted Z.le l -> StronglySorted Z.le l.
Proof. apply Sorted_StronglySorted. intros x y z. lia. Qed.

Lemma seq_strongly_sorted (n start : nat) :
  StronglySorted Z.le (map Z.of_nat (seq start n)).
Proof.
  revert start. induction n as [|n IH]; intros start; simpl; constructor.
  - apply IH.
  - apply Forall_forall. intros z Hz. apply in_map_iff in Hz.
    destruct Hz as (k & <- & Hk). apply in_seq in Hk. lia.
Qed.

(** ** [sort_batch_by_length] *)

Lemma gather_seq_positions (n : nat) (index : list nat) :
  Forall (fun i => (i < n)%nat) index -> gather 0%nat (seq 0 n) index = index.
Proof.
  intros H. unfold gather. rewrite <- (map_id index) at 2. apply map_ext_in.
  intros i Hi. rewrite Forall_forall in H. now rewrite seq_nth by auto.
Qed.

Section EncoderFacts.

Variable A : Type.
Variable zero : A.
Variable torch_sort : bool -> list Z -> list Z * list nat.
Variable rnn_sample : list (vec A) -> rnn_out A.

(** What [torch.sort] promises: the positions are a rearrangement of all
    positions, the values are the entries at those positions, and the
    values are in the requested order. *)
Hypothesis sort_indices :
  forall (d : bool) (l : list Z),
    Permutation (snd (torch_sort d l)) (seq 0 (List.length l)).
Hypothesis sort_values :
  forall (d : bool) (l : list Z),
    fst (torch_sort d l) = gather 0%Z l (snd (torch_sort d l)).
Hypothesis sort_order :
  forall (d : bool) (l : list Z),
    Sorted (if d then Z.ge else Z.le) (fst (torch_sort d l)).

Lemma sort_indices_length d l :
  List.length (snd (torch_sort d l)) = List.length l.
Proof. now rewrite (Permutation_length (sort_indices d l)), length_seq. Qed.

Lemma sort_values_permutation d l : Permutation (fst (torch_sort d l)) l.
Proof. rewrite sort_values. apply gather_permutation, sort_indices. Qed.

(** Sorting a rearranged list of lengths gives the same sorted lengths. *)
Lemma sorted_lengths_of_permutation (l l' : list Z) :
  Permutation l l' -> fst (torch_sort true l) = fst (torch_sort true l').
Proof.
  intros H. apply sorted_permutation_unique with (R := Z.ge).
  - intros x y. lia.
  - apply strongly_sorted_ge, (sort_order true).
  - apply strongly_sorted_ge, (sort_order true).
  - eapply perm_trans; [apply sort_values_permutation|].
    eapply perm_trans; [exact H | apply Permutation_sym, sort_values_permutation].
Qed.

(** The positions found by sorting the permutation invert it. *)
Lemma reverse_mapping_inverts (p : list nat) (n : nat) :
  Permutation p (seq 0 n) ->
  let r := snd (torch_sort false (map Z.of_nat p)) in
  Permutation r (seq 0 n) /\ gather 0%nat p r = seq 0 n.
Proof.
  intros Hp r.
  assert (Hn : List.length p = n) by (now rewrite (Permutation_length Hp), length_seq).
  assert (Hr : Permutation r (seq 0 n)).
  { unfold r. pose proof (sort_indices false (map Z.of_nat p)) as H.
    now rewrite length_map, Hn in H. }
  split; [exact Hr|].
  assert (Hin : in_range p r) by (apply permutation_in_range; now rewrite Hn).
  assert (E : map Z.of_nat (gather 0%nat p r) = map Z.of_nat (seq 0 n)).
  { rewrite <- (gather_map Z.of_nat 0%nat 0%Z) by exact Hin.
    fold r. unfold r at 1. rewrite <- sort_values.
    apply sorted_permutation_unique with (R := Z.le).
    - intros x y. lia.
    - apply strongly_sorted_le, (sort_order false).
    - apply seq_strongly_sorted.
    - eapply perm_trans; [apply sort_values_permutation | now apply Permutation_map]. }
  revert E. generalize (gather 0%nat p r) (seq 0 n). clear.
  induction l as [|x l IH]; intros [|y l'] E; simpl in E; try discriminate; [reflexivity|].
  inversion E. f_equal; [now apply Nat2Z.inj | now apply IH].
Qed.

(** The documented contract of [sort_batch_by_length]: the batch comes back
    reordered by a rearrangement of its positions, with the lengths
    reordered alike and in decreasing order, and selecting by the
    restoration indices undoes the reordering. *)
Lemma sort_batch_by_length_spec {X} (d : X) (tensor : list X) (lens : list Z) :
  List.length tensor = List.length lens ->
  exists p r,
    sort_batch_by_length torch_sort tensor lens
    = Ok (gather d tensor p, fst (torch_sort true lens), r, p) /\
    p = snd (torch_sort true lens) /\
    Permutation p (seq 0 (List.length lens)) /\
    Permutation r (seq 0 (List.length lens)) /\
    gather 0%nat p r = seq 0 (List.length lens).
Proof.
  intros Hlen.
  set (p := snd (torch_sort true lens)).
  set (r := snd (torch_sort false (map Z.of_nat p))).
  assert (Hp : Permutation p (seq 0 (List.length lens))) by apply sort_indices.
  destruct (@reverse_mapping_inverts p _ Hp) as [Hr Hinv]. fold r in Hr, Hinv.
  exists p, r. split; [|repeat split; assumption].
  unfold sort_batch_by_length.
  rewrite (surjective_pairing (torch_sort true lens)). fold p.
  rewrite (index_select_gather d) by (apply permutation_in_range; now rewrite Hlen).
  cbn [rbind].
  rewrite (surjective_pairing (torch_sort false (map Z.of_nat p))). fold r.
  assert (Hr' : Forall (fun i => (i < List.length lens)%nat) r).
  { apply Forall_forall. intros i Hi. apply (Permutation_in _ Hr), in_seq in Hi. lia. }
  rewrite (index_select_gather 0%nat) by (unfold in_range; now rewrite length_seq).
  cbn [rbind]. now rewrite gather_seq_positions.
Qed.

Lemma permutations_in_range (p r : list nat) (n : nat) :
  Permutation p (seq 0 n) -> Permutation r (seq 0 n) -> in_range p r.
Proof.
  intros Hp Hr. apply permutation_in_range.
  now rewrite (Permutation_length Hp), length_seq.
Qed.

(** Selecting by positions that invert the reordering undoes it, for any
    list of per-sample values. *)
Lemma restoration_restores {X} (d : X) (x : list X) (p r : list nat) :
  Permutation p (seq 0 (List.length x)) ->
  in_range p r ->
  gather 0%nat p r = seq 0 (List.length x) ->
  index_select (gather d x p) r = Ok x.
Proof.
  intros Hp Hr Hinv.
  rewrite (index_select_gather d).
  - rewrite gather_gather, Hinv, gather_seq; [reflexivity | exact Hr].
  - unfold in_range in *. now rewrite length_gather.
Qed.

(** ** [VideoEncoder.forward] without the sorting *)

Lemma forallb_permutation {X} (f : X -> bool) (l l' : list X) :
  Permutation l l' -> forallb f l = forallb f l'.
Proof.
  induction 1; simpl; try congruence.
  now rewrite !andb_assoc, (andb_comm (f y)).
Qed.

Lemma pack_sorted_batch (frames : tensor3 A) (lens : list Z) (p : list nat) :
  List.length frames = List.length lens ->
  Permutation p (seq 0 (List.length lens)) ->
  descending (gather 0%Z lens p) = true ->
  (valid_batch frames lens = true ->
   pack_padded_sequence (gather [] frames p) (gather 0%Z lens p)
   = Ok (mkPacked (gather [] (prefixes frames lens) p)
                  (map Z.to_nat (gather 0%Z lens p)))) /\
  (valid_batch frames lens = false ->
   exists e, pack_padded_sequence (gather [] frames p) (gather 0%Z lens p) = Raise e).
Proof.
  intros Hlen Hp Hdesc.
  assert (Hpl : List.length p = List.length lens)
    by (now rewrite (Permutation_length Hp), length_seq).
  assert (Hcomb : combine (gather [] frames p) (gather 0%Z lens p)
                  = gather ([], 0%Z) (combine frames lens) p)
    by (symmetry; now apply gather_combine).
  assert (Hpc : Permutation (gather ([], 0%Z) (combine frames lens) p) (combine frames lens)).
  { apply gather_permutation. rewrite length_combine, Hlen, Nat.min_id. exact Hp. }
  assert (Hpos : forallb (fun l => 0 <? l)%Z (gather 0%Z lens p)
                 = forallb (fun l => 0 <? l)%Z lens)
    by (apply forallb_permutation, gather_permutation, Hp).
  unfold pack_padded_sequence, valid_batch.
  rewrite !length_gather, Hpl, Nat.eqb_refl, Hdesc, Hpos, Hcomb.
  rewrite (forallb_permutation
             (fun q : list (vec A) * Z => (snd q <=? Z.of_nat (List.length (fst q)))%Z) Hpc).
  cbn [negb].
  destruct (Nat.eqb (List.length lens) 0); cbn [negb andb];
    [split; [discriminate | eexists; reflexivity]|].
  destruct (forallb (fun l => 0 <? l)%Z lens); cbn [negb andb];
    [|split; [discriminate | eexists; reflexivity]].
  match goal with
  | |- context [forallb ?f (combine frames lens)] =>
      destruct (forallb f (combine frames lens))
  end; cbn [negb];
    [|split; [discriminate | eexists; reflexivity]].
  split; [|discriminate]. intros _. f_equal. f_equal.
  unfold prefixes. symmetry. apply gather_map.
  apply permutation_in_range. now rewrite length_combine, Hlen, Nat.min_id.
Qed.

(** [_cat] on the state rows of a bidirectional network: the rows of a
    layer's two directions are joined sample by sample. *)
Lemma zip_exact_app_rows (pick : rnn_out A -> list (vec A)) (outs : list (rnn_out A))
    (j k : nat) :
  zip_exact (fun u v : vec A => Ok (u ++ v)) (state_row pick outs j) (state_row pick outs k)
  = Ok (map (fun o => nth j (pick o) [] ++ nth k (pick o) []) outs).
Proof.
  unfold state_row. induction outs as [|o outs IH]; simpl.
  - reflexivity.
  - now rewrite IH.
Qed.

Lemma cat_state_rows (pick : rnn_out A -> list (vec A)) (outs : list (rnn_out A))
    (layers : nat) :
  forall start,
  _cat (map (state_row pick outs) (seq start (layers * 2)))
  = Ok (map (fun l => map (fun o => nth (start + 2 * l) (pick o) []
                                    ++ nth (start + 2 * l + 1) (pick o) []) outs)
            (seq 0 layers)).
Proof.
  unfold _cat, cat_dim2.
  induction layers as [|layers IH]; intros start.
  - reflexivity.
  - change (S layers * 2)%nat with (S (S (layers * 2))).
    cbn [seq map evens odds].
    change (match map (state_row pick outs) (seq (S (S start)) (layers * 2)) with
            | [] => []
            | _ :: l'' => evens l''
            end) with (odds (map (state_row pick outs) (seq (S (S start)) (layers * 2)))).
    cbn [zip_exact]. rewrite zip_exact_app_rows. cbn [rbind].
    rewrite (IH (S (S start))). cbn [rbind]. f_equal.
    rewrite <- seq_shift, map_map. f_equal.
    + now rewrite Nat.mul_0_r, Nat.add_0_r, Nat.add_1_r.
    + apply map_ext. intros l. apply map_ext. intros o.
      replace (S (S start) + 2 * l)%nat with (start + 2 * S l)%nat by lia. reflexivity.
Qed.

Lemma index_select_1_rows {X Y} (d : X) (F : nat -> X -> Y) (x : list X)
    (p r : list nat) (ks : list nat) :
  Permutation p (seq 0 (List.length x)) ->
  in_range p r ->
  gather 0%nat p r = seq 0 (List.length x) ->
  index_select_1 (map (fun k => map (F k) (gather d x p)) ks) r
  = Ok (map (fun k => map (F k) x) ks).
Proof.
  intros Hp Hr Hinv. induction ks as [|k ks IH]; simpl.
  - reflexivity.
  - assert (E : map (F k) (gather d x p) = gather (F k d) (map (F k) x) p).
    { symmetry. apply gather_map. now apply permutation_in_range. }
    rewrite E, restoration_restores; try (now rewrite length_map); try assumption.
    cbn [rbind]. now rewrite IH.
Qed.

(** Sorting, packing and restoring leave no trace: on a batch that can be
    packed, [forward] returns what the network computes sample by sample in
    batch order; on any other batch it raises. *)
Lemma forward_sorting_transparent (self : VideoEncoder) (frames : tensor3 A)
    (lens : list Z) :
  List.length frames = List.length lens ->
  (valid_batch frames lens = true ->
   VideoEncoder_forward zero torch_sort rnn_sample self frames lens
   = Ok (forward_in_batch_order zero torch_sort rnn_sample self frames lens)) /\
  (valid_batch frames lens = false ->
   exists e, VideoEncoder_forward zero torch_sort rnn_sample self frames lens = Raise e).
Proof.
  intros Hlen.
  destruct (sort_batch_by_length_spec [] frames lens Hlen)
    as (p & r & Hs & Hpeq & Hp & Hr & Hinv).
  assert (Hvals : fst (torch_sort true lens) = gather 0%Z lens p)
    by (rewrite Hpeq; apply sort_values).
  assert (Hdesc : descending (gather 0%Z lens p) = true)
    by (rewrite <- Hvals; apply descending_sorted, (sort_order true)).
  destruct (pack_sorted_batch frames lens Hlen Hp Hdesc) as [Hok Hbad].
  unfold VideoEncoder_forward. rewrite Hs. cbn [rbind]. rewrite Hvals.
  split; intros Hv.
  2:{ destruct (Hbad Hv) as [e He]. rewrite He. eexists. reflexivity. }
  rewrite (Hok Hv). cbn [rbind]. unfold run_rnn. cbn [ps_data ps_lengths].
  unfold forward_in_batch_order. rewrite Hvals.
  set (outs := map rnn_sample (prefixes frames lens)).
  assert (Hn : List.length outs = List.length lens).
  { unfold outs, prefixes. now rewrite !length_map, length_combine, Hlen, Nat.min_id. }
  assert (Hrange : in_range (prefixes frames lens) p).
  { apply permutation_in_range. unfold prefixes.
    now rewrite length_map, length_combine, Hlen, Nat.min_id. }
  assert (Houts : map rnn_sample (gather [] (prefixes frames lens) p)
                  = gather (rnn_sample []) outs p)
    by (symmetry; now apply gather_map).
  rewrite Houts.
  assert (Hpr : in_range p r) by exact (@permutations_in_range p r _ Hp Hr).
  rewrite <- Hn in Hp, Hinv.
  assert (Hrange' : in_range outs p) by now apply permutation_in_range.
  set (max_len := hd 0%nat (map Z.to_nat (gather 0%Z lens p))).
  assert (Hhid : index_select
                   (pad_packed_sequence zero (num_dir self * hidden_size self)
                      (mkPacked (map (@out_seq A) (gather (rnn_sample []) outs p))
                                (map Z.to_nat (gather 0%Z lens p)))) r
                 = Ok (batch_hidden zero self max_len outs)).
  { unfold pad_packed_sequence. cbn [ps_data ps_lengths]. fold max_len.
    rewrite map_map. unfold batch_hidden.
    rewrite <- (gather_map
                  (fun o => pad_to zero (num_dir self * hidden_size self) max_len (out_seq o))
                  (rnn_sample []) (pad_to zero (num_dir self * hidden_size self) max_len
                                     (out_seq (rnn_sample [])))) by exact Hrange'.
    apply restoration_restores; now rewrite ?length_map. }
  assert (Hrows : forall pick,
            index_select_1
              (map (state_row pick (gather (rnn_sample []) outs p)) (seq 0 (num_layers self))) r
            = Ok (map (state_row pick outs) (seq 0 (num_layers self)))).
  { intros pick. unfold state_row.
    now apply (index_select_1_rows (rnn_sample []) (fun k o => nth k (pick o) [])). }
  assert (Hmerged : forall pick,
            index_select_1
              (map (fun l => map (fun o => nth (0 + 2 * l) (pick o) []
                                           ++ nth (0 + 2 * l + 1) (pick o) [])
                                 (gather (rnn_sample []) outs p))
                   (seq 0 (num_layers self))) r
            = Ok (map (merged_row pick outs) (seq 0 (num_layers self)))).
  { intros pick. unfold merged_row.
    now apply (index_select_1_rows (rnn_sample [])
                 (fun l o => nth (2 * l) (pick o) [] ++ nth (2 * l + 1) (pick o) [])). }
  unfold batch_state, final_rows, num_dir in *.
  destruct (bidirectional self); destruct (enc_rnn_type self);
    cbn [_cat_directions rbind rmap];
    rewrite ?cat_state_rows; cbn [rbind rmap];
    rewrite ?Nat.mul_1_r in *; rewrite Hhid; cbn [rbind rmap];
    rewrite ?Hrows, ?Hmerged; reflexivity.
Qed.

(** ** Order of the batch *)

Lemma valid_batch_gather (frames : tensor3 A) (lens : list Z) (sigma : list nat) :
  List.length frames = List.length lens ->
  Permutation sigma (seq 0 (List.length lens)) ->
  valid_batch (gather [] frames sigma) (gather 0%Z lens sigma) = valid_batch frames lens.
Proof.
  intros Hlen Hs.
  assert (Hsl : List.length sigma = List.length lens)
    by (now rewrite (Permutation_length Hs), length_seq).
  unfold valid_batch. rewrite length_gather, Hsl.
  rewrite <- (gather_combine [] 0%Z) by exact Hlen.
  f_equal; [f_equal|].
  - apply forallb_permutation, gather_permutation, Hs.
  - apply forallb_permutation, gather_permutation.
    now rewrite length_combine, Hlen, Nat.min_id.
Qed.

Lemma final_rows_restored (self : VideoEncoder) (pick : rnn_out A -> list (vec A))
    (d : rnn_out A) (outs : list (rnn_out A)) (sigma tau : list nat) :
  Permutation sigma (seq 0 (List.length outs)) ->
  in_range sigma tau ->
  gather 0%nat sigma tau = seq 0 (List.length outs) ->
  index_select_1 (final_rows self pick (gather d outs sigma)) tau
  = Ok (final_rows self pick outs).
Proof.
  intros Hs Ht Hinv. unfold final_rows, merged_row, state_row.
  destruct (bidirectional self).
  - now apply (index_select_1_rows d
                 (fun l o => nth (2 * l) (pick o) [] ++ nth (2 * l + 1) (pick o) [])).
  - now apply (index_select_1_rows d (fun k o => nth k (pick o) [])).
Qed.

(** C2.  Encoding a batch whose samples (frames and lengths together) were
    rearranged by [sigma], and selecting the outputs by the inverse [tau]
    of [sigma], gives the hidden states and the final state of the batch as
    it was; a batch that cannot be encoded cannot be encoded in any
    order. *)
Theorem encoder_forward_keeps_batch_order (self : VideoEncoder)
    (frames frames' : tensor3 A) (lens lens' : list Z) (sigma tau : list nat) :
  List.length frames = List.length lens ->
  Permutation sigma (seq 0 (List.length lens)) ->
  index_select sigma tau = Ok (seq 0 (List.length lens)) ->
  index_select frames sigma = Ok frames' ->
  index_select lens sigma = Ok lens' ->
  match VideoEncoder_forward zero torch_sort rnn_sample self frames lens with
  | Ok (hidden_states, state) =>
      exists hidden_states' state',
        VideoEncoder_forward zero torch_sort rnn_sample self frames' lens'
        = Ok (hidden_states', state') /\
        index_select hidden_states' tau = Ok hidden_states /\
        state_index_select_1 state' tau = Ok state
  | Raise _ =>
      exists e,
        VideoEncoder_forward zero torch_sort rnn_sample self frames' lens' = Raise e
  end.
Proof.
  intros Hlen Hs Htau Hf Hl.
  destruct (index_select_inv [] _ _ Hf) as [_ ->].
  destruct (index_select_inv 0%Z _ _ Hl) as [_ ->].
  destruct (index_select_inv 0%nat _ _ Htau) as [Hrange Hinv]. symmetry in Hinv.
  assert (Hsl : List.length sigma = List.length lens)
    by (now rewrite (Permutation_length Hs), length_seq).
  assert (Hlen' : List.length (gather [] frames sigma) = List.length (gather 0%Z lens sigma))
    by now rewrite !length_gather.
  destruct (forward_sorting_transparent self frames lens Hlen) as [Hok Hbad].
  destruct (forward_sorting_transparent self _ _ Hlen') as [Hok' Hbad'].
  rewrite (@valid_batch_gather frames lens sigma Hlen Hs) in Hok', Hbad'.
  destruct (valid_batch frames lens).
  2:{ destruct (Hbad eq_refl) as [e He]. rewrite He. now apply Hbad'. }
  rewrite (Hok eq_refl), (Hok' eq_refl). unfold forward_in_batch_order.
  eexists _, _. split; [reflexivity|].
  set (outs := map rnn_sample (prefixes frames lens)).
  assert (Hn : List.length outs = List.length lens).
  { unfold outs, prefixes. now rewrite !length_map, length_combine, Hlen, Nat.min_id. }
  assert (Houts : map rnn_sample (prefixes (gather [] frames sigma) (gather 0%Z lens sigma))
                  = gather (rnn_sample []) outs sigma).
  { unfold outs, prefixes. rewrite <- (gather_combine [] 0%Z) by exact Hlen.
    rewrite (gather_map rnn_sample [] (rnn_sample []))
      by (apply permutation_in_range;
          now rewrite length_map, length_combine, Hlen, Nat.min_id).
    rewrite (gather_map (fun p : list (vec A) * Z => firstn (Z.to_nat (snd p)) (fst p))
               ([], 0%Z) [])
      by (apply permutation_in_range; now rewrite length_combine, Hlen, Nat.min_id).
    reflexivity. }
  rewrite Houts.
  rewrite (sorted_lengths_of_permutation (@gather_permutation Z 0%Z lens sigma Hs)).
  rewrite <- Hn in Hs, Hinv.
  split.
  - unfold batch_hidden.
    set (g := fun o : rnn_out A => pad_to zero _ _ (out_seq o)).
    rewrite <- (gather_map g (rnn_sample []) (g (rnn_sample [])))
      by now apply permutation_in_range.
    apply restoration_restores; now rewrite ?length_map.
  - unfold batch_state, state_index_select_1.
    destruct (enc_rnn_type self); rewrite ?final_rows_restored by assumption; reflexivity.
Qed.

(** ** Shapes *)

Lemma max_length_bounds (lens : list Z) :
  (0 <= max_length lens)%Z /\ Forall (fun l => (l <= max_length lens)%Z) lens.
Proof.
  induction lens as [|x lens [IH0 IH]]; simpl.
  - split; [lia | constructor].
  - split; [lia|]. constructor; [lia|].
    eapply Forall_impl; [|exact IH]. simpl. intros. lia.
Qed.

Lemma max_length_in (lens : list Z) :
  lens <> [] -> Forall (fun l => (0 < l)%Z) lens -> In (max_length lens) lens.
Proof.
  induction lens as [|x lens IH]; intros Hne Hpos; [congruence|].
  inversion Hpos as [|? ? Hx Hrest]; subst. simpl.
  destruct lens as [|y lens].
  - left. simpl. lia.
  - destruct (Z.max_spec x (max_length (y :: lens))) as [[_ E]|[_ E]]; rewrite E.
    + right. apply IH; [discriminate | exact Hrest].
    + now left.
Qed.

(** The batch is padded to the length that comes first after sorting, and
    that is the longest one. *)
Lemma sorted_head_is_max (lens : list Z) :
  Forall (fun l => (0 < l)%Z) lens ->
  hd 0%Z (fst (torch_sort true lens)) = max_length lens.
Proof.
  intros Hpos.
  pose proof (sort_values_permutation true lens) as Hperm.
  pose proof (strongly_sorted_ge (sort_order true lens)) as Hsorted.
  destruct (max_length_bounds lens) as [_ Hmax].
  destruct (fst (torch_sort true lens)) as [|x s].
  - apply Permutation_nil in Hperm. now subst.
  - simpl. apply StronglySorted_inv in Hsorted. destruct Hsorted as [_ Hx].
    rewrite Forall_forall in Hx, Hmax.
    assert (Hne : lens <> []).
    { intros ->. apply Permutation_sym, Permutation_nil in Hperm. discriminate. }
    assert (Hin : In x lens) by (apply (Permutation_in _ Hperm); now left).
    pose proof (max_length_in Hne Hpos) as Hm.
    apply (Permutation_in _ (Permutation_sym Hperm)) in Hm.
    specialize (Hmax x Hin). destruct Hm as [->|Hm]; [reflexivity|].
    specialize (Hx _ Hm). lia.
Qed.

Lemma valid_batch_inv (frames : tensor3 A) (lens : list Z) :
  valid_batch frames lens = true ->
  lens <> [] /\
  Forall (fun l => (0 < l)%Z) lens /\
  Forall (fun p => (snd p <= Z.of_nat (List.length (fst p)))%Z) (combine frames lens).
Proof.
  unfold valid_batch. intros H.
  apply andb_prop in H. destruct H as [H H3].
  apply andb_prop in H. destruct H as [H1 H2].
  repeat split.
  - intros ->. discriminate.
  - apply Forall_forall. intros l Hl. rewrite forallb_forall in H2.
    apply Z.ltb_lt. now apply H2.
  - apply Forall_forall. intros q Hq. rewrite forallb_forall in H3.
    apply Z.leb_le. now apply H3.
Qed.

Lemma final_rows_shape (self : VideoEncoder) (pick : rnn_out A -> list (vec A))
    (outs : list (rnn_out A)) :
  bidirectional self = true ->
  Forall (fun o => List.length (pick o) = (num_layers self * 2)%nat /\
                   Forall (fun v : vec A => List.length v = hidden_size self) (pick o)) outs ->
  has_shape3 (final_rows self pick outs) (num_layers self) (List.length outs)
             (2 * hidden_size self).
Proof.
  intros Hb Hpick. unfold final_rows, has_shape3. rewrite Hb.
  split; [now rewrite length_map, length_seq|].
  apply Forall_forall. intros row Hrow. apply in_map_iff in Hrow.
  destruct Hrow as (l & <- & Hl). apply in_seq in Hl.
  unfold merged_row. split; [apply length_map|].
  apply Forall_forall. intros v Hv. apply in_map_iff in Hv.
  destruct Hv as (o & <- & Ho).
  rewrite Forall_forall in Hpick. destruct (Hpick o Ho) as [Hlen Hvec].
  rewrite Forall_forall in Hvec.
  rewrite length_app, !Hvec by (apply nth_In; lia). lia.
Qed.

(** C6.  A bidirectional encoder on a batch that can be packed, with a
    network whose outputs have the documented sizes: the hidden states have
    shape (batch, longest length, 2 * hidden_size), and the final state is
    one tensor, or for an LSTM a pair of tensors, of shape
    (num_layers, batch, 2 * hidden_size), the two directions of every layer
    joined along the features.  In particular two samples of lengths 5 and
    3 with hidden_size 8 give hidden states of shape (2, 5, 16) and final
    state tensors of shape (num_layers, 2, 16). *)
Theorem encoder_bidirectional_shapes (self : VideoEncoder) (frames : tensor3 A)
    (lens : list Z) :
  bidirectional self = true ->
  rnn_output_shapes rnn_sample self ->
  List.length frames = List.length lens ->
  valid_batch frames lens = true ->
  exists hidden_states state,
    VideoEncoder_forward zero torch_sort rnn_sample self frames lens
    = Ok (hidden_states, state) /\
    has_shape3 hidden_states (List.length lens) (Z.to_nat (max_length lens))
               (2 * hidden_size self) /\
    state_has_shape state (num_layers self) (List.length lens) (2 * hidden_size self) /\
    state = batch_state self (map rnn_sample (prefixes frames lens)) /\
    (is_tuple state = true <-> enc_rnn_type self = LSTM) /\
    (lens = [5%Z; 3%Z] -> hidden_size self = 8%nat ->
     has_shape3 hidden_states 2 5 16 /\ state_has_shape state (num_layers self) 2 16).
Proof.
  intros Hb Hrnn Hlen Hv.
  destruct (forward_sorting_transparent self frames lens Hlen) as [Hok _].
  destruct (valid_batch_inv _ _ Hv) as (Hne & Hpos & Hfit).
  eexists _, _. split; [rewrite (Hok Hv); reflexivity|].
  set (outs := map rnn_sample (prefixes frames lens)).
  assert (Hn : List.length outs = List.length lens).
  { unfold outs, prefixes. now rewrite !length_map, length_combine, Hlen, Nat.min_id. }
  assert (Hmaxlen : hd 0%nat (map Z.to_nat (fst (torch_sort true lens)))
                    = Z.to_nat (max_length lens)).
  { rewrite <- (sorted_head_is_max Hpos).
    now destruct (fst (torch_sort true lens)). }
  assert (Hhid : has_shape3 (batch_hidden zero self (Z.to_nat (max_length lens)) outs)
                   (List.length lens) (Z.to_nat (max_length lens))
                   (2 * hidden_size self)).
  { unfold has_shape3, batch_hidden. split; [now rewrite length_map|].
    apply Forall_forall. intros m Hm. apply in_map_iff in Hm.
    destruct Hm as (o & <- & Ho). unfold outs in Ho. apply in_map_iff in Ho.
    destruct Ho as (s & <- & Hs). destruct (Hrnn s) as (Hlen_o & Hw & _).
    unfold num_dir in Hw. rewrite Hb in Hw.
    unfold pad_to. rewrite length_app, repeat_length, Hlen_o. split.
    - unfold prefixes in Hs. apply in_map_iff in Hs. destruct Hs as (q & <- & Hq).
      rewrite Forall_forall in Hfit. specialize (Hfit q Hq).
      destruct (max_length_bounds lens) as [_ Hmax]. rewrite Forall_forall in Hmax.
      assert (Hq2 : In (snd q) lens).
      { destruct q as [f l]. apply in_combine_r in Hq. exact Hq. }
      specialize (Hmax _ Hq2). rewrite length_firstn. lia.
    - apply Forall_app. split; [exact Hw|].
      apply Forall_forall. intros v Hv'. apply repeat_spec in Hv'. subst v.
      unfold num_dir. rewrite Hb. apply repeat_length. }
  assert (Hpick : forall pick, (pick = @h_n A \/ pick = @c_n A) ->
            has_shape3 (final_rows self pick outs) (num_layers self) (List.length lens)
                       (2 * hidden_size self)).
  { intros pick Hp. rewrite <- Hn. apply final_rows_shape; [exact Hb|].
    apply Forall_forall. intros o Ho. unfold outs in Ho. apply in_map_iff in Ho.
    destruct Ho as (s & <- & _). destruct (Hrnn s) as (_ & _ & H1 & H2 & H3 & H4).
    unfold num_dir in *. rewrite Hb in *. destruct Hp as [->| ->]; now split. }
  assert (Hstate : state_has_shape (batch_state self outs) (num_layers self)
                     (List.length lens) (2 * hidden_size self)).
  { unfold batch_state, state_has_shape.
    destruct (enc_rnn_type self); try split; apply Hpick; auto. }
  unfold forward_in_batch_order. fold outs. rewrite Hmaxlen.
  split; [exact Hhid|]. split; [exact Hstate|]. split; [reflexivity|]. split.
  - unfold batch_state, is_tuple. destruct (enc_rnn_type self); split; congruence.
  - intros Hlens H8. rewrite Hlens, H8 in *. exact (conj Hhid Hstate).
Qed.

End EncoderFacts.

(** ** A sort and a network to run the encoder on

    A stable insertion sort stands for [torch.sort], and a network that
    counts the frames it has seen stands for the recurrent network. *)

Lemma insert_keyed_perm (d : bool) (x : Z * nat) (l : list (Z * nat)) :
  Permutation (insert_keyed d x l) (x :: l).
Proof.
  induction l as [|y l IH]; simpl.
  - apply Permutation_refl.
  - destruct (before d (fst x) (fst y)).
    + apply Permutation_refl.
    + eapply perm_trans; [apply perm_skip, IH | apply perm_swap].
Qed.

Lemma insertion_sort_keyed_perm (d : bool) (l : list (Z * nat)) :
  Permutation (fold_right (insert_keyed d) [] l) l.
Proof.
  induction l as [|x l IH]; simpl.
  - constructor.
  - eapply perm_trans; [apply insert_keyed_perm | now apply perm_skip].
Qed.

Lemma insert_keyed_sorted (d : bool) (x : Z * nat) (l : list (Z * nat)) :
  Sorted (if d then Z.ge else Z.le) (map fst l) ->
  Sorted (if d then Z.ge else Z.le) (map fst (insert_keyed d x l)).
Proof.
  induction l as [|y l IH]; intros H; simpl.
  - repeat constructor.
  - destruct (before d (fst x) (fst y)) eqn:E; simpl.
    + constructor; [exact H|]. constructor.
      unfold before in E. destruct d; apply Z.leb_le in E; lia.
    + apply Sorted_inv in H. destruct H as [H Hy].
      constructor; [now apply IH|].
      assert (Hxy : (if d then Z.ge else Z.le) (fst y) (fst x)).
      { unfold before in E. destruct d; apply Z.leb_gt in E; lia. }
      destruct l as [|z l]; simpl.
      * now constructor.
      * destruct (before d (fst x) (fst z)); simpl; constructor; [exact Hxy|].
        now inversion Hy.
Qed.

Lemma map_snd_combine_eq {X Y} (a : list X) (b : list Y) :
  List.length a = List.length b -> map snd (combine a b) = b.
Proof.
  revert b. induction a as [|x a IH]; intros [|y b] H; simpl in *; try discriminate.
  - reflexivity.
  - f_equal. apply IH. lia.
Qed.

Lemma insertion_sort_indices (d : bool) (l : list Z) :
  Permutation (snd (insertion_sort d l)) (seq 0 (List.length l)).
Proof.
  unfold insertion_sort. simpl.
  eapply perm_trans; [apply Permutation_map, insertion_sort_keyed_perm|].
  rewrite map_snd_combine_eq by (now rewrite length_seq).
  apply Permutation_refl.
Qed.

Lemma combine_seq_entries (l : list Z) (start : nat) (q : Z * nat) :
  In q (combine l (seq start (List.length l))) ->
  (start <= snd q)%nat /\ fst q = nth (snd q - start) l 0%Z.
Proof.
  revert start. induction l as [|x l IH]; intros start H; simpl in H; [destruct H|].
  destruct H as [<-|H]; simpl.
  - split; [lia|]. now rewrite Nat.sub_diag.
  - destruct (IH _ H) as [Hle E]. split; [lia|].
    rewrite E. replace (snd q - start)%nat with (S (snd q - S start)) by lia. reflexivity.
Qed.

Lemma insertion_sort_values (d : bool) (l : list Z) :
  fst (insertion_sort d l) = gather 0%Z l (snd (insertion_sort d l)).
Proof.
  unfold insertion_sort, gather. simpl. rewrite map_map. apply map_ext_in.
  intros q Hq.
  apply (Permutation_in _ (insertion_sort_keyed_perm d _)) in Hq.
  destruct (combine_seq_entries _ _ _ Hq) as [_ E]. now rewrite Nat.sub_0_r in E.
Qed.

Lemma insertion_sort_order (d : bool) (l : list Z) :
  Sorted (if d then Z.ge else Z.le) (fst (insertion_sort d l)).
Proof.
  unfold insertion_sort. simpl. generalize (combine l (seq 0 (List.length l))).
  induction l0 as [|x l0 IH]; simpl.
  - constructor.
  - now apply insert_keyed_sorted.
Qed.

Lemma counting_rnn_shapes (self : VideoEncoder) :
  rnn_output_shapes (counting_rnn (num_layers self) (num_dir self) (hidden_size self)) self.
Proof.
  intros s. unfold counting_rnn. simpl.
  rewrite length_map, length_seq, !repeat_length.
  repeat split; try reflexivity.
  - apply Forall_forall. intros v Hv. apply in_map_iff in Hv.
    destruct Hv as (t & <- & _). apply repeat_length.
  - apply Forall_forall. intros v Hv. apply repeat_spec in Hv. subst. apply repeat_length.
  - apply Forall_forall. intros v Hv. apply repeat_spec in Hv. subst. apply repeat_length.
Qed.

Lemma encoder_forward_keeps_batch_order_witness :
  is_ok (VideoEncoder_forward 0%Z insertion_sort (counting_rnn 1 2 8) lstm_encoder
           two_samples [5; 3]%Z) = true /\
  match VideoEncoder_forward 0%Z insertion_sort (counting_rnn 1 2 8) lstm_encoder
          two_samples [5; 3]%Z with
  | Ok (hidden_states, state) =>
      exists hidden_states' state',
        VideoEncoder_forward 0%Z insertion_sort (counting_rnn 1 2 8) lstm_encoder
          two_samples_swapped [3; 5]%Z
        = Ok (hidden_states', state') /\
        index_select hidden_states' [1; 0]%nat = Ok hidden_states /\
        state_index_select_1 state' [1; 0]%nat = Ok state
  | Raise _ =>
      exists e,
        VideoEncoder_forward 0%Z insertion_sort (counting_rnn 1 2 8) lstm_encoder
          two_samples_swapped [3; 5]%Z = Raise e
  end.
Proof.
  split; [vm_compute; reflexivity|].
  apply (@encoder_forward_keeps_batch_order Z 0%Z insertion_sort (counting_rnn 1 2 8)
           insertion_sort_indices insertion_sort_values insertion_sort_order
           lstm_encoder two_samples two_samples_swapped [5; 3]%Z [3; 5]%Z
           [1; 0]%nat [1; 0]%nat).
  - reflexivity.
  - apply perm_swap.
  - reflexivity.
  - reflexivity.
  - reflexivity.
Defined.

Lemma encoder_bidirectional_shapes_witness :
  exists hidden_states state,
    VideoEncoder_forward 0%Z insertion_sort (counting_rnn 1 2 8) lstm_encoder
      two_samples [5; 3]%Z
    = Ok (hidden_states, state) /\
    has_shape3 hidden_states 2 5 16 /\
    state_has_shape state 1 2 16 /\
    is_tuple state = true.
Proof.
  destruct (@encoder_bidirectional_shapes Z 0%Z insertion_sort (counting_rnn 1 2 8)
              insertion_sort_indices insertion_sort_values insertion_sort_order
              lstm_encoder two_samples [5; 3]%Z eq_refl
              (counting_rnn_shapes lstm_encoder) eq_refl eq_refl)
    as (hs & st & Hrun & _ & _ & _ & Htuple & Hscenario).
  exists hs, st. split; [exact Hrun|].
  destruct (Hscenario eq_refl eq_refl) as [H1 H2].
  split; [exact H1|]. split; [exact H2|]. now apply Htuple.
Defined.

(** * Properties of the decoder *)

(** ** Elementwise operations on tensors of matching sizes *)

Section Broadcasting.

Context {A : Type} {SA : Scalar A}.

Lemma mapM_pure {X Y} (g : X -> Y) (l : list X) :
  mapM (fun x => Ok (g x)) l = Ok (map g l).
Proof.
  induction l as [|x l IH]; simpl; [reflexivity|]. now rewrite IH.
Qed.

Lemma zip_exact_pure {X Y W} (f : X -> Y -> W) (a : list X) (b : list Y) :
  List.length a = List.length b ->
  zip_exact (fun x y => Ok (f x y)) a b = Ok (map2 f a b).
Proof.
  revert b. induction a as [|x a IH]; intros [|y b] H; simpl in *; try discriminate.
  - reflexivity.
  - rewrite IH by lia. reflexivity.
Qed.

Lemma bzip_same_length {X Y W} (f : X -> Y -> result W) (a : list X) (b : list Y) :
  List.length a = List.length b -> bzip f a b = zip_exact f a b.
Proof. intros H. unfold bzip. now rewrite H, Nat.eqb_refl. Qed.

Lemma bzip_pure {X Y W} (f : X -> Y -> W) (a : list X) (b : list Y) :
  List.length a = List.length b ->
  bzip (fun x y => Ok (f x y)) a b = Ok (map2 f a b).
Proof. intros H. rewrite bzip_same_length by exact H. now apply zip_exact_pure. Qed.

(** A row against a single value: the value is repeated along the row. *)
Lemma bzip_single {X Y W} (f : X -> Y -> W) (a : list X) (y : Y) :
  bzip (fun x y => Ok (f x y)) a [y] = Ok (map (fun x => f x y) a).
Proof.
  unfold bzip. destruct a as [|x [|x' a]]; try reflexivity.
  cbn [List.length Nat.eqb]. apply (mapM_pure (fun x => f x y)).
Qed.

Lemma zip_exact_rows {X Y Z W} (F : X -> Y -> result W) (h : Z -> X) (g : Z -> Y)
    (G : Z -> W) (l : list Z) :
  (forall z, In z l -> F (h z) (g z) = Ok (G z)) ->
  zip_exact F (map h l) (map g l) = Ok (map G l).
Proof.
  induction l as [|z l IH]; intros H; simpl; [reflexivity|].
  rewrite (H z) by now left. cbn [rbind].
  rewrite IH by (intros; apply H; now right). reflexivity.
Qed.

Lemma bzip_rows {X Y Z W} (F : X -> Y -> result W) (h : Z -> X) (g : Z -> Y)
    (G : Z -> W) (l : list Z) :
  (forall z, In z l -> F (h z) (g z) = Ok (G z)) ->
  bzip F (map h l) (map g l) = Ok (map G l).
Proof.
  intros H. rewrite bzip_same_length by (now rewrite !length_map).
  now apply zip_exact_rows.
Qed.

Lemma map_fst_combine_eq {X Y} (a : list X) (b : list Y) :
  List.length a = List.length b -> map fst (combine a b) = a.
Proof.
  revert b. induction a as [|x a IH]; intros [|y b] H; simpl in *; try discriminate.
  - reflexivity.
  - f_equal. apply IH. lia.
Qed.

End Broadcasting.

(** ** The attention weights row by row *)

Section AttentionRows.

Context {A : Type} {SA : Scalar A}.

Lemma length_mask_row (T : nat) (len : Z) : List.length (mask_row T len) = T.
Proof. unfold mask_row. now rewrite length_map, length_seq. Qed.

Lemma length_map2 {X Y W} (f : X -> Y -> W) (a : list X) (b : list Y) :
  List.length (map2 f a b) = Nat.min (List.length a) (List.length b).
Proof. unfold map2. now rewrite length_map, length_combine. Qed.

Lemma length_masked_mass (T : nat) (x : vec A) (len : Z) :
  List.length x = T -> List.length (masked_mass T x len) = T.
Proof.
  intros H. unfold masked_mass, softmax_row, float_row.
  rewrite !length_map2, !length_map, length_map2, !length_map, length_mask_row, H.
  now rewrite !Nat.min_id.
Qed.

Lemma make_encoder_mask_rows (T : nat) (lens : list Z) :
  make_encoder_mask (List.length lens) T lens = Ok (map (mask_row T) lens).
Proof.
  unfold make_encoder_mask.
  replace (repeat (seq 0 T) (List.length lens)) with (map (fun _ : Z => seq 0 T) lens)
    by (induction lens as [|l lens IH]; simpl; [reflexivity | now rewrite IH]).
  apply bzip_rows. intros len _. apply bzip_single.
Qed.

Lemma masked_softmax_paired (T : nat) (C : list (vec A * Z)) :
  (forall p, In p C -> List.length (fst p) = T) ->
  masked_softmax (map fst C) (map (mask_row T) (map snd C))
  = Ok (map (fun p => masked_row T (fst p) (snd p)) C).
Proof.
  intros Hin.
  unfold masked_softmax, mask_float, bzip2.
  rewrite !map_map.
  set (m := fun p : vec A * Z => float_row (mask_row T (snd p))).
  change (map (fun x : vec A * Z => map (fun b : bool => if b then s_one else s_zero)
                                        (mask_row T (snd x))) C)
    with (map m C).
  assert (Hside : forall p, In p C ->
            List.length (fst p) = List.length (m p) /\
            List.length (softmax_row (map2 s_mul (fst p) (m p))) = List.length (m p)).
  { intros p Hp. unfold m, softmax_row, map2, float_row.
    rewrite !length_map, length_combine, !length_map, length_mask_row, (Hin p Hp).
    split; [reflexivity | apply Nat.min_id]. }
  rewrite (bzip_rows _ fst m (fun p => map2 s_mul (fst p) (m p)))
    by (intros p Hp; apply bzip_pure; now apply Hside).
  cbn [rbind]. rewrite map_map.
  rewrite (bzip_rows _ (fun p => softmax_row (map2 s_mul (fst p) (m p))) m
             (fun p => masked_mass T (fst p) (snd p)))
    by (intros p Hp; apply bzip_pure; now apply Hside).
  cbn [rbind]. rewrite map_map.
  apply bzip_rows. intros p Hp. apply bzip_single.
Qed.

Lemma masked_softmax_rows (T : nat) (vector : mat A) (lens : list Z) :
  List.length vector = List.length lens ->
  Forall (fun row => List.length row = T) vector ->
  masked_softmax vector (map (mask_row T) lens)
  = Ok (map (fun p => masked_row T (fst p) (snd p)) (combine vector lens)).
Proof.
  intros Hlen Hrows.
  rewrite <- (@masked_softmax_paired T (combine vector lens)).
  - now rewrite map_fst_combine_eq, map_snd_combine_eq.
  - intros [x len] Hp. apply in_combine_l in Hp. rewrite Forall_forall in Hrows.
    now apply Hrows.
Qed.

(** Lines 111 and 127 on a batch whose tensors have the documented sizes. *)
Lemma attention_weights_rows (T : nat) (lens : list Z) (logits : mat A) :
  List.length logits = List.length lens ->
  Forall (fun row => List.length row = T) logits ->
  attention_weights (List.length lens) T lens logits
  = Ok (map (fun p => masked_row T (fst p) (snd p)) (combine logits lens)).
Proof.
  intros Hlen Hrows. unfold attention_weights.
  rewrite make_encoder_mask_rows. cbn [rbind]. now apply masked_softmax_rows.
Qed.

(** The mask keeps the first [min len T] positions. *)
Lemma mask_row_split (T : nat) (len : Z) :
  let k := Nat.min (Z.to_nat len) T in
  mask_row T len = repeat true k ++ repeat false (T - k).
Proof.
  cbv zeta. unfold mask_row.
  assert (H : forall n start,
            map (fun t => (Z.of_nat t <? len)%Z) (seq start n)
            = repeat true (Nat.min (Z.to_nat len - start) n)
              ++ repeat false (n - Nat.min (Z.to_nat len - start) n)).
  { induction n as [|n IH]; intros start; simpl.
    - now rewrite Nat.min_0_r.
    - rewrite IH. destruct (Z.of_nat start <? len)%Z eqn:E.
      + apply Z.ltb_lt in E.
        replace (Z.to_nat len - start)%nat with (S (Z.to_nat len - S start)) by lia.
        reflexivity.
      + apply Z.ltb_ge in E.
        replace (Z.to_nat len - start)%nat with 0%nat by lia.
        replace (Z.to_nat len - S start)%nat with 0%nat by lia.
        rewrite !Nat.min_0_l, Nat.sub_0_r. reflexivity. }
  rewrite H. now rewrite Nat.sub_0_r.
Qed.

End AttentionRows.

(** ** The attention weights over the real numbers *)

Section RealWeights.

#[local] Open Scope R_scope.

Lemma epsilon_pos : 0 < epsilon.
Proof.
  unfold epsilon, s_lit, R_scalar, Q2R. simpl.
  apply Rmult_lt_0_compat; [lra|].
  apply Rinv_0_lt_compat. apply IZR_lt. reflexivity.
Qed.

Lemma sum_vec_cons (a : R) (l : vec R) : sum_vec (a :: l) = a + sum_vec l.
Proof. reflexivity. Qed.

Lemma sum_vec_app (a b : vec R) : sum_vec (a ++ b) = sum_vec a + sum_vec b.
Proof.
  induction a as [|x a IH]; simpl app.
  - change (sum_vec (@nil R)) with 0. lra.
  - rewrite !sum_vec_cons, IH. lra.
Qed.

Lemma sum_vec_zeros (n : nat) : sum_vec (repeat 0 n) = 0.
Proof.
  induction n as [|n IH]; simpl repeat.
  - reflexivity.
  - rewrite sum_vec_cons, IH. lra.
Qed.

Lemma sum_vec_scaled (c : R) (l : vec R) :
  sum_vec (map (fun y => y / c) l) = sum_vec l / c.
Proof.
  induction l as [|x l IH]; simpl map.
  - change (sum_vec (@nil R)) with 0. unfold Rdiv. lra.
  - rewrite !sum_vec_cons, IH. unfold Rdiv. lra.
Qed.

Lemma sum_vec_nonneg (l : vec R) : Forall (fun y => 0 <= y) l -> 0 <= sum_vec l.
Proof.
  induction 1 as [|x l Hx _ IH].
  - change (sum_vec (@nil R)) with 0. lra.
  - rewrite sum_vec_cons. lra.
Qed.

Lemma sum_vec_firstn_le (k : nat) (l : vec R) :
  Forall (fun y => 0 <= y) l -> sum_vec (firstn k l) <= sum_vec l.
Proof.
  intros H. rewrite <- (firstn_skipn k l) at 2. rewrite sum_vec_app.
  assert (0 <= sum_vec (skipn k l)); [|lra].
  apply sum_vec_nonneg. apply Forall_forall. intros y Hy.
  rewrite Forall_forall in H. apply H.
  rewrite <- (firstn_skipn k l). apply in_or_app. now right.
Qed.

Lemma sum_exp_pos (x : vec R) : x <> [] -> 0 < sum_vec (map exp x).
Proof.
  destruct x as [|a x]; [congruence|]. intros _. simpl map. rewrite sum_vec_cons.
  assert (0 <= sum_vec (map exp x)).
  { apply sum_vec_nonneg. apply Forall_forall. intros y Hy. apply in_map_iff in Hy.
    destruct Hy as (z & <- & _). left. apply exp_pos. }
  pose proof (exp_pos a). lra.
Qed.

(** The softmax of a row that is not empty is a distribution of positive
    weights. *)
Lemma softmax_row_positive (x : vec R) :
  Forall (fun y => 0 < y) (softmax_row x).
Proof.
  unfold softmax_row. apply Forall_forall. intros y Hy.
  apply in_map_iff in Hy. destruct Hy as (e & <- & He).
  assert (Hx : x <> []) by (intros ->; destruct He).
  apply in_map_iff in He. destruct He as (z & <- & _).
  cbn [s_div s_exp R_scalar]. apply Rdiv_lt_0_compat; [apply exp_pos|].
  now apply sum_exp_pos.
Qed.

Lemma softmax_row_sums_to_one (x : vec R) : x <> [] -> sum_vec (softmax_row x) = 1.
Proof.
  intros Hx. unfold softmax_row. cbn [s_div s_exp R_scalar].
  rewrite sum_vec_scaled. pose proof (sum_exp_pos Hx). field. lra.
Qed.

Lemma length_softmax_row (x : vec R) : List.length (softmax_row x) = List.length x.
Proof. unfold softmax_row. now rewrite !length_map. Qed.

(** Multiplying by the mask keeps the first [k] entries and zeroes the
    rest. *)
Lemma mask_keeps_prefix (p : vec R) :
  forall k, (k <= List.length p)%nat ->
  map2 s_mul p (float_row (repeat true k ++ repeat false (List.length p - k)))
  = firstn k p ++ repeat 0 (List.length p - k).
Proof.
  unfold map2, float_row. induction p as [|y p IH]; intros k Hk.
  - simpl in Hk. replace k with 0%nat by lia. reflexivity.
  - destruct k as [|k].
    + simpl. f_equal; [cbn [s_mul s_zero R_scalar]; lra|].
      specialize (IH 0%nat ltac:(lia)). simpl in IH. rewrite Nat.sub_0_r in IH.
      exact IH.
    + simpl. f_equal; [cbn [s_mul s_one R_scalar]; lra|].
      apply IH. simpl in Hk. lia.
Qed.

Lemma firstn_capped {X} (n : nat) (l : list X) :
  firstn n l = firstn (Nat.min n (List.length l)) l.
Proof.
  destruct (Nat.le_gt_cases n (List.length l)) as [H|H].
  - now rewrite Nat.min_l.
  - rewrite Nat.min_r by lia. now rewrite firstn_all, firstn_all2 by lia.
Qed.

Lemma in_firstn {X} (n : nat) (l : list X) (x : X) : In x (firstn n l) -> In x l.
Proof.
  intros H. rewrite <- (firstn_skipn n l). apply in_or_app. now left.
Qed.

Lemma firstn_repeat_eq {X} (a : X) (n m : nat) :
  firstn n (repeat a m) = repeat a (Nat.min n m).
Proof.
  revert m. induction n as [|n IH]; intros [|m]; simpl; try reflexivity.
  now rewrite IH.
Qed.

(** The weights of one sample are the valid prefix of the softmax divided
    by its mass plus [1e-13], followed by zeros. *)
Lemma masked_row_split (T : nat) (x : vec R) (len : Z) :
  List.length x = T ->
  let k := Nat.min (Z.to_nat len) T in
  let p := softmax_row (map2 s_mul x (float_row (mask_row T len))) in
  let S := valid_mass T x len in
  List.length p = T /\
  S = sum_vec (firstn k p) /\
  masked_row T x len
  = map (fun y => y / (S + epsilon)) (firstn k p) ++ repeat 0 (T - k).
Proof.
  intros Hx k p S.
  assert (Hp : List.length p = T).
  { unfold p. rewrite length_softmax_row, length_map2. unfold float_row.
    now rewrite length_map, length_mask_row, Hx, Nat.min_id. }
  assert (HS : S = sum_vec (firstn k p)).
  { unfold S, valid_mass. fold p. rewrite firstn_capped, Hp. reflexivity. }
  assert (Hq : masked_mass T x len = firstn k p ++ repeat 0 (T - k)).
  { unfold masked_mass. fold p. rewrite mask_row_split. fold k.
    rewrite <- Hp. apply mask_keeps_prefix. rewrite Hp. unfold k. lia. }
  split; [exact Hp|]. split; [exact HS|].
  unfold masked_row. rewrite Hq, sum_vec_app, sum_vec_zeros, <- HS, map_app.
  cbn [s_add s_div R_scalar]. fold epsilon. rewrite Rplus_0_r. f_equal.
  rewrite map_repeat. f_equal. unfold Rdiv. lra.
Qed.


(** One sample's weights in exact arithmetic: nothing on the positions
    from [len] on, nothing negative, and on the valid positions a sum of
    [S / (S + 1e-13)] for the softmax mass [S] of those positions. *)
Lemma masked_row_facts (T : nat) (x : vec R) (len : Z) :
  List.length x = T ->
  let row := masked_row T x len in
  let S := valid_mass T x len in
  List.length row = T /\
  (forall t : nat, (len <= Z.of_nat t)%Z -> nth t row 0 = 0) /\
  (forall t : nat, 0 <= nth t row 0) /\
  sum_vec (firstn (Z.to_nat len) row) = S / (S + epsilon) /\
  0 <= S <= 1 /\
  ((0 < len)%Z -> (0 < T)%nat -> 0 < S).
Proof.
  intros Hx row S.
  destruct (masked_row_split x len Hx) as (Hp & HS & Hrow).
  cbv zeta in Hp, HS, Hrow. fold S in HS, Hrow. fold row in Hrow.
  set (k := Nat.min (Z.to_nat len) T) in *.
  set (p := softmax_row (map2 s_mul x (float_row (mask_row T len)))) in *.
  pose proof epsilon_pos as Heps.
  pose proof (softmax_row_positive (map2 s_mul x (float_row (mask_row T len)))) as Hpos.
  fold p in Hpos.
  assert (Hnn : Forall (fun y => 0 <= y) p)
    by (eapply Forall_impl; [|exact Hpos]; simpl; intros; lra).
  assert (Hk : List.length (firstn k p) = k)
    by (rewrite length_firstn, Hp; unfold k; lia).
  assert (HS0 : 0 <= S).
  { rewrite HS. apply sum_vec_nonneg. apply Forall_forall. intros y Hy.
    rewrite Forall_forall in Hnn. apply Hnn. eapply in_firstn. exact Hy. }
  assert (HS1 : S <= 1).
  { destruct p as [|y p'] eqn:Ep.
    - rewrite HS, firstn_nil. change (sum_vec (@nil R)) with 0. lra.
    - rewrite HS. eapply Rle_trans; [apply sum_vec_firstn_le, Hnn|].
      rewrite <- Ep. unfold p. rewrite softmax_row_sums_to_one; [lra|].
      intros E. unfold p in Ep. rewrite E in Ep. discriminate. }
  set (a := map (fun y => y / (S + epsilon)) (firstn k p)) in *.
  assert (Ha : List.length a = k) by (unfold a; now rewrite length_map).
  assert (Hsum : sum_vec (firstn (Z.to_nat len) row) = S / (S + epsilon)).
  { rewrite Hrow, firstn_app, Ha.
    rewrite (firstn_all2 (n := Z.to_nat len) a) by (rewrite Ha; unfold k; lia).
    rewrite sum_vec_app. unfold a at 1. rewrite sum_vec_scaled, <- HS.
    assert (E0 : sum_vec (firstn (Z.to_nat len - k) (repeat 0 (T - k))) = 0).
    { rewrite firstn_repeat_eq. apply sum_vec_zeros. }
    rewrite E0. lra. }
  split.
  { rewrite Hrow, length_app, Ha, repeat_length. unfold k. lia. }
  split.
  { intros t Ht. rewrite Hrow.
    rewrite app_nth2 by (rewrite Ha; unfold k; lia).
    apply nth_repeat. }
  split.
  { intros t. rewrite Hrow.
    destruct (Nat.lt_ge_cases t k) as [Hlt|Hge].
    - rewrite app_nth1 by (now rewrite Ha).
      assert (Hin : In (nth t a 0) a) by (apply nth_In; now rewrite Ha).
      unfold a in Hin at 2. apply in_map_iff in Hin. destruct Hin as (y & <- & Hy).
      apply in_firstn in Hy. rewrite Forall_forall in Hnn. specialize (Hnn y Hy).
      apply Rle_mult_inv_pos; lra.
    - rewrite app_nth2 by (now rewrite Ha). rewrite nth_repeat. lra. }
  split; [exact Hsum|]. split; [lra|].
  intros Hlen HT. rewrite HS.
  assert (Hk0 : (0 < k)%nat) by (unfold k; lia).
  destruct p as [|y p']; [simpl in Hp; lia|].
  destruct k as [|k']; [lia|]. simpl firstn. rewrite sum_vec_cons.
  inversion Hpos as [|? ? Hy Hrest]; subst.
  inversion Hnn as [|? ? _ Hnn']; subst.
  assert (0 <= sum_vec (firstn k' p')); [|lra].
  apply sum_vec_nonneg. apply Forall_forall. intros z Hz.
  rewrite Forall_forall in Hnn'. apply Hnn'. eapply in_firstn. exact Hz.
Qed.

(** A sample without padding holds the whole softmax mass. *)
Lemma valid_mass_without_padding (T : nat) (x : vec R) (len : Z) :
  List.length x = T -> (0 < T)%nat -> (Z.of_nat T <= len)%Z -> valid_mass T x len = 1.
Proof.
  intros Hx HT Hlen.
  destruct (masked_row_split x len Hx) as (Hp & _ & _). cbv zeta in Hp.
  unfold valid_mass. rewrite firstn_all2 by (rewrite Hp; lia).
  apply softmax_row_sums_to_one. intros E. rewrite E in Hp. simpl in Hp. lia.
Qed.

(** The sum of one sample's weights in exact arithmetic: at most one, and
    short of one by no more than [1e-13 / S]. *)
Lemma masked_row_sum_bounds (S : R) :
  0 < S -> 1 - epsilon / S <= S / (S + epsilon) <= 1.
Proof.
  intros HS. pose proof epsilon_pos as Heps.
  assert (E : S / (S + epsilon) = 1 - epsilon / (S + epsilon)) by (field; lra).
  rewrite E. split.
  - assert (epsilon / (S + epsilon) <= epsilon / S); [|lra].
    unfold Rdiv. apply Rmult_le_compat_l; [lra|].
    apply Rinv_le_contravar; lra.
  - assert (0 <= epsilon / (S + epsilon)); [|lra].
    apply Rle_mult_inv_pos; lra.
Qed.

End RealWeights.

Lemma nth_error_combine {X Y} (a : list X) (b : list Y) (i : nat) (x : X) (y : Y) :
  nth_error a i = Some x -> nth_error b i = Some y ->
  nth_error (combine a b) i = Some (x, y).
Proof.
  revert b i. induction a as [|x' a IH]; intros [|y' b] [|i] Ha Hb; simpl in *;
    try discriminate.
  - congruence.
  - now apply IH.
Qed.

(** C1 (amended).  On a batch whose tensors have the documented sizes, the
    attention weights of every sample are exactly zero at every position
    [t >= encoder_lens[i]] and nowhere negative.  For a sample with
    [encoder_lens[i] > 0], over an encoder with a timestep, the weights at
    the positions [t < encoder_lens[i]] sum to at most 1 and to no less
    than [1 - 1e-13 / S], where [S] ([0 < S <= 1]) is the softmax mass of
    those positions, the softmax being taken with the logits of the padded
    positions set to 0; [S] is 1 for a sample without padding.  The
    arithmetic is the exact one: the statement holds of the [float32]
    tensors up to rounding. *)
Theorem attention_weights_masked_distribution (T : nat) (lens : list Z) (logits : mat R) :
  List.length logits = List.length lens ->
  Forall (fun row => List.length row = T) logits ->
  exists weights,
    attention_weights (List.length lens) T lens logits = Ok weights /\
    List.length weights = List.length lens /\
    forall (i : nat) (x row : vec R) (len : Z),
      nth_error logits i = Some x ->
      nth_error lens i = Some len ->
      nth_error weights i = Some row ->
      List.length row = T /\
      (forall t : nat, (len <= Z.of_nat t)%Z -> nth t row 0%R = 0%R) /\
      (forall t : nat, (0 <= nth t row 0)%R) /\
      ((0 < len)%Z -> (0 < T)%nat ->
       (0 < valid_mass T x len <= 1)%R /\
       (1 - epsilon / valid_mass T x len <= sum_vec (firstn (Z.to_nat len) row) <= 1)%R /\
       ((Z.of_nat T <= len)%Z -> valid_mass T x len = 1%R)).
Proof.
  intros Hlen Hrows. eexists. split; [now apply attention_weights_rows|].
  split; [now rewrite length_map, length_combine, Hlen, Nat.min_id|].
  intros i x row len Hx Hl Hrow.
  rewrite nth_error_map, (nth_error_combine _ _ _ Hx Hl) in Hrow.
  simpl in Hrow. assert (row = masked_row T x len) by congruence. subst row.
  assert (HxT : List.length x = T).
  { rewrite Forall_forall in Hrows. apply Hrows. eapply nth_error_In. exact Hx. }
  destruct (masked_row_facts x len HxT) as (HT & Hzero & Hnn & Hsum & HS & HSpos).
  split; [exact HT|]. split; [exact Hzero|]. split; [exact Hnn|].
  intros Hpos HT0. specialize (HSpos Hpos HT0).
  split; [split; [exact HSpos | apply HS]|]. split.
  - rewrite Hsum. now apply masked_row_sum_bounds.
  - intros Hfull. now apply valid_mass_without_padding.
Qed.

Lemma attention_weights_masked_distribution_witness :
  exists weights,
    attention_weights 1 2 [1%Z] [[0%R; 0%R]] = Ok weights /\
    forall row, nth_error weights 0 = Some row ->
      nth 1 row 0%R = 0%R /\ (sum_vec (firstn 1 row) <= 1)%R.
Proof.
  assert (Hshape : Forall (fun row : vec R => List.length row = 2%nat) [[0%R; 0%R]])
    by (repeat constructor).
  destruct (@attention_weights_masked_distribution 2 [1%Z] [[0%R; 0%R]] eq_refl Hshape)
    as (weights & Hrun & _ & Hrows).
  exists weights. split; [exact Hrun|].
  intros row Hrow.
  destruct (Hrows 0%nat [0%R; 0%R] row 1%Z eq_refl eq_refl Hrow)
    as (_ & Hzero & _ & Hsum).
  split; [apply Hzero; simpl; lia|].
  destruct Hsum as (_ & Hsum & _); [lia | lia |]. apply Hsum.
Defined.

(** A sample of length zero gets no attention at all. *)
Lemma attention_of_empty_sample (T : nat) (x : vec R) (len : Z) :
  List.length x = T -> (len <= 0)%Z -> masked_row T x len = repeat 0%R T.
Proof.
  intros Hx Hlen. destruct (masked_row_split x len Hx) as (_ & _ & Hrow).
  cbv zeta in Hrow. rewrite Hrow.
  replace (Z.to_nat len) with 0%nat by lia. simpl. now rewrite Nat.sub_0_r.
Qed.

(** X1.  The fallback for a sample without a valid timestep: on a batch
    whose tensors have the documented sizes, every sample with
    [encoder_lens[i] <= 0] gets attention weights that are all zero. *)
Theorem attention_weights_of_empty_samples (T : nat) (lens : list Z) (logits : mat R) :
  List.length logits = List.length lens ->
  Forall (fun row => List.length row = T) logits ->
  exists weights,
    attention_weights (List.length lens) T lens logits = Ok weights /\
    forall (i : nat) (row : vec R) (len : Z),
      nth_error lens i = Some len -> (len <= 0)%Z ->
      nth_error weights i = Some row ->
      row = repeat 0%R T.
Proof.
  intros Hlen Hrows. eexists. split; [now apply attention_weights_rows|].
  intros i row len Hl Hle Hrow.
  rewrite nth_error_map in Hrow.
  destruct (nth_error (combine logits lens) i) as [[x len']|] eqn:E; [|discriminate].
  simpl in Hrow. inversion Hrow; subst row. clear Hrow.
  assert (Hin : In (x, len') (combine logits lens)) by (eapply nth_error_In; exact E).
  assert (Hx : List.length x = T).
  { rewrite Forall_forall in Hrows. apply Hrows. eapply in_combine_l. exact Hin. }
  assert (len' = len) as ->.
  { assert (E' : nth_error (map snd (combine logits lens)) i = Some len')
      by (rewrite nth_error_map, E; reflexivity).
    rewrite map_snd_combine_eq in E' by exact Hlen. congruence. }
  now apply attention_of_empty_sample.
Qed.

Lemma attention_weights_of_empty_samples_witness :
  attention_weights 2 2 [0%Z; 2%Z] [[1%R; 2%R]; [3%R; 4%R]]
  = Ok [repeat 0%R 2; masked_row 2 [3%R; 4%R] 2%Z].
Proof.
  assert (Hshape : Forall (fun row : vec R => List.length row = 2%nat)
                     [[1%R; 2%R]; [3%R; 4%R]])
    by (repeat constructor).
  destruct (@attention_weights_of_empty_samples 2 [0%Z; 2%Z] [[1%R; 2%R]; [3%R; 4%R]]
              eq_refl Hshape) as (weights & Hrun & Hzero).
  pose proof (@attention_weights_rows R R_scalar 2 [0%Z; 2%Z] [[1%R; 2%R]; [3%R; 4%R]]
                eq_refl Hshape) as Hrows.
  change (List.length [0%Z; 2%Z]) with 2%nat in Hrun, Hrows.
  rewrite Hrows in Hrun. inversion Hrun as [Hw]. clear Hrun.
  rewrite Hrows. simpl map. f_equal. f_equal.
  apply (Hzero 0%nat _ 0%Z eq_refl); [lia|].
  rewrite <- Hw. reflexivity.
Defined.

Lemma exp_of_nat (n : nat) : exp (INR n) = (exp 1 ^ n)%R.
Proof.
  induction n as [|n IH].
  - simpl. apply exp_0.
  - rewrite S_INR, exp_plus, IH. simpl. ring.
Qed.

Lemma exp_minus_60 : (exp (-60) < / 1000000000000000000)%R.
Proof.
  replace (-60)%R with (- INR 60)%R by (simpl; lra).
  rewrite exp_Ropp. apply Rinv_lt_contravar.
  - apply Rmult_lt_0_compat; [lra | apply exp_pos].
  - rewrite exp_of_nat.
    assert (H2 : (2 < exp 1)%R) by (pose proof (exp_ineq1 1 ltac:(lra)); lra).
    apply Rlt_le_trans with (2 ^ 60)%R.
    + change 2%R with (IZR 2). rewrite pow_IZR. apply IZR_lt. reflexivity.
    + apply pow_incr. lra.
Qed.

(** The sum over the valid positions need not even be close to one: a
    valid timestep with logit -60 next to one padded timestep gets less
    than a hundredth. *)
Lemma attention_weights_far_below_one :
  exists row,
    attention_weights 1 2 [1%Z] [[(-60)%R; 0%R]] = Ok [row] /\
    (sum_vec (firstn (Z.to_nat 1) row) < 1 / 100)%R.
Proof.
  assert (Hshape : Forall (fun row : vec R => List.length row = 2%nat) [[(-60)%R; 0%R]])
    by (repeat constructor).
  exists (masked_row 2 [(-60)%R; 0%R] 1%Z). split.
  - exact (@attention_weights_rows R R_scalar 2 [1%Z] [[(-60)%R; 0%R]] eq_refl Hshape).
  - destruct (@masked_row_facts 2 [(-60)%R; 0%R] 1%Z eq_refl)
      as (_ & _ & _ & Hsum & [HS0 _] & _).
    rewrite Hsum. clear Hsum.
    assert (HS : (valid_mass 2 [(-60)%R; 0%R] 1 < / 1000000000000000000)%R).
    { unfold valid_mass.
      cbv [mask_row float_row map2 softmax_row seq map combine Z.to_nat Pos.to_nat
           Pos.iter_op firstn Z.of_nat Z.ltb Z.compare Pos.of_succ_nat Pos.compare
           Pos.compare_cont Pos.succ sum_vec fold_right fst snd Nat.add].
      cbn [s_exp s_mul s_div s_add s_zero s_one R_scalar].
      rewrite Rmult_1_r, Rmult_0_r, exp_0, !Rplus_0_r.
      pose proof exp_minus_60 as He. pose proof (exp_pos (-60)) as Hp.
      apply Rle_lt_trans with (exp (-60)); [|exact He].
      apply Rmult_le_reg_r with (r := (exp (-60) + 1)%R); [lra|].
      unfold Rdiv. rewrite Rmult_assoc, Rinv_l by lra. nra. }
    pose proof epsilon_pos as Heps.
    assert (He : epsilon = (/ 10000000000000)%R).
    { unfold epsilon, s_lit, R_scalar, Q2R. simpl. lra. }
    set (S := valid_mass 2 [(-60)%R; 0%R] 1) in *.
    apply Rmult_lt_reg_r with (r := (S + epsilon)%R); [lra|].
    unfold Rdiv. rewrite Rmult_assoc, Rinv_l by lra. rewrite He in *. lra.
Qed.

(** ** [CharDecoder.forward] as written *)

Lemma rbind_ok_inv {X Y} (r : result X) (k : X -> result Y) (y : Y) :
  rbind r k = Ok y -> exists x, r = Ok x /\ k x = Ok y.
Proof. destruct r as [x|e]; simpl; intros H; [now exists x | discriminate]. Qed.

Tactic Notation "invert_rbind" hyp(H) "as" ident(x) ident(Hx) :=
  apply rbind_ok_inv in H; destruct H as (x & Hx & H).

Section ForwardFacts.

Context {A : Type} {SA : Scalar A}.
Variable State : Type.

Lemma map_last_rank (f : vec A -> result (vec A)) (t t' : tensor) :
  map_last f t = Ok t' -> rank t' = rank t.
Proof.
  destruct t; simpl; unfold rmap; intros H; invert_rbind H as x Hx;
    inversion H; reflexivity.
Qed.

(** Joined to a tensor of rank 4 along dimension 1, whatever comes out has
    rank 4. *)
Lemma cat_dim1_rank4 (c : list (tensor3 A)) (b t : tensor) :
  cat_dim1 (T4 c) b = Ok t -> rank t = 4%nat.
Proof.
  destruct b as [[|y v]|m|t3|t4]; simpl; intros H; try discriminate.
  - inversion H. reflexivity.
  - destruct (list_eqb _ _); [inversion H; reflexivity | discriminate].
Qed.

(** C4.  Whenever [forward] returns, what it returns in place of the logits
    has rank 4: line 129 adds a dimension to the context where the comment
    announces [(batch_size, hidden_size)], and nothing after it removes
    one.  So [forward] never returns logits of shape
    [(batch_size, output_size)]. *)
Lemma forward_never_returns_logit_matrix (self : CharDecoder State) (char : list Z)
    (previous_state : State) (encoder_lens : list Z)
    (encoder_hidden_states : tensor3 A) :
  match CharDecoder_forward self char previous_state encoder_lens
          encoder_hidden_states with
  | Ok (logits, _) => rank logits = 4%nat
  | Raise _ => True
  end.
Proof.
  destruct (CharDecoder_forward self char previous_state encoder_lens
              encoder_hidden_states) as [[logits state]|e] eqn:H; [|exact I].
  unfold CharDecoder_forward in H.
  invert_rbind H as mask Hmask. invert_rbind H as embedded Hembedded.
  invert_rbind H as out Hout. destruct out as [hidden_state final].
  invert_rbind H as expanded Hexpanded. invert_rbind H as joined Hjoined.
  invert_rbind H as scores Hscores. invert_rbind H as weights Hweights.
  invert_rbind H as context Hcontext. invert_rbind H as squeezed Hsqueezed.
  invert_rbind H as merged Hmerged. invert_rbind H as projected Hprojected.
  invert_rbind H as activated Hactivated. invert_rbind H as output Houtput.
  inversion H; subst.
  rewrite (map_last_rank _ _ Houtput), (map_last_rank _ _ Hactivated),
    (map_last_rank _ _ Hprojected).
  exact (cat_dim1_rank4 _ _ Hmerged).
Qed.

(** An output of rank 3 stays of rank 2 or 3 under the squeeze of line
    131 and cannot be joined to the context of rank 4. *)
Lemma forward_stops_on_rank3_output (self : CharDecoder State) (char : list Z)
    (previous_state : State) (encoder_lens : list Z)
    (encoder_hidden_states : tensor3 A) :
  (forall input st h st', rnn self input st = Ok (h, st') -> rank h = 3%nat) ->
  exists e,
    CharDecoder_forward self char previous_state encoder_lens encoder_hidden_states
    = Raise e.
Proof.
  intros Hrank.
  destruct (CharDecoder_forward self char previous_state encoder_lens
              encoder_hidden_states) as [[logits state]|e] eqn:E;
    [|eexists; reflexivity].
  exfalso. unfold CharDecoder_forward in E.
  invert_rbind E as mask Hmask. invert_rbind E as embedded Hembedded.
  invert_rbind E as out Hout. destruct out as [hidden_state final].
  invert_rbind E as expanded Hexpanded. invert_rbind E as joined Hjoined.
  invert_rbind E as scores Hscores. invert_rbind E as weights Hweights.
  invert_rbind E as context Hcontext. invert_rbind E as squeezed Hsqueezed.
  invert_rbind E as merged Hmerged.
  pose proof (Hrank _ _ _ _ Hout) as Hr.
  destruct hidden_state as [v|m|t3|t4]; try discriminate Hr.
  simpl in Hsqueezed. destruct (Nat.eqb _ 1); inversion Hsqueezed; subst;
    simpl in Hmerged; discriminate Hmerged.
Qed.

(** X2.  With a recurrent network that returns its output as a tensor of
    rank 3, as [nn.RNN] does for a batch, [forward] raises on every
    input. *)
Lemma forward_raises_on_batched_hidden_state (self : CharDecoder State) (char : list Z)
    (previous_state : State) (encoder_lens : list Z)
    (encoder_hidden_states : tensor3 A) :
  (forall input st h st', rnn self input st = Ok (h, st') -> rank h = 3%nat) ->
  exists e,
    CharDecoder_forward self char previous_state encoder_lens encoder_hidden_states
    = Raise e.
Proof. apply forward_stops_on_rank3_output. Qed.

(** C3.  The embedding of the input character has no part in what
    [forward] computes: with the same network and layers, any two embedding
    tables that hold the characters give the same outcome.  The recurrent
    network is run on the indices themselves. *)
Lemma forward_ignores_embedding (table table' : mat A)
    (net : rnn_input -> State -> result (tensor * State))
    (attn : Linear1) (concat out : Linear) (char : list Z) (previous_state : State)
    (encoder_lens : list Z) (encoder_hidden_states : tensor3 A) :
  if is_ok (embedding_lookup table char) && is_ok (embedding_lookup table' char)
  then
    CharDecoder_forward (mkCharDecoder table net attn concat out) char previous_state
      encoder_lens encoder_hidden_states
    = CharDecoder_forward (mkCharDecoder table' net attn concat out) char
        previous_state encoder_lens encoder_hidden_states
  else True.
Proof.
  unfold CharDecoder_forward. cbn [embedding rnn attn_proj concat_layer output_proj].
  destruct (embedding_lookup table char); [|exact I].
  destruct (embedding_lookup table' char); [|exact I].
  cbn [is_ok andb].
  destruct (make_encoder_mask _ _ _); reflexivity.
Qed.

Lemma forward_runs_network_on_indices (self : CharDecoder State) (char : list Z)
    (previous_state : State) (encoder_lens : list Z)
    (encoder_hidden_states : tensor3 A) (e : exn) :
  is_ok (make_encoder_mask (List.length char)
           (List.length (hd [] encoder_hidden_states)) encoder_lens) = true ->
  is_ok (embedding_lookup (embedding self) char) = true ->
  rnn self (LongInput (map (fun c => [c]) char)) previous_state = Raise e ->
  CharDecoder_forward self char previous_state encoder_lens encoder_hidden_states
  = Raise e.
Proof.
  intros Hm He Hr. unfold CharDecoder_forward.
  destruct (make_encoder_mask _ _ _); [|discriminate]. cbn [rbind].
  destruct (embedding_lookup _ _); [|discriminate]. cbn [rbind].
  now rewrite Hr.
Qed.

End ForwardFacts.

(** ** A decoding step on concrete tensors

    The numbers are kept as expressions, so that a run can be evaluated
    without choosing an arithmetic. *)

(** One sample, one encoder timestep: even a network that accepts the
    index tensor leaves [forward] failing at the concatenation of line
    132. *)
Example forward_fails_at_line_132 :
  CharDecoder_forward (small_decoder lenient_network) [1%Z] tt [1%Z] [[[Lit 3]]]
  = Raise (RuntimeError "Tensors must have same number of dimensions").
Proof. vm_compute. reflexivity. Qed.

(** The same step with a network that takes numbers only fails at line
    120, on the index tensor. *)
Example forward_fails_at_line_120 :
  CharDecoder_forward (small_decoder strict_network) [1%Z] tt [1%Z] [[[Lit 3]]]
  = Raise (RuntimeError "expected a floating point input of rank 3").
Proof. vm_compute. reflexivity. Qed.

(** The attention weights of that step, up to line 127. *)
Example attention_weights_of_one_step :
  attention_weights 1 1 [1%Z] [[Lit 3]]
  = Ok [[Div (Mul (Div (Exp (Mul (Lit 3) (Lit 1))) (Add (Exp (Mul (Lit 3) (Lit 1))) (Lit 0)))
                  (Lit 1))
             (Add (Add (Mul (Div (Exp (Mul (Lit 3) (Lit 1)))
                                 (Add (Exp (Mul (Lit 3) (Lit 1))) (Lit 0)))
                            (Lit 1))
                       (Lit 0))
                  (Lit (1 # 10000000000000)))]].
Proof. vm_compute. reflexivity. Qed.

Lemma forward_raises_on_batched_hidden_state_witness :
  exists e,
    CharDecoder_forward (small_decoder lenient_network) [1%Z] tt [1%Z] [[[Lit 3]]]
    = Raise e.
Proof.
  apply (@forward_raises_on_batched_hidden_state expr expr_scalar unit
           (small_decoder lenient_network) [1%Z] tt [1%Z] [[[Lit 3]]]).
  intros input st h st' H. destruct input; inversion H; reflexivity.
Defined.

(** ** A decoding step on a batch with an empty sample

    The tensor elements are numbers that may be NaN. *)

Section PartialWeights.

#[local] Open Scope R_scope.







Variable State : Type.


End PartialWeights.


(** Without the [1e-13], the all-zero row of an empty sample would be the
    quotient of zero by zero, which is NaN. *)
Example zero_by_zero_is_nan : s_div (Some 0%R) (s_add (Some 0%R) (Some 0%R)) = None.
Proof.
  cbn [s_div s_add partial_scalar lift2].
  destruct (Req_dec_T (0 + 0) 0) as [_|H]; [reflexivity | exfalso; lra].
Qed.

(** * Further properties of the driver *)

(** ** The classes of [better_model] *)

Section ClassFacts.

Variable ext_getattr : pyval -> string -> result pyval.
Variable ext_call : pyval -> list pyval -> list (string * pyval) -> result pyval.
Variable ext_mul : pyval -> pyval -> result pyval.
Variables nn_LSTM nn_Embedding nn_Linear : pyval.

Ltac step_init :=
  match goal with
  | |- context [match ?r with Ok _ => _ | Raise _ => _ end] =>
      destruct r; cbn -[arg]
  end.

(** [CharDecoder.__init__] never gets past line 89: a read of the encoder,
    the product or [nn.Embedding] raises, or the assignment of the embedding
    is refused because [nn.Module.__init__] has not run on the instance. *)
Lemma CharDecoder_init_raises (env : list (string * pyval)) :
  let out := CharDecoder_init ext_getattr ext_call ext_mul nn_Embedding nn_Linear env
               (new_instance "CharDecoder") in
  is_ok (fst out) = false /\
  inst_module_init (snd out) = false /\
  lookup "embedding" (inst_attrs (snd out)) = None /\
  lookup "rnn" (inst_attrs (snd out)) = None.
Proof.
  cbv zeta. unfold CharDecoder_init, new_instance. run_monad. cbn -[arg].
  repeat step_init; repeat split; reflexivity.
Qed.

(** X3.  Neither class of [better_model] can be instantiated: a call of
    [VideoEncoder] and a call of [CharDecoder] raise, whatever the
    arguments; and [CharDecoder.__init__], whatever it is handed, raises
    with [nn.Module.__init__] not run and neither [embedding] nor [rnn]
    assigned. *)
Theorem no_class_of_better_model_can_be_instantiated (pos : list pyval)
    (kw env : list (string * pyval)) :
  is_ok (m <- module_getattr
               (better_model ext_getattr ext_call ext_mul nn_LSTM nn_Embedding nn_Linear)
               "VideoEncoder" ;;
         call_member ext_call m pos kw)%res = false /\
  is_ok (m <- module_getattr
               (better_model ext_getattr ext_call ext_mul nn_LSTM nn_Embedding nn_Linear)
               "CharDecoder" ;;
         call_member ext_call m pos kw)%res = false /\
  (let out := CharDecoder_init ext_getattr ext_call ext_mul nn_Embedding nn_Linear env
                (new_instance "CharDecoder") in
   is_ok (fst out) = false /\
   inst_module_init (snd out) = false /\
   lookup "embedding" (inst_attrs (snd out)) = None /\
   lookup "rnn" (inst_attrs (snd out)) = None).
Proof.
  split; [|split; [|apply CharDecoder_init_raises]].
  - change (module_getattr
              (better_model ext_getattr ext_call ext_mul nn_LSTM nn_Embedding nn_Linear)
              "VideoEncoder")
      with (Ok (MClass (mkClass "VideoEncoder" (VideoEncoder_sig nn_LSTM)
                          (VideoEncoder_init ext_call)))).
    cbn [rbind call_member cd_sig].
    destruct (bind_args _ pos kw) as [env'|e]; cbn [rbind cd_init cd_name is_ok];
      [|reflexivity].
    now rewrite VideoEncoder_init_stops_at_frame_dim.
  - change (module_getattr
              (better_model ext_getattr ext_call ext_mul nn_LSTM nn_Embedding nn_Linear)
              "CharDecoder")
      with (Ok (MClass (mkClass "CharDecoder" CharDecoder_sig
                          (CharDecoder_init ext_getattr ext_call ext_mul nn_Embedding
                             nn_Linear)))).
    cbn [rbind call_member cd_sig].
    destruct (bind_args _ pos kw) as [env'|e]; cbn [rbind cd_init cd_name is_ok];
      [|reflexivity].
    destruct (CharDecoder_init_raises env') as [H _]. cbv zeta in H.
    destruct (CharDecoder_init _ _ _ _ _ env' _) as [[u|e] self]; [discriminate | reflexivity].
Qed.

End ClassFacts.

(** ** The training loop *)

Section TrainLoopFacts.

Variable train_eval : nat -> pyval * pyval -> loader -> result (pyval * pyval * pyval).
Variable train_train : nat -> pyval * pyval -> loader -> result (pyval * pyval).
Variable error_rate : pyval -> pyval -> result pyval.
Variable min_nonempty : list pyval -> result pyval.

(** One pass of the loop body: it completes with its three events emitted
    and one value appended to each of the three lists, or it stops inside
    the pass. *)
Lemma epoch_outcome (models : pyval * pyval) (train_loader val_loader test_loader : loader)
    (i : nat) (st : stats) (log : list event) :
  match epoch train_eval train_train error_rate models train_loader val_loader
          test_loader i st log with
  | (Ok st', log') =>
      log' = log ++ epoch_events i /\
      exists v t d,
        val_cers st' = val_cers st ++ [v] /\
        test_cers st' = test_cers st ++ [t] /\
        train_decoder_losses st' = train_decoder_losses st ++ [d] /\
        (exists dl c n, train_eval i models val_loader = Ok (dl, c, n) /\
                        error_rate c n = Ok v) /\
        (exists dl c n, train_eval i models test_loader = Ok (dl, c, n) /\
                        error_rate c n = Ok t) /\
        (exists c, train_train i models train_loader = Ok (d, c))
  | (Raise _, log') =>
      exists part, log' = log ++ part /\ part <> [] /\ starts part (epoch_events i)
  end.
Proof.
  unfold epoch, epoch_events, starts. run_monad.
  destruct (train_eval i models val_loader) as [[[dl c] n]|e] eqn:E1; cbn.
  2:{ exists [EvEval i false]. repeat split; [discriminate | eexists; reflexivity]. }
  destruct (error_rate c n) as [v|e] eqn:E2; cbn.
  2:{ exists [EvEval i false]. repeat split; [discriminate | eexists; reflexivity]. }
  destruct (train_train i models train_loader) as [[d cl]|e] eqn:E3; cbn.
  2:{ exists [EvEval i false; EvTrain i]. rewrite <- app_assoc.
      repeat split; [discriminate | eexists; reflexivity]. }
  destruct (train_eval i models test_loader) as [[[dl' c'] n']|e] eqn:E4; cbn.
  2:{ exists [EvEval i false; EvTrain i; EvEval i true]. rewrite <- !app_assoc.
      repeat split; [discriminate | exists []; reflexivity]. }
  destruct (error_rate c' n') as [t|e] eqn:E5; cbn.
  2:{ exists [EvEval i false; EvTrain i; EvEval i true]. rewrite <- !app_assoc.
      repeat split; [discriminate | exists []; reflexivity]. }
  destruct (py_append cl cl) as [[]|e]; cbn.
  2:{ exists [EvEval i false; EvTrain i; EvEval i true]. rewrite <- !app_assoc.
      repeat split; [discriminate | exists []; reflexivity]. }
  rewrite <- !app_assoc. split; [reflexivity|].
  exists v, t, d. repeat split; try reflexivity.
  - exists dl, c, n. now split.
  - exists dl', c', n'. now split.
  - now exists cl.
Qed.

(** X4.  The loop runs the epochs in order.  When it completes, the log has
    grown by one validation pass, one training pass and one test pass per
    epoch, in that order, and each of [val_cers], [test_cers] and
    [train_decoder_losses] by one value per epoch, in epoch order: the
    error rate of that epoch's pass over the validation loader, the one
    over the test loader, and the decoder loss of its training pass over
    the train loader.  When a pass raises, the loop stops there: the
    epochs before it are complete in the log and no later epoch has
    started. *)
Theorem epochs_run_in_order (models : pyval * pyval)
    (train_loader val_loader test_loader : loader) (range : list nat)
    (st : stats) (log : list event) :
  match epochs train_eval train_train error_rate models train_loader val_loader
          test_loader range st log with
  | (Ok st', log') =>
      log' = log ++ flat_map epoch_events range /\
      exists vs ts ds,
        val_cers st' = val_cers st ++ vs /\
        test_cers st' = test_cers st ++ ts /\
        train_decoder_losses st' = train_decoder_losses st ++ ds /\
        Forall2 (fun i v => exists dl c n,
                   train_eval i models val_loader = Ok (dl, c, n) /\
                   error_rate c n = Ok v) range vs /\
        Forall2 (fun i t => exists dl c n,
                   train_eval i models test_loader = Ok (dl, c, n) /\
                   error_rate c n = Ok t) range ts /\
        Forall2 (fun i d => exists c, train_train i models train_loader = Ok (d, c))
                range ds
  | (Raise _, log') =>
      exists done i rest part,
        range = done ++ i :: rest /\
        log' = log ++ flat_map epoch_events done ++ part /\
        part <> [] /\ starts part (epoch_events i)
  end.
Proof.
  revert st log. induction range as [|i range IH]; intros st log.
  - cbn. unfold ret. split; [now rewrite app_nil_r|].
    exists [], [], []. rewrite !app_nil_r. repeat split; constructor.
  - cbn [epochs]. unfold bind.
    pose proof (epoch_outcome models train_loader val_loader test_loader i st log) as He.
    destruct (epoch _ _ _ _ _ _ _ _ _ _) as [[st1|e] log1].
    + destruct He as (Hlog & v & t & d & Hv & Ht & Hd & Ev & Et & Ed).
      specialize (IH st1 log1).
      destruct (epochs _ _ _ _ _ _ _ _ _ _) as [[st2|e] log2].
      * destruct IH as (Hlog2 & vs & ts & ds & Hvs & Hts & Hds & Fv & Ft & Fd).
        split; [rewrite Hlog2, Hlog; cbn [flat_map]; now rewrite <- app_assoc|].
        exists (v :: vs), (t :: ts), (d :: ds).
        rewrite Hvs, Hts, Hds, Hv, Ht, Hd, <- !app_assoc.
        repeat split; try reflexivity; now constructor.
      * destruct IH as (done & j & rest & part & Hr & Hlog2 & Hne & Hpart).
        exists (i :: done), j, rest, part.
        split; [now rewrite Hr|]. split; [|now split].
        rewrite Hlog2, Hlog. cbn [flat_map]. now rewrite <- !app_assoc.
    + destruct He as (part & Hlog & Hne & Hpart).
      exists [], i, range, part. repeat split; assumption.
Qed.

(** X5.  Without an epoch to run, nothing is evaluated or trained and the
    summary raises: for [num_epochs = 0] the division of line 204 raises
    [ZeroDivisionError] after the blank line; for a negative [num_epochs]
    the timing line and the heading are printed and [np.min] of the empty
    [val_cers] raises [ValueError]. *)
Theorem train_loop_without_epochs (num_epochs : Z) (models : pyval * pyval)
    (train_loader val_loader test_loader : loader) :
  (num_epochs <= 0)%Z ->
  run (train_loop train_eval train_train error_rate min_nonempty num_epochs models
         train_loader val_loader test_loader)
  = if (num_epochs =? 0)%Z
    then (Raise ZeroDivisionError, [EvPrintBlank])
    else (Raise (ValueError "zero-size array to reduction operation minimum which has no identity"),
          [EvPrintBlank; EvPrintTiming; EvPrintText "Training Statistics"]).
Proof.
  intros H. unfold run, train_loop, bind.
  replace (Z.to_nat num_epochs) with 0%nat by lia. cbn [seq epochs]. unfold ret.
  unfold summary. run_monad. cbn [app].
  destruct (num_epochs =? 0)%Z; reflexivity.
Qed.

End TrainLoopFacts.

Lemma train_loop_without_epochs_witness :
  run (train_loop eval_outcome train_outcome rate_outcome first_of (-3) (PyNone, PyNone)
         no_loader no_loader no_loader)
  = (Raise (ValueError "zero-size array to reduction operation minimum which has no identity"),
     [EvPrintBlank; EvPrintTiming; EvPrintText "Training Statistics"]) /\
  run (train_loop eval_outcome train_outcome rate_outcome first_of 0 (PyNone, PyNone)
         no_loader no_loader no_loader)
  = (Raise ZeroDivisionError, [EvPrintBlank]).
Proof.
  split.
  - apply (@train_loop_without_epochs eval_outcome train_outcome rate_outcome first_of
             (-3)%Z (PyNone, PyNone) no_loader no_loader no_loader). lia.
  - apply (@train_loop_without_epochs eval_outcome train_outcome rate_outcome first_of
             0%Z (PyNone, PyNone) no_loader no_loader no_loader). lia.
Defined.

(** Two epochs that complete, on outcomes whose CTC loss is a list. *)
Example epochs_run_in_order_on_two_epochs :
  exists st,
    epochs eval_outcome train_outcome rate_outcome (PyNone, PyNone) no_loader no_loader
      no_loader [0; 1]%nat (mkStats [] [] [] []) []
    = (Ok st, epoch_events 0 ++ epoch_events 1) /\
    val_cers st = [PyFloat (3 # 10); PyFloat (3 # 10)] /\
    train_decoder_losses st = [PyFloat (1 # 2); PyFloat (1 # 2)].
Proof. eexists. split; [vm_compute; reflexivity|]. split; reflexivity. Qed.

(** ** [_get_datasets]: the label file and the order of the listing *)

Lemma string_leb_iff (a b : string) :
  String.leb a b = true <-> a = b \/ OrderedTypeEx.String_as_OT.lt a b.
Proof.
  unfold String.leb.
  pose proof (OrderedTypeEx.String_as_OT.cmp_eq a b) as He.
  pose proof (OrderedTypeEx.String_as_OT.cmp_lt a b) as Hl.
  unfold OrderedTypeEx.String_as_OT.cmp in *.
  destruct (String.compare a b); split; intros H; try reflexivity.
  - left. now apply He.
  - right. now apply Hl.
  - discriminate.
  - destruct H as [H|H]; [apply He in H | apply Hl in H]; discriminate.
Qed.

Lemma string_leb_trans (a b c : string) :
  String.leb a b = true -> String.leb b c = true -> String.leb a c = true.
Proof.
  rewrite !string_leb_iff. intros [->|H1] [->|H2]; auto.
  right. eapply OrderedTypeEx.String_as_OT.lt_trans; eassumption.
Qed.

Lemma insert_sorted_sorted (s : string) (l : list string) :
  StronglySorted (fun a b => String.leb a b = true) l ->
  StronglySorted (fun a b => String.leb a b = true) (insert_sorted s l).
Proof.
  induction l as [|x xs IH]; intros H; simpl.
  - repeat constructor.
  - apply StronglySorted_inv in H. destruct H as [Hxs Hx].
    destruct (String.leb s x) eqn:E.
    + constructor; [now constructor|]. constructor; [exact E|].
      eapply Forall_impl; [|exact Hx]. simpl. intros y Hy.
      now apply string_leb_trans with x.
    + constructor; [now apply IH|].
      assert (Hxs' : String.leb x s = true)
        by (destruct (String.leb_total s x); congruence).
      apply Forall_forall. intros y Hy.
      apply (Permutation_in _ (insert_sorted_perm s xs)) in Hy.
      destruct Hy as [<-|Hy]; [exact Hxs'|].
      rewrite Forall_forall in Hx. now apply Hx.
Qed.

Lemma list_sort_sorted (l : list string) :
  StronglySorted (fun a b => String.leb a b = true) (list_sort l).
Proof.
  induction l as [|x l IH]; simpl; [constructor | now apply insert_sorted_sorted].
Qed.

Lemma sorted_permutation_unique_on {X} (R : X -> X -> Prop) (l1 l2 : list X) :
  (forall x y, R x y -> R y x -> x = y) ->
  StronglySorted R l1 -> StronglySorted R l2 -> Permutation l1 l2 -> l1 = l2.
Proof.
  intros Hanti. revert l2. induction l1 as [|a l1 IH]; intros l2 H1 H2 Hp.
  - apply Permutation_nil in Hp. now subst.
  - destruct l2 as [|b l2]; [apply Permutation_sym, Permutation_nil in Hp; discriminate|].
    apply StronglySorted_inv in H1. destruct H1 as [H1 Ha].
    apply StronglySorted_inv in H2. destruct H2 as [H2 Hb].
    rewrite Forall_forall in Ha, Hb.
    assert (a = b) as ->.
    { assert (Ia : In a (b :: l2)) by (apply (Permutation_in _ Hp); now left).
      assert (Ib : In b (a :: l1)) by (apply (Permutation_in _ (Permutation_sym Hp)); now left).
      destruct Ia as [->|Ia]; [reflexivity|].
      destruct Ib as [->|Ib]; [reflexivity|].
      apply Hanti; auto. }
    f_equal. apply IH; try assumption. now apply Permutation_cons_inv in Hp.
Qed.

(** Sorting forgets the order the videos were listed in. *)
Lemma list_sort_of_permutation (l l' : list string) :
  Permutation l l' -> list_sort l = list_sort l'.
Proof.
  intros H.
  apply sorted_permutation_unique_on with (R := fun a b => String.leb a b = true).
  - intros x y Hxy Hyx. now apply String.leb_antisym.
  - apply list_sort_sorted.
  - apply list_sort_sorted.
  - eapply perm_trans; [apply list_sort_perm|].
    eapply perm_trans; [exact H | apply Permutation_sym, list_sort_perm].
Qed.

Section GetDatasetsMoreFacts.

Context {F : Type} {FA : FloatArith F}.
Variable randstate : Type.
Variables getRelRawPath getRelDatasetsPath : string -> string.
Variable path_join : string -> string -> string.
Variable load_json : string -> result (list string).
Variables glob glob' : string -> list string.
Variable shuffle : option randstate -> list string -> list string.

(** X6.  When the label file can be read, [_get_datasets] logs no warning
    and every dataset it returns carries the characters of the file joined
    into one string, not the hardcoded alphabet. *)
Theorem get_datasets_reads_labels (dataset_name : string) (train_split : F)
    (sentence : bool) (threshold : Q) (labels : string) (rand : option randstate)
    (chars : list string) :
  let labels_path := path_join (getRelRawPath dataset_name) labels in
  let r := run (_get_datasets getRelRawPath getRelDatasetsPath path_join load_json
                  glob shuffle dataset_name train_split sentence threshold labels rand) in
  load_json labels_path = Ok chars ->
  existsb is_warning (snd r) = false /\
  forall tr va te,
    fst r = Ok (tr, va, te) ->
    ds_labels tr = LabelStr (String.concat "" chars) /\
    ds_labels va = LabelStr (String.concat "" chars) /\
    ds_labels te = LabelStr (String.concat "" chars).
Proof.
  intros labels_path r Hload. unfold r.
  rewrite (@get_datasets_outcomes randstate getRelRawPath getRelDatasetsPath path_join
             load_json glob shuffle F FA dataset_name train_split sentence threshold
             labels rand).
  cbv zeta. unfold labels_stage. fold labels_path. rewrite Hload. cbn [fst snd app].
  destruct (0 <? _)%nat;
    [destruct (float_int _); [destruct (float_round _); [destruct (_ =? _)%Z|]|]|];
    cbn [fst snd]; split; try reflexivity; intros tr va te E; try discriminate.
  inversion E; subst. repeat split.
Qed.

(** X7.  The split is predictable: two listings of the dataset directory
    that hold the same videos in different orders give the same outcome,
    the same three datasets and the same log. *)
Theorem get_datasets_independent_of_listing_order (dataset_name : string)
    (train_split : F) (sentence : bool) (threshold : Q) (labels : string)
    (rand : option randstate) :
  Permutation (glob (path_join (getRelDatasetsPath dataset_name) "*"))
              (glob' (path_join (getRelDatasetsPath dataset_name) "*")) ->
  run (_get_datasets getRelRawPath getRelDatasetsPath path_join load_json glob shuffle
         dataset_name train_split sentence threshold labels rand)
  = run (_get_datasets getRelRawPath getRelDatasetsPath path_join load_json glob' shuffle
           dataset_name train_split sentence threshold labels rand).
Proof.
  intros Hperm.
  rewrite !get_datasets_outcomes. cbv zeta.
  rewrite (list_sort_of_permutation Hperm), (Permutation_length Hperm).
  reflexivity.
Qed.

End GetDatasetsMoreFacts.

Lemma get_datasets_reads_labels_witness :
  exists tr va te,
    run (_get_datasets raw_path datasets_path slash_join abc_label_file small_glob
           reversing_shuffle "StephenColbert/medium_no_vtx1" Fraction.default false (8 # 10)
           "labels.json" (Some tt))
    = (Ok (tr, va, te),
       [EvPrintBlank; EvPrintText "Dataset Information:";
        EvPrintLen "Train Dataset:" tr; EvPrintLen "Val Dataset:" va;
        EvPrintLen "Test Dataset:" te; EvPrintBlank]) /\
    ds_labels tr = LabelStr "abc" /\ ds_labels va = LabelStr "abc" /\
    ds_labels te = LabelStr "abc".
Proof.
  destruct (@get_datasets_reads_labels spec_float Double.arith unit raw_path datasets_path
              slash_join abc_label_file small_glob reversing_shuffle
              "StephenColbert/medium_no_vtx1" Fraction.default false (8 # 10) "labels.json"
              (Some tt) ["a"; "b"; "c"] eq_refl) as [_ H].
  eexists _, _, _. split; [vm_compute; reflexivity|].
  apply H. vm_compute. reflexivity.
Defined.

Lemma get_datasets_independent_of_listing_order_witness :
  small_run Fraction.default small_glob
  = small_run Fraction.default small_glob_listed_otherwise.
Proof.
  apply (@get_datasets_independent_of_listing_order spec_float Double.arith unit raw_path
           datasets_path slash_join no_label_file small_glob small_glob_listed_otherwise
           reversing_shuffle "StephenColbert/medium_no_vtx1" Fraction.default false
           (8 # 10) "labels.json" (Some tt)).
  eapply perm_trans; [apply Permutation_sym, list_sort_perm|].
  exact (list_sort_perm (small_glob_listed_otherwise "")).
Defined.

(** ** The shared logger *)

Section SharedLoggerFacts.

Variable logger : Type.
Variable getLogger : string -> pyval -> result logger.
Variable module_name : string.

Lemma shared_logger_reused (l : logger) (vs : list pyval) :
  for_each (_getSharedLogger getLogger module_name) vs (Some l)
  = (Ok (map (fun _ => l) vs), Some l).
Proof.
  induction vs as [|v vs IH]; [reflexivity|].
  cbn [for_each map]. unfold bind at 1. cbn [_getSharedLogger].
  unfold bind at 1. now rewrite IH.
Qed.

(** X8.  The logger is made once.  A call of [_getSharedLogger] that finds
    [_logger] unset makes the logger with the verbosity it was given and
    stores it (or raises what [_util.getLogger] raises and leaves [_logger]
    unset); a call that finds a logger returns that one.  After a call that
    returned, every later call returns the same logger and leaves [_logger]
    as it is, whatever verbosity it asks for. *)
Theorem shared_logger_is_created_once (v : pyval) (vs : list pyval)
    (s : option logger) :
  match _getSharedLogger getLogger module_name v s with
  | (Ok l, s') =>
      s' = Some l /\
      match s with
      | None => getLogger module_name v = Ok l
      | Some l0 => l = l0
      end /\
      for_each (_getSharedLogger getLogger module_name) vs s'
      = (Ok (map (fun _ => l) vs), s')
  | (Raise e, s') => s = None /\ s' = None /\ getLogger module_name v = Raise e
  end.
Proof.
  destruct s as [l0|]; cbn [_getSharedLogger].
  - repeat split. apply shared_logger_reused.
  - destruct (getLogger module_name v) as [l|e]; repeat split.
    apply shared_logger_reused.
Qed.

End SharedLoggerFacts.

(** The warning of [_get_datasets] asks for the default verbosity; after a
    first call with verbosity 3 it is served the logger made with 3. *)
Example shared_logger_keeps_first_verbosity :
  for_each (_getSharedLogger plain_logger "train") [PyInt 3; PyInt 1; PyInt 5] None
  = (Ok [("train", PyInt 3); ("train", PyInt 3); ("train", PyInt 3)],
     Some ("train", PyInt 3)).
Proof. reflexivity. Qed.

(** * Further properties of the encoder *)

Section EncoderMoreFacts.

Variable A : Type.
Variable zero : A.
Variable torch_sort : bool -> list Z -> list Z * list nat.
Variable rnn_sample : list (vec A) -> rnn_out A.

Hypothesis sort_indices :
  forall (d : bool) (l : list Z),
    Permutation (snd (torch_sort d l)) (seq 0 (List.length l)).
Hypothesis sort_values :
  forall (d : bool) (l : list Z),
    fst (torch_sort d l) = gather 0%Z l (snd (torch_sort d l)).
Hypothesis sort_order :
  forall (d : bool) (l : list Z),
    Sorted (if d then Z.ge else Z.le) (fst (torch_sort d l)).

Lemma padded_length_is_max (lens : list Z) :
  Forall (fun l => (0 < l)%Z) lens ->
  hd 0%nat (map Z.to_nat (fst (torch_sort true lens))) = Z.to_nat (max_length lens).
Proof.
  intros Hpos. rewrite <- (@sorted_head_is_max torch_sort sort_indices sort_values
                             sort_order lens Hpos).
  now destruct (fst (torch_sort true lens)).
Qed.

(** X9.  [forward] sample by sample.  On a batch with one length per
    sample, whenever [forward] returns, the batch is not empty and every
    length is positive and within the frames of its sample; the hidden
    states of sample [i] are what the network computes on the first
    [frame_lens[i]] frames of that sample alone, followed by rows of zeros
    up to the longest length of the batch, and the final state is the one
    of the samples' valid frames, in batch order. *)
Theorem encoder_forward_per_sample (self : VideoEncoder) (frames : tensor3 A)
    (lens : list Z) :
  List.length frames = List.length lens ->
  match VideoEncoder_forward zero torch_sort rnn_sample self frames lens with
  | Ok (hidden_states, state) =>
      valid_batch frames lens = true /\
      List.length hidden_states = List.length lens /\
      state = batch_state self (map rnn_sample (prefixes frames lens)) /\
      forall (i : nat) (f : mat A) (len : Z),
        nth_error frames i = Some f ->
        nth_error lens i = Some len ->
        let out := out_seq (rnn_sample (firstn (Z.to_nat len) f)) in
        nth_error hidden_states i
        = Some (out ++ repeat (repeat zero (num_dir self * hidden_size self))
                         (Z.to_nat (max_length lens) - List.length out))
  | Raise _ => True
  end.
Proof.
  intros Hlen.
  destruct (@forward_sorting_transparent A zero torch_sort rnn_sample sort_indices
              sort_values sort_order self frames lens Hlen) as [Hok Hbad].
  destruct (valid_batch frames lens) eqn:Hv.
  - rewrite (Hok eq_refl). unfold forward_in_batch_order.
    destruct (valid_batch_inv _ _ Hv) as (Hne & Hpos & Hfit).
    rewrite (padded_length_is_max Hpos).
    split; [reflexivity|]. split.
    { unfold batch_hidden, prefixes.
      now rewrite !length_map, length_combine, Hlen, Nat.min_id. }
    split; [reflexivity|].
    intros i f len Hf Hl. cbv zeta. unfold batch_hidden, prefixes.
    rewrite !nth_error_map, (nth_error_combine _ _ _ Hf Hl). reflexivity.
  - destruct (Hbad eq_refl) as [e He]. rewrite He. exact I.
Qed.

Lemma valid_batch_of_prefixes (frames frames' : tensor3 A) (lens : list Z) :
  List.length frames = List.length lens ->
  List.length frames' = List.length lens ->
  prefixes frames lens = prefixes frames' lens ->
  valid_batch frames lens = valid_batch frames' lens.
Proof.
  intros Hlen Hlen' Hpre. unfold valid_batch. f_equal.
  revert frames frames' Hlen Hlen' Hpre.
  induction lens as [|len lens IH]; intros [|f frames] [|f' frames'] Hlen Hlen' Hpre;
    simpl in *; try discriminate; [reflexivity|].
  unfold prefixes in Hpre. simpl in Hpre. injection Hpre as Hf Hrest.
  f_equal.
  - apply (f_equal (@List.length (vec A))) in Hf. rewrite !length_firstn in Hf.
    destruct (Z.leb_spec len (Z.of_nat (List.length f)));
      destruct (Z.leb_spec len (Z.of_nat (List.length f'))); try reflexivity; lia.
  - apply IH; [lia | lia | exact Hrest].
Qed.

(** X10.  The frames past a sample's length have no part in the outcome:
    two batches with the same lengths whose samples agree on their valid
    frames are encoded alike, or are both refused. *)
Theorem encoder_forward_ignores_padding (self : VideoEncoder)
    (frames frames' : tensor3 A) (lens : list Z) :
  List.length frames = List.length lens ->
  List.length frames' = List.length lens ->
  prefixes frames lens = prefixes frames' lens ->
  match VideoEncoder_forward zero torch_sort rnn_sample self frames lens with
  | Ok out => VideoEncoder_forward zero torch_sort rnn_sample self frames' lens = Ok out
  | Raise _ =>
      is_ok (VideoEncoder_forward zero torch_sort rnn_sample self frames' lens) = false
  end.
Proof.
  intros Hlen Hlen' Hpre.
  destruct (@forward_sorting_transparent A zero torch_sort rnn_sample sort_indices
              sort_values sort_order self frames lens Hlen) as [Hok Hbad].
  destruct (@forward_sorting_transparent A zero torch_sort rnn_sample sort_indices
              sort_values sort_order self frames' lens Hlen') as [Hok' Hbad'].
  rewrite <- (@valid_batch_of_prefixes frames frames' lens Hlen Hlen' Hpre) in Hok', Hbad'.
  destruct (valid_batch frames lens).
  - rewrite (Hok eq_refl), (Hok' eq_refl). unfold forward_in_batch_order.
    now rewrite Hpre.
  - destruct (Hbad eq_refl) as [e He]. destruct (Hbad' eq_refl) as [e' He'].
    now rewrite He, He'.
Qed.

Lemma state_rows_shape (self : VideoEncoder) (pick : rnn_out A -> list (vec A))
    (outs : list (rnn_out A)) :
  bidirectional self = false ->
  Forall (fun o => List.length (pick o) = (num_layers self * 1)%nat /\
                   Forall (fun v : vec A => List.length v = hidden_size self) (pick o)) outs ->
  has_shape3 (final_rows self pick outs) (num_layers self) (List.length outs)
             (hidden_size self).
Proof.
  intros Hb Hpick. unfold final_rows, has_shape3. rewrite Hb.
  split; [now rewrite length_map, length_seq|].
  apply Forall_forall. intros row Hrow. apply in_map_iff in Hrow.
  destruct Hrow as (k & <- & Hk). apply in_seq in Hk.
  unfold state_row. split; [apply length_map|].
  apply Forall_forall. intros v Hv. apply in_map_iff in Hv.
  destruct Hv as (o & <- & Ho).
  rewrite Forall_forall in Hpick. destruct (Hpick o Ho) as [Hlen Hvec].
  rewrite Forall_forall in Hvec. apply Hvec. apply nth_In. lia.
Qed.

(** X11.  A unidirectional encoder on a batch that can be packed, with a
    network whose outputs have the documented sizes: the hidden states have
    shape (batch, longest length, hidden_size), and the final state is one
    tensor, or for an LSTM a pair of tensors, of shape
    (num_layers, batch, hidden_size) whose entry for layer [k] and sample
    [i] is the network's own final state of that layer on the valid frames
    of that sample: nothing is joined. *)
Theorem encoder_unidirectional_shapes (self : VideoEncoder) (frames : tensor3 A)
    (lens : list Z) :
  bidirectional self = false ->
  rnn_output_shapes rnn_sample self ->
  List.length frames = List.length lens ->
  valid_batch frames lens = true ->
  exists hidden_states state,
    VideoEncoder_forward zero torch_sort rnn_sample self frames lens
    = Ok (hidden_states, state) /\
    has_shape3 hidden_states (List.length lens) (Z.to_nat (max_length lens))
               (hidden_size self) /\
    state_has_shape state (num_layers self) (List.length lens) (hidden_size self) /\
    (is_tuple state = true <-> enc_rnn_type self = LSTM) /\
    forall (k i : nat) (f : mat A) (len : Z),
      (k < num_layers self)%nat ->
      nth_error frames i = Some f ->
      nth_error lens i = Some len ->
      let o := rnn_sample (firstn (Z.to_nat len) f) in
      match state with
      | StateTensor h => nth i (nth k h []) [] = nth k (h_n o) []
      | StateTuple h c =>
          nth i (nth k h []) [] = nth k (h_n o) [] /\
          nth i (nth k c []) [] = nth k (c_n o) []
      end.
Proof.
  intros Hb Hrnn Hlen Hv.
  destruct (@forward_sorting_transparent A zero torch_sort rnn_sample sort_indices
              sort_values sort_order self frames lens Hlen) as [Hok _].
  destruct (valid_batch_inv _ _ Hv) as (Hne & Hpos & Hfit).
  eexists _, _. split; [rewrite (Hok Hv); reflexivity|].
  set (outs := map rnn_sample (prefixes frames lens)).
  assert (Hn : List.length outs = List.length lens).
  { unfold outs, prefixes. now rewrite !length_map, length_combine, Hlen, Nat.min_id. }
  rewrite (padded_length_is_max Hpos).
  assert (Hnd : num_dir self = 1%nat) by (unfold num_dir; now rewrite Hb).
  split.
  { unfold has_shape3, batch_hidden. split; [fold outs; now rewrite length_map|].
    apply Forall_forall. intros m Hm. apply in_map_iff in Hm.
    destruct Hm as (o & <- & Ho). apply in_map_iff in Ho.
    destruct Ho as (s & <- & Hs). destruct (Hrnn s) as (Hlen_o & Hw & _).
    rewrite Hnd, Nat.mul_1_l in *.
    unfold pad_to. rewrite length_app, repeat_length, Hlen_o. split.
    - unfold prefixes in Hs. apply in_map_iff in Hs. destruct Hs as (q & <- & Hq).
      rewrite Forall_forall in Hfit. specialize (Hfit q Hq).
      destruct (max_length_bounds lens) as [_ Hmax]. rewrite Forall_forall in Hmax.
      assert (Hq2 : In (snd q) lens).
      { destruct q as [f l]. apply in_combine_r in Hq. exact Hq. }
      specialize (Hmax _ Hq2). rewrite length_firstn. lia.
    - apply Forall_app. split; [exact Hw|].
      apply Forall_forall. intros v Hv'. apply repeat_spec in Hv'. subst v.
      apply repeat_length. }
  assert (Hpick : forall pick, (pick = @h_n A \/ pick = @c_n A) ->
            has_shape3 (final_rows self pick outs) (num_layers self) (List.length lens)
                       (hidden_size self)).
  { intros pick Hp. rewrite <- Hn. apply state_rows_shape; [exact Hb|].
    apply Forall_forall. intros o Ho. unfold outs in Ho. apply in_map_iff in Ho.
    destruct Ho as (s & <- & _). destruct (Hrnn s) as (_ & _ & H1 & H2 & H3 & H4).
    rewrite Hnd in *. destruct Hp as [->| ->]; now split. }
  assert (Hentry : forall pick (k i : nat) (f : mat A) (len : Z),
            (k < num_layers self)%nat ->
            nth_error frames i = Some f -> nth_error lens i = Some len ->
            nth i (nth k (final_rows self pick outs) []) []
            = nth k (pick (rnn_sample (firstn (Z.to_nat len) f))) []).
  { intros pick k i f len Hk Hf Hl. unfold final_rows. rewrite Hb.
    rewrite (nth_indep _ [] (state_row pick outs 0))
      by (now rewrite length_map, length_seq).
    rewrite (map_nth (state_row pick outs) (seq 0 (num_layers self)) 0%nat k).
    rewrite seq_nth by exact Hk. cbn [Nat.add]. unfold state_row.
    apply nth_error_nth. rewrite nth_error_map. unfold outs, prefixes.
    rewrite !nth_error_map, (nth_error_combine _ _ _ Hf Hl). reflexivity. }
  fold outs. unfold batch_state.
  destruct (enc_rnn_type self); cbn [state_has_shape is_tuple];
    repeat split; try (apply Hpick; auto); try congruence; try discriminate;
    intros; now apply Hentry.
Qed.

End EncoderMoreFacts.

Lemma encoder_forward_per_sample_witness :
  exists hidden_states state,
    VideoEncoder_forward 0%Z insertion_sort echo_rnn plain_encoder two_samples [5; 3]%Z
    = Ok (hidden_states, state) /\
    nth_error hidden_states 1 = Some (map (fun t => repeat t 4) [6; 7; 8; 0; 0]%Z).
Proof.
  pose proof (@encoder_forward_per_sample Z 0%Z insertion_sort echo_rnn
                insertion_sort_indices insertion_sort_values insertion_sort_order
                plain_encoder two_samples [5; 3]%Z eq_refl) as H.
  revert H.
  destruct (VideoEncoder_forward 0%Z insertion_sort echo_rnn plain_encoder two_samples
              [5; 3]%Z) as [[hidden_states state]|e] eqn:E; intros H.
  - destruct H as (_ & _ & _ & Hrow).
    exists hidden_states, state. split; [reflexivity|].
    rewrite (Hrow 1%nat _ 3%Z eq_refl eq_refl). vm_compute. reflexivity.
  - vm_compute in E. discriminate E.
Defined.

Lemma encoder_forward_ignores_padding_witness :
  is_ok (VideoEncoder_forward 0%Z insertion_sort echo_rnn plain_encoder two_samples
           [5; 3]%Z) = true /\
  VideoEncoder_forward 0%Z insertion_sort echo_rnn plain_encoder
    two_samples_padded_otherwise [5; 3]%Z
  = VideoEncoder_forward 0%Z insertion_sort echo_rnn plain_encoder two_samples [5; 3]%Z.
Proof.
  split; [vm_compute; reflexivity|].
  pose proof (@encoder_forward_ignores_padding Z 0%Z insertion_sort echo_rnn
                insertion_sort_indices insertion_sort_values insertion_sort_order
                plain_encoder two_samples two_samples_padded_otherwise [5; 3]%Z
                eq_refl eq_refl eq_refl) as H.
  revert H.
  destruct (VideoEncoder_forward 0%Z insertion_sort echo_rnn plain_encoder two_samples
              [5; 3]%Z) as [out|e]; intros H.
  - exact H.
  - vm_compute in H. discriminate H.
Defined.

Lemma encoder_unidirectional_shapes_witness :
  exists hidden_states state,
    VideoEncoder_forward 0%Z insertion_sort (counting_rnn 1 1 4) plain_encoder
      two_samples [5; 3]%Z
    = Ok (hidden_states, state) /\
    has_shape3 hidden_states 2 5 4 /\
    state_has_shape state 1 2 4 /\
    is_tuple state = false.
Proof.
  destruct (@encoder_unidirectional_shapes Z 0%Z insertion_sort (counting_rnn 1 1 4)
              insertion_sort_indices insertion_sort_values insertion_sort_order
              plain_encoder two_samples [5; 3]%Z eq_refl
              (counting_rnn_shapes plain_encoder) eq_refl eq_refl)
    as (hs & st & Hrun & Hhid & Hstate & Htuple & _).
  exists hs, st. split; [exact Hrun|]. split; [exact Hhid|]. split; [exact Hstate|].
  destruct (is_tuple st); [|reflexivity].
  destruct Htuple as [Ht _]. discriminate (Ht eq_refl).
Defined.

(** ** [_cat_directions] *)

Section CatDirections.

Variable A : Type.

Lemma list_pair_ind {X} (P : list X -> Prop) :
  P [] -> (forall x, P [x]) -> (forall x y l, P l -> P (x :: y :: l)) ->
  forall l, P l.
Proof.
  intros H0 H1 H2. fix IH 1. intros [|x [|y l]]; [exact H0 | apply H1 | apply H2, IH].
Qed.

(** X12.  [_cat] on a state whose rows all hold [batch] samples: a state
    with an even number of rows comes back with half as many, row [j]
    holding, sample by sample, the features of row [2j] followed by those
    of row [2j + 1]; a state with an odd number of rows is refused. *)
Theorem cat_joins_rows_in_pairs (s : tensor3 A) (batch : nat) :
  Forall (fun m : mat A => List.length m = batch) s ->
  if Nat.even (List.length s)
  then exists t,
         _cat s = Ok t /\
         List.length t = (List.length s / 2)%nat /\
         forall j, (j < List.length s / 2)%nat ->
           nth j t [] = map2 (@app A) (nth (2 * j) s []) (nth (2 * j + 1) s [])
  else exists e, _cat s = Raise e.
Proof.
  induction s as [| x | x y s IH] using list_pair_ind; intros Hs.
  - exists []. repeat split. intros j Hj. cbn in Hj. lia.
  - eexists. reflexivity.
  - inversion Hs as [|? ? Hx Hs1]; subst. inversion Hs1 as [|? ? Hy Hs2]; subst.
    specialize (IH Hs2).
    assert (Hcat : _cat (x :: y :: s)
                   = (w <- zip_exact (fun u v : vec A => Ok (u ++ v)) x y ;;
                      rest <- _cat s ;; Ok (w :: rest))%res).
    { unfold _cat, cat_dim2. destruct s; reflexivity. }
    rewrite Hcat, (zip_exact_pure (@app A)) by congruence. cbn [rbind].
    change (List.length (x :: y :: s)) with (S (S (List.length s))).
    cbn [Nat.even].
    assert (Hhalf : (S (S (List.length s)) / 2 = S (List.length s / 2))%nat).
    { replace (S (S (List.length s))) with (List.length s + 1 * 2)%nat by lia.
      rewrite Nat.div_add by lia. lia. }
    destruct (Nat.even (List.length s)).
    + destruct IH as (t & Ht & Hlen & Hrows). rewrite Ht. cbn [rbind].
      eexists. split; [reflexivity|]. split; [cbn [List.length]; lia|].
      intros [|j] Hj; [reflexivity|].
      replace (2 * S j)%nat with (S (S (2 * j))) by lia.
      cbn [nth Nat.add]. apply Hrows. lia.
    + destruct IH as (e & He). rewrite He. eexists. reflexivity.
Qed.

End CatDirections.

Lemma cat_joins_rows_in_pairs_witness :
  _cat [[[1; 2]; [3; 4]]; [[5; 6]; [7; 8]]]%Z = Ok [[[1; 2; 5; 6]; [3; 4; 7; 8]]]%Z.
Proof.
  assert (Hs : Forall (fun m : mat Z => List.length m = 2%nat)
                 [[[1; 2]; [3; 4]]; [[5; 6]; [7; 8]]]%Z) by (repeat constructor).
  destruct (cat_joins_rows_in_pairs Hs) as (t & Ht & _ & _).
  rewrite Ht. vm_compute in Ht. symmetry. exact Ht.
Defined.

(** * Further properties of the decoder *)

(** ** The lengths and the characters handed to [forward] *)

Section ForwardInputFacts.

Context {A : Type} {SA : Scalar A}.
Variable State : Type.

Lemma mapM_ok_on {X Y} (f : X -> result Y) (g : X -> Y) (l : list X) :
  (forall x, In x l -> f x = Ok (g x)) -> mapM f l = Ok (map g l).
Proof.
  induction l as [|x l IH]; intros H; simpl; [reflexivity|].
  rewrite (H x) by now left. cbn [rbind].
  rewrite IH by (intros; apply H; now right). reflexivity.
Qed.

(** One length for a whole batch: the mask repeats its row for every
    sample. *)
Lemma make_encoder_mask_single (batch_size T : nat) (len : Z) :
  make_encoder_mask batch_size T [len] = Ok (repeat (mask_row T len) batch_size).
Proof.
  unfold make_encoder_mask.
  assert (Hrow : bzip (fun (t : nat) (l : Z) => Ok (Z.of_nat t <? l)%Z) (seq 0 T) [len]
                 = Ok (mask_row T len)) by apply bzip_single.
  destruct batch_size as [|[|n]].
  - reflexivity.
  - cbn [repeat map bzip List.length Nat.eqb zip_exact]. rewrite Hrow. reflexivity.
  - unfold bzip at 1. cbn [repeat map List.length Nat.eqb].
    rewrite (mapM_ok_on _ (fun _ => mask_row T len))
      by (intros x Hx;
          change (In x (repeat (seq 0 T) (S (S n)))) in Hx;
          apply repeat_spec in Hx; subst x; exact Hrow).
    cbn [map]. now rewrite map_const, repeat_length.
Qed.

Lemma make_encoder_mask_mismatch (batch_size T : nat) (lens : list Z) :
  List.length lens <> batch_size -> List.length lens <> 1%nat -> batch_size <> 1%nat ->
  make_encoder_mask batch_size T lens
  = Raise (RuntimeError "The size of tensor a must match the size of tensor b").
Proof.
  intros H1 H2 H3. unfold make_encoder_mask, bzip at 1.
  rewrite repeat_length, length_map.
  destruct (Nat.eqb_spec batch_size (List.length lens)) as [E|_]; [congruence|].
  destruct batch_size as [|[|n]]; destruct lens as [|l [|l' lens]];
    cbn in *; congruence.
Qed.

(** X13.  [forward] on lengths that do not fit the batch: with a number of
    characters other than one, and a number of encoder lengths that is
    neither one nor the number of characters, the comparison of line 111
    raises and nothing else is computed. *)
Theorem forward_rejects_mismatched_lengths (self : CharDecoder State) (char : list Z)
    (previous_state : State) (encoder_lens : list Z)
    (encoder_hidden_states : tensor3 A) :
  List.length encoder_lens <> List.length char ->
  List.length encoder_lens <> 1%nat ->
  List.length char <> 1%nat ->
  CharDecoder_forward self char previous_state encoder_lens encoder_hidden_states
  = Raise (RuntimeError "The size of tensor a must match the size of tensor b").
Proof.
  intros H1 H2 H3. unfold CharDecoder_forward.
  now rewrite make_encoder_mask_mismatch.
Qed.

(** X14.  A single encoder length is applied to every sample: with one
    entry in [encoder_lens], the attention weights of each sample of the
    batch are those for that length. *)
Theorem attention_weights_broadcast_single_length (T : nat) (len : Z) (logits : mat A) :
  Forall (fun row => List.length row = T) logits ->
  attention_weights (List.length logits) T [len] logits
  = Ok (map (fun x => masked_row T x len) logits).
Proof.
  intros Hrows. unfold attention_weights.
  rewrite make_encoder_mask_single. cbn [rbind].
  pose proof (@masked_softmax_paired A SA T (map (fun x => (x, len)) logits)) as H.
  rewrite !map_map in H. cbn [fst snd] in H.
  rewrite map_id, map_const in H. rewrite H by
    (intros p Hp; apply in_map_iff in Hp; destruct Hp as (x & <- & Hx);
     rewrite Forall_forall in Hrows; now apply Hrows).
  reflexivity.
Qed.

Lemma embedding_lookup_raises (table : mat A) (char : list Z) :
  Exists (fun c => (c < 0)%Z \/ (Z.of_nat (List.length table) <= c)%Z) char ->
  embedding_lookup table char = Raise (IndexError "index out of range in self").
Proof.
  unfold embedding_lookup. induction char as [|c char IH]; intros H.
  - inversion H.
  - cbn [mapM]. destruct (Z.ltb_spec c 0) as [Hneg|Hnn]; [reflexivity|].
    destruct (nth_error table (Z.to_nat c)) as [row|] eqn:E; [|reflexivity].
    cbn [rbind]. rewrite IH; [reflexivity|].
    inversion H as [? ? Hc|? ? Hrest]; subst; [|exact Hrest].
    exfalso. assert (Hlt : (Z.to_nat c < List.length table)%nat)
      by (apply nth_error_Some; congruence).
    lia.
Qed.

Lemma embedding_lookup_returns (table : mat A) (char : list Z) :
  Forall (fun c => (0 <= c < Z.of_nat (List.length table))%Z) char ->
  is_ok (embedding_lookup table char) = true.
Proof.
  unfold embedding_lookup. induction 1 as [|c char Hc _ IH]; [reflexivity|].
  cbn [mapM]. destruct (Z.ltb_spec c 0) as [Hneg|Hnn]; [lia|].
  destruct (nth_error table (Z.to_nat c)) as [row|] eqn:E.
  - cbn [rbind]. destruct (mapM _ char); [reflexivity | discriminate].
  - apply nth_error_None in E. lia.
Qed.

(** X15.  The embedding table bounds the characters although its rows are
    not used: when the lengths fit the batch, a character index that is
    negative or not below the number of rows of the table makes [forward]
    raise [IndexError] before the recurrent network is run; indices within
    the table pass the lookup. *)
Theorem forward_rejects_unknown_characters (self : CharDecoder State) (char : list Z)
    (previous_state : State) (encoder_lens : list Z)
    (encoder_hidden_states : tensor3 A) :
  is_ok (make_encoder_mask (List.length char)
           (List.length (hd [] encoder_hidden_states)) encoder_lens) = true ->
  (Exists (fun c => (c < 0)%Z \/ (Z.of_nat (List.length (embedding self)) <= c)%Z) char ->
   CharDecoder_forward self char previous_state encoder_lens encoder_hidden_states
   = Raise (IndexError "index out of range in self")) /\
  (Forall (fun c => (0 <= c < Z.of_nat (List.length (embedding self)))%Z) char ->
   is_ok (embedding_lookup (embedding self) char) = true).
Proof.
  intros Hmask. split; [|apply embedding_lookup_returns].
  intros Hc. unfold CharDecoder_forward.
  destruct (make_encoder_mask _ _ _); [|discriminate]. cbn [rbind].
  now rewrite embedding_lookup_raises.
Qed.

End ForwardInputFacts.

Lemma forward_rejects_mismatched_lengths_witness :
  CharDecoder_forward (small_decoder lenient_network) [1; 0]%Z tt [1; 1; 1]%Z
    [[[Lit 3]]; [[Lit 4]]]
  = Raise (RuntimeError "The size of tensor a must match the size of tensor b").
Proof.
  apply (@forward_rejects_mismatched_lengths expr expr_scalar unit
           (small_decoder lenient_network) [1; 0]%Z tt [1; 1; 1]%Z
           [[[Lit 3]]; [[Lit 4]]]); discriminate.
Defined.

Lemma attention_weights_broadcast_single_length_witness :
  attention_weights 2 2 [1%Z] [[Lit 1; Lit 2]; [Lit 3; Lit 4]]
  = Ok [masked_row 2 [Lit 1; Lit 2] 1%Z; masked_row 2 [Lit 3; Lit 4] 1%Z].
Proof.
  assert (Hshape : Forall (fun row : vec expr => List.length row = 2%nat)
                     [[Lit 1; Lit 2]; [Lit 3; Lit 4]])
    by (repeat constructor).
  exact (@attention_weights_broadcast_single_length expr expr_scalar 2 1%Z
           [[Lit 1; Lit 2]; [Lit 3; Lit 4]] Hshape).
Defined.

Lemma forward_rejects_unknown_characters_witness :
  CharDecoder_forward (small_decoder lenient_network) [2%Z] tt [1%Z] [[[Lit 3]]]
  = Raise (IndexError "index out of range in self") /\
  is_ok (embedding_lookup (embedding (small_decoder lenient_network)) [1%Z]) = true.
Proof.
  destruct (@forward_rejects_unknown_characters expr expr_scalar unit
              (small_decoder lenient_network) [2%Z] tt [1%Z] [[[Lit 3]]] eq_refl)
    as [Hbad _].
  destruct (@forward_rejects_unknown_characters expr expr_scalar unit
              (small_decoder lenient_network) [1%Z] tt [1%Z] [[[Lit 3]]] eq_refl)
    as [_ Hgood].
  split.
  - apply Hbad. constructor. right. cbn. lia.
  - apply Hgood. constructor; [cbn; lia | constructor].
Defined.

(** ** Padding and the attention *)

Section ContextStages.

Context {A : Type} {SA : Scalar A}.
Variable State : Type.

Lemma nth_error_combine_match {X Y} (a : list X) (b : list Y) (i : nat) :
  nth_error (combine a b) i
  = match nth_error a i, nth_error b i with
    | Some x, Some y => Some (x, y)
    | _, _ => None
    end.
Proof.
  revert b i. induction a as [|x a IH]; intros [|y b] [|i]; simpl; try reflexivity.
  - destruct (nth_error a i); reflexivity.
  - apply IH.
Qed.

Lemma nth_error_map2 {X Y W} (f : X -> Y -> W) (a : list X) (b : list Y) (i : nat) :
  nth_error (map2 f a b) i
  = match nth_error a i, nth_error b i with
    | Some x, Some y => Some (f x y)
    | _, _ => None
    end.
Proof.
  unfold map2. rewrite nth_error_map, nth_error_combine_match.
  destruct (nth_error a i), (nth_error b i); reflexivity.
Qed.

Lemma in_map2 {X Y W} (f : X -> Y -> W) (a : list X) (b : list Y) (w : W) :
  In w (map2 f a b) ->
  exists i x y, nth_error a i = Some x /\ nth_error b i = Some y /\ w = f x y.
Proof.
  intros H. apply In_nth_error in H. destruct H as [i Hi].
  rewrite nth_error_map2 in Hi.
  destruct (nth_error a i) as [x|] eqn:Ea; [|discriminate].
  destruct (nth_error b i) as [y|] eqn:Eb; [|discriminate].
  exists i, x, y. repeat split; congruence.
Qed.

Lemma map2_in {X Y W} (f : X -> Y -> W) (a : list X) (b : list Y) (i : nat)
    (x : X) (y : Y) :
  nth_error a i = Some x -> nth_error b i = Some y -> In (f x y) (map2 f a b).
Proof.
  intros Ha Hb. apply nth_error_In with i. now rewrite nth_error_map2, Ha, Hb.
Qed.

Lemma zip_exact_ok_length {X Y W} (f : X -> Y -> result W) (a : list X) (b : list Y)
    (r : list W) :
  zip_exact f a b = Ok r -> List.length a = List.length b.
Proof.
  revert b r. induction a as [|x a IH]; intros [|y b] r H; simpl in H;
    try discriminate; [reflexivity|].
  invert_rbind H as w Hw. invert_rbind H as rest Hrest.
  simpl. f_equal. eapply IH. exact Hrest.
Qed.

Lemma zip_exact_ok_nth {X Y W} (f : X -> Y -> result W) (a : list X) (b : list Y)
    (r : list W) :
  zip_exact f a b = Ok r ->
  forall i x y, nth_error a i = Some x -> nth_error b i = Some y ->
    is_ok (f x y) = true.
Proof.
  revert b r. induction a as [|x a IH]; intros [|y b] r H i x0 y0 Hx Hy;
    simpl in H; try discriminate.
  - destruct i; discriminate.
  - invert_rbind H as w Hw. invert_rbind H as rest Hrest.
    destruct i as [|i]; simpl in Hx, Hy.
    + inversion Hx; inversion Hy; subst. now rewrite Hw.
    + eapply IH; eassumption.
Qed.

Lemma zip_exact_build {X Y W} (f : X -> Y -> result W) (g : X -> Y -> W)
    (a : list X) (b : list Y) :
  List.length a = List.length b ->
  (forall i x y, nth_error a i = Some x -> nth_error b i = Some y ->
     f x y = Ok (g x y)) ->
  zip_exact f a b = Ok (map2 g a b).
Proof.
  revert b. induction a as [|x a IH]; intros [|y b] Hlen H; simpl in *;
    try discriminate; [reflexivity|].
  rewrite (H 0%nat x y eq_refl eq_refl). cbn [rbind].
  rewrite IH; [reflexivity | lia | intros i; apply (H (S i))].
Qed.

Lemma cat_dim2_inv (a b r : tensor3 A) :
  cat_dim2 a b = Ok r ->
  List.length a = List.length b /\
  forall i (x y : mat A), nth_error a i = Some x -> nth_error b i = Some y ->
    List.length x = List.length y.
Proof.
  unfold cat_dim2. intros H. split; [eapply zip_exact_ok_length; exact H|].
  intros i x y Hx Hy.
  pose proof (zip_exact_ok_nth _ _ _ H i Hx Hy) as Hok.
  destruct (zip_exact (fun u v : vec A => Ok (u ++ v)) x y) as [w|] eqn:E;
    [|discriminate].
  eapply zip_exact_ok_length. exact E.
Qed.

Lemma cat_dim2_build (a b : tensor3 A) :
  List.length a = List.length b ->
  (forall i (x y : mat A), nth_error a i = Some x -> nth_error b i = Some y ->
     List.length x = List.length y) ->
  cat_dim2 a b = Ok (map2 (map2 (@app A)) a b).
Proof.
  intros Hlen H. unfold cat_dim2. apply zip_exact_build; [exact Hlen|].
  intros i x y Hx Hy. apply zip_exact_pure. eapply H; eassumption.
Qed.

Lemma mapM_ok_in {X Y} (f : X -> result Y) (l : list X) (r : list Y) :
  mapM f l = Ok r -> forall x, In x l -> is_ok (f x) = true.
Proof.
  revert r. induction l as [|x l IH]; intros r H x0 Hx; [destruct Hx|].
  simpl in H. invert_rbind H as y Hy. invert_rbind H as rest Hrest.
  destruct Hx as [<-|Hx]; [now rewrite Hy | eapply IH; eassumption].
Qed.

Lemma attn_scores_inv (l : Linear1) (x : tensor3 A) (r : mat A) :
  attn_scores l x = Ok r ->
  forall m v, In m x -> In v m -> List.length v = in_features1 l.
Proof.
  unfold attn_scores. intros H m v Hm Hv.
  pose proof (mapM_ok_in _ _ H m Hm) as Hrow.
  destruct (mapM _ m) as [row|] eqn:E; [|discriminate].
  pose proof (mapM_ok_in _ _ E v Hv) as Hvec. cbv beta in Hvec.
  destruct (Nat.eqb_spec (List.length v) (in_features1 l)); [assumption | discriminate].
Qed.

Lemma attn_scores_build (l : Linear1) (x : tensor3 A) :
  (forall m v, In m x -> In v m -> List.length v = in_features1 l) ->
  attn_scores l x
  = Ok (map (map (fun v => s_add (dot (weight1 l) v) (bias1 l))) x).
Proof.
  intros H. unfold attn_scores. apply mapM_ok_on. intros m Hm.
  apply mapM_ok_on. intros v Hv. now rewrite (H m v Hm Hv), Nat.eqb_refl.
Qed.

Lemma bmm_rows (W : mat A) (enc : tensor3 A) :
  List.length W = List.length enc ->
  (forall i (w : vec A) (m : mat A), nth_error W i = Some w -> nth_error enc i = Some m ->
     List.length w = List.length m) ->
  bmm (map (fun row => [row]) W) enc = Ok (map2 (fun w m => [vec_mat w m]) W enc).
Proof.
  unfold bmm. revert enc. induction W as [|w W IH]; intros [|m enc] Hlen H;
    simpl in *; try discriminate; [reflexivity|].
  rewrite (H 0%nat w m eq_refl eq_refl), Nat.eqb_refl. cbn [rbind].
  rewrite IH; [reflexivity | lia | intros i; apply (H (S i))].
Qed.

Lemma expand_as_dims (h : tensor) (o o' : tensor3 A) :
  List.length o = List.length o' ->
  List.length (hd [] o) = List.length (hd [] o') ->
  List.length (hd [] (hd [] o)) = List.length (hd [] (hd [] o')) ->
  expand_as h o = expand_as h o'.
Proof. intros H0 H1 H2. unfold expand_as. now rewrite H0, H1, H2. Qed.

Lemma dims_of_shape (t t' : tensor3 A) (d0 d1 d2 : nat) :
  has_shape3 t d0 d1 d2 -> has_shape3 t' d0 d1 d2 ->
  List.length t = List.length t' /\
  List.length (hd [] t) = List.length (hd [] t') /\
  List.length (hd [] (hd [] t)) = List.length (hd [] (hd [] t')).
Proof.
  intros [H0 H] [H0' H']. split; [congruence|].
  destruct t as [|m t]; destruct t' as [|m' t']; simpl in *; try lia.
  inversion H as [|? ? [Hm Hv] _]; subst. inversion H' as [|? ? [Hm' Hv'] _]; subst.
  split; [congruence|].
  destruct m as [|v m]; destruct m' as [|v' m']; simpl in *; try lia.
  inversion Hv; inversion Hv'; subst. congruence.
Qed.

(** [forward] computes its context with [attention_context]: lines 111 and
    123-129 are that stage, run on the output of the recurrent network. *)
Lemma forward_through_context (self : CharDecoder State) (char : list Z)
    (previous_state : State) (encoder_lens : list Z)
    (encoder_hidden_states : tensor3 A) :
  CharDecoder_forward self char previous_state encoder_lens encoder_hidden_states
  = (let batch_size := List.length char in
     let en_seq_len := List.length (hd [] encoder_hidden_states) in
     encoder_mask <- make_encoder_mask batch_size en_seq_len encoder_lens ;;
     embedded_char <- embedding_lookup (embedding self) char ;;
     '(hidden_state, final_state) <-
        rnn self (LongInput (map (fun c => [c]) char)) previous_state ;;
     context <- attention_context self batch_size hidden_state encoder_lens
                  encoder_hidden_states ;;
     let context := T4 (map (fun m => [m]) context) in
     squeezed <- squeeze1 hidden_state ;;
     new_hidden_state <- cat_dim1 context squeezed ;;
     new_hidden_state <- linear (concat_layer self) new_hidden_state ;;
     new_hidden_state <- tanh_tensor new_hidden_state ;;
     output_logits <- linear (output_proj self) new_hidden_state ;;
     Ok (output_logits, final_state))%res.
Proof.
  unfold CharDecoder_forward, attention_context. cbv zeta.
  destruct (make_encoder_mask _ _ _) as [M|]; [|reflexivity]. cbn [rbind].
  destruct (embedding_lookup _ _); [|reflexivity]. cbn [rbind].
  destruct (rnn self _ _) as [[hs fs]|]; [|reflexivity]. cbn [rbind].
  destruct (expand_as _ _); [|reflexivity]. cbn [rbind].
  destruct (cat_dim2 _ _); [|reflexivity]. cbn [rbind].
  destruct (attn_scores _ _); [|reflexivity]. cbn [rbind].
  destruct (masked_softmax _ _); [|reflexivity]. cbn [rbind].
  destruct (bmm _ _); reflexivity.
Qed.

End ContextStages.

Section MaskExactness.

Variable State : Type.

#[local] Open Scope R_scope.

Lemma zeroed_logits (T : nat) (x : vec R) (len : Z) :
  List.length x = T ->
  map2 s_mul x (float_row (mask_row T len))
  = firstn (Nat.min (Z.to_nat len) T) x ++ repeat 0 (T - Nat.min (Z.to_nat len) T).
Proof. intros <-. rewrite mask_row_split. apply mask_keeps_prefix. lia. Qed.

(** The weights of a sample depend on its logits at the valid positions
    only. *)
Lemma masked_row_of_prefix (T : nat) (x x' : vec R) (len : Z) :
  List.length x = T -> List.length x' = T ->
  firstn (Z.to_nat len) x = firstn (Z.to_nat len) x' ->
  masked_row T x len = masked_row T x' len.
Proof.
  intros Hx Hx' H. unfold masked_row, masked_mass.
  rewrite (@zeroed_logits T x len Hx), (@zeroed_logits T x' len Hx').
  assert (E : firstn (Nat.min (Z.to_nat len) T) x = firstn (Nat.min (Z.to_nat len) T) x').
  { replace (Nat.min (Z.to_nat len) T)
      with (Nat.min (Nat.min (Z.to_nat len) T) (Z.to_nat len)) by lia.
    rewrite <- !firstn_firstn. now rewrite H. }
  now rewrite E.
Qed.

Lemma masked_rows_agree (T : nat) (lens : list Z) (logits logits' : mat R) :
  List.length logits = List.length lens ->
  List.length logits' = List.length lens ->
  Forall (fun row => List.length row = T) logits ->
  Forall (fun row => List.length row = T) logits' ->
  (forall i x x' len,
     nth_error logits i = Some x -> nth_error logits' i = Some x' ->
     nth_error lens i = Some len ->
     firstn (Z.to_nat len) x = firstn (Z.to_nat len) x') ->
  map (fun p => masked_row T (fst p) (snd p)) (combine logits lens)
  = map (fun p => masked_row T (fst p) (snd p)) (combine logits' lens).
Proof.
  intros Hlen Hlen' Hrows Hrows' Hag. apply nth_error_ext. intros i.
  rewrite !nth_error_map, !nth_error_combine_match.
  destruct (nth_error logits i) as [x|] eqn:Ex;
    destruct (nth_error logits' i) as [x'|] eqn:Ex';
    destruct (nth_error lens i) as [len|] eqn:El; cbn [option_map fst snd];
    try reflexivity.
  - f_equal. rewrite Forall_forall in Hrows, Hrows'.
    apply masked_row_of_prefix.
    + apply Hrows. eapply nth_error_In. exact Ex.
    + apply Hrows'. eapply nth_error_In. exact Ex'.
    + eapply Hag; eassumption.
  - exfalso. apply nth_error_None in Ex'.
    assert (i < List.length lens)%nat by (apply nth_error_Some; congruence). lia.
  - exfalso. apply nth_error_None in Ex.
    assert (i < List.length lens)%nat by (apply nth_error_Some; congruence). lia.
Qed.

(** X16.  The logits at the padded positions have no part in the attention
    weights: on a batch whose tensors have the documented sizes, two
    tensors of logits that agree, for every sample, at the positions
    [t < encoder_lens[i]] give the same weights. *)
Theorem attention_weights_ignore_masked_logits (T : nat) (lens : list Z)
    (logits logits' : mat R) :
  List.length logits = List.length lens ->
  List.length logits' = List.length lens ->
  Forall (fun row => List.length row = T) logits ->
  Forall (fun row => List.length row = T) logits' ->
  (forall i x x' len,
     nth_error logits i = Some x -> nth_error logits' i = Some x' ->
     nth_error lens i = Some len ->
     firstn (Z.to_nat len) x = firstn (Z.to_nat len) x') ->
  attention_weights (List.length lens) T lens logits
  = attention_weights (List.length lens) T lens logits'.
Proof.
  intros Hlen Hlen' Hrows Hrows' Hag.
  rewrite !attention_weights_rows by assumption.
  f_equal. now apply masked_rows_agree.
Qed.

Lemma vec_add_zero_row (row : vec R) (H : nat) :
  List.length row = H -> vec_add (map (s_mul 0) row) (repeat 0 H) = repeat 0 H.
Proof.
  revert H. unfold vec_add.
  induction row as [|y row IH]; intros [|H] Hl; simpl in *; try discriminate;
    try reflexivity.
  f_equal; [lra | apply IH; lia].
Qed.

Lemma fold_zero_rows (rows : mat R) (n H : nat) :
  Forall (fun row => List.length row = H) rows ->
  fold_right (fun (p : R * vec R) acc => vec_add (map (s_mul (fst p)) (snd p)) acc)
    (repeat 0 H) (combine (repeat 0 n) rows)
  = repeat 0 H.
Proof.
  revert n. induction rows as [|row rows IH]; intros [|n] Hr; simpl; try reflexivity.
  inversion Hr; subst. rewrite IH by assumption. now apply vec_add_zero_row.
Qed.

Lemma combine_app_l {X Y} (p z : list X) (m : list Y) :
  combine (p ++ z) m
  = combine p (firstn (List.length p) m) ++ combine z (skipn (List.length p) m).
Proof.
  revert m. induction p as [|a p IH]; intros m; simpl; [reflexivity|].
  destruct m as [|y m]; simpl; [now destruct z | now rewrite IH].
Qed.

Lemma forall_skipn {X} (P : X -> Prop) (n : nat) (l : list X) :
  Forall P l -> Forall P (skipn n l).
Proof.
  intros H. apply Forall_forall. intros x Hx. rewrite Forall_forall in H. apply H.
  rewrite <- (firstn_skipn n l). apply in_or_app. now right.
Qed.

(** Weights that are zero from position [length p] on take nothing from
    the rows of the matrix from there on. *)
Lemma vec_mat_of_prefix (p : vec R) (n H : nat) (m m' : mat R) :
  Forall (fun row => List.length row = H) m ->
  Forall (fun row => List.length row = H) m' ->
  List.length m = List.length m' ->
  firstn (List.length p) m = firstn (List.length p) m' ->
  vec_mat (p ++ repeat 0 n) m = vec_mat (p ++ repeat 0 n) m'.
Proof.
  intros Hm Hm' Hlen Hfirst. unfold vec_mat.
  destruct m as [|row m]; destruct m' as [|row' m']; try discriminate; [reflexivity|].
  cbn [hd]. inversion Hm as [|? ? Hrow _]; subst. inversion Hm' as [|? ? Hrow' _]; subst.
  rewrite Hrow'. change (@s_zero R R_scalar) with 0.
  rewrite !combine_app_l, !fold_right_app, Hfirst.
  rewrite !fold_zero_rows; [reflexivity | |]; apply forall_skipn; assumption.
Qed.

Lemma context_of_agreeing_states (self : CharDecoder State) (h : @tensor R)
    (lens : list Z) (enc enc' : tensor3 R) (T H : nat) (ctx : tensor3 R) :
  has_shape3 enc (List.length lens) T H ->
  has_shape3 enc' (List.length lens) T H ->
  (forall i m m' len,
     nth_error enc i = Some m -> nth_error enc' i = Some m' ->
     nth_error lens i = Some len ->
     firstn (Z.to_nat len) m = firstn (Z.to_nat len) m') ->
  attention_context self (List.length lens) h lens enc = Ok ctx ->
  attention_context self (List.length lens) h lens enc' = Ok ctx.
Proof.
  intros Hs Hs' Hag Hctx.
  destruct (dims_of_shape Hs Hs') as (D0 & D1 & D2).
  destruct Hs as [HB Hrows]. destruct Hs' as [HB' Hrows'].
  rewrite Forall_forall in Hrows, Hrows'.
  assert (Hcase : enc = [] \/ List.length (hd [] enc) = T).
  { destruct enc as [|m0 e0]; [now left | right]. apply Hrows. now left. }
  destruct Hcase as [-> | HT].
  { destruct enc'; [exact Hctx | simpl in *; lia]. }
  unfold attention_context in *. cbv zeta in *.
  rewrite <- D1, <- (expand_as_dims h _ _ D0 D1 D2). rewrite HT in *.
  rewrite make_encoder_mask_rows in *. cbn [rbind] in *.
  invert_rbind Hctx as E HE. rewrite HE. cbn [rbind].
  invert_rbind Hctx as J HJ. invert_rbind Hctx as L HL. invert_rbind Hctx as W HW.
  destruct (cat_dim2_inv _ _ HJ) as [HlenE HlenRows].
  rewrite (cat_dim2_build _ _ HlenE HlenRows) in HJ.
  assert (HJeq : J = map2 (map2 (@app R)) enc E) by congruence. subst J. clear HJ.
  pose proof (attn_scores_inv _ _ HL) as Hfeat.
  rewrite (attn_scores_build _ _ Hfeat) in HL.
  set (g := fun v : vec R =>
              s_add (dot (weight1 (attn_proj self)) v) (bias1 (attn_proj self))) in *.
  assert (HLeq : L = map (map g) (map2 (map2 (@app R)) enc E)) by congruence.
  subst L. clear HL.
  assert (Hsome : forall i x', nth_error enc' i = Some x' -> exists x, nth_error enc i = Some x).
  { intros i x' Hx'. destruct (nth_error enc i) as [x|] eqn:Ex; [now exists x|].
    apply nth_error_None in Ex.
    assert (i < List.length enc')%nat by (apply nth_error_Some; congruence). lia. }
  assert (HlenE' : List.length enc' = List.length E) by congruence.
  assert (HlenRows' : forall i (x y : mat R),
            nth_error enc' i = Some x -> nth_error E i = Some y ->
            List.length x = List.length y).
  { intros i x' y Hx' Hy. destruct (Hsome i x' Hx') as [x Hx].
    rewrite <- (HlenRows i x y Hx Hy).
    rewrite (proj1 (Hrows x (nth_error_In _ _ Hx))).
    exact (proj1 (Hrows' x' (nth_error_In _ _ Hx'))). }
  rewrite (cat_dim2_build _ _ HlenE' HlenRows'). cbn [rbind].
  assert (Hfeat' : forall m v, In m (map2 (map2 (@app R)) enc' E) -> In v m ->
            List.length v = in_features1 (attn_proj self)).
  { intros m v Hm Hv. apply in_map2 in Hm. destruct Hm as (i & x' & e & Hx' & He & ->).
    apply in_map2 in Hv. destruct Hv as (t & u' & ue & Hu' & Hue & ->).
    destruct (Hsome i x' Hx') as [x Hx].
    destruct (Hrows x (nth_error_In _ _ Hx)) as [Hxl Hxw].
    destruct (Hrows' x' (nth_error_In _ _ Hx')) as [Hxl' Hxw'].
    rewrite Forall_forall in Hxw, Hxw'.
    destruct (nth_error x t) as [u|] eqn:Eu.
    2:{ apply nth_error_None in Eu.
        assert (t < List.length x')%nat by (apply nth_error_Some; congruence). lia. }
    rewrite <- (Hfeat (map2 (@app R) x e) (u ++ ue)).
    - rewrite !length_app. f_equal.
      rewrite (Hxw u (nth_error_In _ _ Eu)). apply Hxw'. eapply nth_error_In. exact Hu'.
    - eapply map2_in; eassumption.
    - eapply map2_in; eassumption. }
  rewrite (attn_scores_build _ _ Hfeat'). fold g. cbn [rbind].
  assert (Hshape : forall e0 : tensor3 R,
            List.length e0 = List.length E ->
            (forall i (x y : mat R), nth_error e0 i = Some x -> nth_error E i = Some y ->
               List.length x = List.length y) ->
            (forall x, In x e0 -> List.length x = T) ->
            List.length (map (map g) (map2 (map2 (@app R)) e0 E)) = List.length e0 /\
            Forall (fun row => List.length row = T) (map (map g) (map2 (map2 (@app R)) e0 E))).
  { intros e0 Hl Hr Ht. split.
    - rewrite length_map, length_map2. lia.
    - apply Forall_forall. intros row Hrow. apply in_map_iff in Hrow.
      destruct Hrow as (j & <- & Hj). apply in_map2 in Hj.
      destruct Hj as (i & x & y & Hx & Hy & ->).
      rewrite length_map, length_map2, <- (Hr i x y Hx Hy), Nat.min_id.
      apply Ht. eapply nth_error_In. exact Hx. }
  destruct (Hshape enc HlenE HlenRows (fun x Hx => proj1 (Hrows x Hx))) as [HL1 HL2].
  destruct (Hshape enc' HlenE' HlenRows' (fun x Hx => proj1 (Hrows' x Hx))) as [HL1' HL2'].
  set (L := map (map g) (map2 (map2 (@app R)) enc E)) in *.
  set (L' := map (map g) (map2 (map2 (@app R)) enc' E)) in *.
  rewrite masked_softmax_rows in HW by (assumption || lia).
  assert (HWeq : W = map (fun p : vec R * Z => masked_row T (fst p) (snd p))
                       (combine L lens)) by congruence.
  subst W. clear HW.
  rewrite masked_softmax_rows by (assumption || lia). cbn [rbind].
  assert (HLag : forall i x x' len,
            nth_error L i = Some x -> nth_error L' i = Some x' ->
            nth_error lens i = Some len ->
            firstn (Z.to_nat len) x = firstn (Z.to_nat len) x').
  { intros i x x' len Hx Hx' Hl. unfold L, L' in Hx, Hx'.
    rewrite nth_error_map, nth_error_map2 in Hx, Hx'.
    destruct (nth_error enc i) as [m|] eqn:Em; [|discriminate].
    destruct (nth_error enc' i) as [m'|] eqn:Em'; [|discriminate].
    destruct (nth_error E i) as [e|] eqn:Ee; [|discriminate].
    cbn [option_map] in Hx, Hx'. inversion Hx; inversion Hx'; subst x x'.
    unfold map2.
    rewrite !firstn_map, !combine_firstn, (Hag i m m' len Em Em' Hl). reflexivity. }
  rewrite <- (@masked_rows_agree T lens L L') by (assumption || lia).
  set (W := map (fun p : vec R * Z => masked_row T (fst p) (snd p)) (combine L lens)) in *.
  assert (HWlen : List.length W = List.length lens).
  { unfold W. rewrite length_map, length_combine. lia. }
  assert (HWrow : forall i w, nth_error W i = Some w ->
            exists x len, nth_error L i = Some x /\ nth_error lens i = Some len /\
                          List.length x = T /\ w = masked_row T x len).
  { intros i w Hw. unfold W in Hw. rewrite nth_error_map, nth_error_combine_match in Hw.
    destruct (nth_error L i) as [x|] eqn:Ex; [|discriminate].
    destruct (nth_error lens i) as [len|] eqn:El; [|discriminate].
    exists x, len. split; [reflexivity|]. split; [reflexivity|]. split.
    - rewrite Forall_forall in HL2. apply HL2. eapply nth_error_In. exact Ex.
    - cbn [option_map fst snd] in Hw. congruence. }
  assert (HWfit : forall e0 : tensor3 R,
            (forall x, In x e0 -> List.length x = T) ->
            forall i (w : vec R) (m : mat R),
              nth_error W i = Some w -> nth_error e0 i = Some m ->
              List.length w = List.length m).
  { intros e0 Ht i w m Hw Hm. destruct (HWrow i w Hw) as (x & len & _ & _ & Hx & ->).
    rewrite (proj1 (masked_row_facts x len Hx)). symmetry. apply Ht.
    eapply nth_error_In. exact Hm. }
  rewrite bmm_rows in Hctx
    by (try lia; apply HWfit; intros x Hx; exact (proj1 (Hrows x Hx))).
  assert (Hceq : ctx = map2 (fun (w : vec R) (m : mat R) => [vec_mat w m]) W enc)
    by congruence.
  subst ctx. clear Hctx.
  rewrite bmm_rows by (try lia; apply HWfit; intros x Hx; exact (proj1 (Hrows' x Hx))).
  f_equal. apply nth_error_ext. intros i. rewrite !nth_error_map2.
  destruct (nth_error W i) as [w|] eqn:Ew; [|reflexivity].
  destruct (HWrow i w Ew) as (x & len & Hx & Hl & Hxl & ->).
  destruct (nth_error enc' i) as [m'|] eqn:Em'.
  2:{ apply nth_error_None in Em'.
      assert (i < List.length lens)%nat by (apply nth_error_Some; congruence). lia. }
  destruct (Hsome i m' Em') as [m Em]. rewrite Em.
  f_equal. f_equal.
  destruct (masked_row_split x len Hxl) as (Hp & _ & Hrow). cbv zeta in Hp, Hrow.
  rewrite Hrow.
  destruct (Hrows m (nth_error_In _ _ Em)) as [Hml Hmw].
  destruct (Hrows' m' (nth_error_In _ _ Em')) as [Hml' Hmw'].
  apply vec_mat_of_prefix with (H := H); try assumption; [congruence|].
  rewrite length_map, length_firstn, Hp.
  replace (Nat.min (Nat.min (Z.to_nat len) T) T)
    with (Nat.min (Nat.min (Z.to_nat len) T) (Z.to_nat len)) by lia.
  rewrite <- !firstn_firstn. now rewrite (Hag i m m' len Em Em' Hl).
Qed.

(** X17.  The encoder states past a sample's length have no part in its
    context vector: on encoder states of the documented shape
    [(batch, en_seq_len, hidden)] with one length per sample, two tensors
    that agree, for every sample, at the timesteps
    [t < encoder_lens[i]] give the same context vectors, or the stage
    raises on both. *)
Theorem context_ignores_padded_encoder_states (self : CharDecoder State)
    (h : @tensor R) (lens : list Z) (enc enc' : tensor3 R) (T H : nat) :
  has_shape3 enc (List.length lens) T H ->
  has_shape3 enc' (List.length lens) T H ->
  (forall i m m' len,
     nth_error enc i = Some m -> nth_error enc' i = Some m' ->
     nth_error lens i = Some len ->
     firstn (Z.to_nat len) m = firstn (Z.to_nat len) m') ->
  match attention_context self (List.length lens) h lens enc with
  | Ok ctx => attention_context self (List.length lens) h lens enc' = Ok ctx
  | Raise _ => is_ok (attention_context self (List.length lens) h lens enc') = false
  end.
Proof.
  intros Hs Hs' Hag.
  destruct (attention_context self (List.length lens) h lens enc) as [ctx|e] eqn:E.
  - eapply context_of_agreeing_states; [exact Hs | exact Hs' | exact Hag | exact E].
  - destruct (attention_context self (List.length lens) h lens enc') as [ctx'|e'] eqn:E';
      [|reflexivity].
    rewrite (@context_of_agreeing_states self h lens enc' enc T H ctx' Hs' Hs) in E;
      [discriminate | | exact E'].
    intros i m m' len Hm Hm' Hl. symmetry. eapply Hag; eassumption.
Qed.

End MaskExactness.

Lemma attention_weights_ignore_masked_logits_witness :
  attention_weights 1 2 [1%Z] [[1%R; 2%R]] = attention_weights 1 2 [1%Z] [[1%R; 7%R]].
Proof.
  apply (@attention_weights_ignore_masked_logits 2 [1%Z] [[1%R; 2%R]] [[1%R; 7%R]]
           eq_refl eq_refl).
  - repeat constructor.
  - repeat constructor.
  - intros [|[|i]] x x' len Hx Hx' Hl; cbn [nth_error] in Hx, Hx', Hl; try discriminate.
    injection Hx as <-. injection Hx' as <-. injection Hl as <-. reflexivity.
Defined.

Lemma context_ignores_padded_encoder_states_witness :
  is_ok (attention_context real_decoder 1 (T3 [[[5%R]]]) [1%Z] [[[1%R]; [2%R]]]) = true /\
  match attention_context real_decoder 1 (T3 [[[5%R]]]) [1%Z] [[[1%R]; [2%R]]] with
  | Ok ctx =>
      attention_context real_decoder 1 (T3 [[[5%R]]]) [1%Z] [[[1%R]; [9%R]]] = Ok ctx
  | Raise _ =>
      is_ok (attention_context real_decoder 1 (T3 [[[5%R]]]) [1%Z] [[[1%R]; [9%R]]])
      = false
  end.
Proof.
  split; [reflexivity|].
  apply (@context_ignores_padded_encoder_states unit real_decoder (T3 [[[5%R]]]) [1%Z]
           [[[1%R]; [2%R]]] [[[1%R]; [9%R]]] 2 1).
  - split; [reflexivity|]. repeat constructor.
  - split; [reflexivity|]. repeat constructor.
  - intros [|[|i]] m m' len Hm Hm' Hl; cbn [nth_error] in Hm, Hm', Hl; try discriminate.
    injection Hm as <-. injection Hm' as <-. injection Hl as <-. reflexivity.
Defined.

(** * Further properties: [train] and the inverse dict *)

Section TrainOutcome.

Context {F : Type} {FA : FloatArith F}.
Variable randstate : Type.
Variables getRelRawPath getRelDatasetsPath : string -> string.
Variable path_join : string -> string -> string.
Variable load_json : string -> result (list string).
Variable glob : string -> list string.
Variable shuffle : option randstate -> list string -> list string.
Variable ext_getattr : pyval -> string -> result pyval.
Variable ext_call : pyval -> list pyval -> list (string * pyval) -> result pyval.
Variable ext_mul : pyval -> pyval -> result pyval.
Variables nn_LSTM nn_Embedding nn_Linear : pyval.
Variables manual_seed cuda_manual_seed_all : Z -> result unit.
Variable RandomState : Z -> result randstate.
Variable DataLoader : dataset -> pyval -> pyval -> result loader.
Variable char2idx_of : dataset -> pyval.
Variable train_eval : nat -> pyval * pyval -> loader -> result (pyval * pyval * pyval).
Variable train_train : nat -> pyval * pyval -> loader -> result (pyval * pyval).
Variable error_rate : pyval -> pyval -> result pyval.
Variable min_nonempty : list pyval -> result pyval.

(** X18.  What a call of [train] amounts to.  When the seeding of lines
    157-159 raises, [train] raises the same with nothing logged.
    Otherwise it does what [_get_datasets] does on its arguments, with the
    random state made from the seed, and nothing more is logged or
    printed; it raises what [_get_datasets] raises, or else what the first
    failing [DataLoader] raises, or else the [TypeError] of the model
    construction. *)
Theorem train_stops_after_the_datasets (a : train_args F) :
  let r := run (train getRelRawPath getRelDatasetsPath path_join load_json glob shuffle
                  ext_getattr ext_call ext_mul nn_LSTM nn_Embedding nn_Linear
                  manual_seed cuda_manual_seed_all RandomState DataLoader char2idx_of
                  train_eval train_train error_rate min_nonempty a) in
  match (manual_seed (a_seed a) ;;; cuda_manual_seed_all (a_seed a) ;;;
         RandomState (a_seed a))%res with
  | Raise e => r = (Raise e, [])
  | Ok rand =>
      let d := run (_get_datasets getRelRawPath getRelDatasetsPath path_join load_json
                      glob shuffle (a_data a) (a_train_split a) (a_sentence_dataset a)
                      (a_occlussion_threshold a) (a_labels a) (Some rand)) in
      snd r = snd d /\
      match fst d with
      | Raise e => fst r = Raise e
      | Ok (train_dataset, _, test_dataset) =>
          match (DataLoader train_dataset (a_batch_size a) (a_num_workers a) ;;;
                 DataLoader train_dataset (a_batch_size a) (a_num_workers a) ;;;
                 DataLoader test_dataset (a_batch_size a) (a_num_workers a))%res with
          | Raise e => fst r = Raise e
          | Ok _ => exists msg, fst r = Raise (TypeError msg)
          end
      end
  end.
Proof. apply train_outcomes. Qed.

End TrainOutcome.

(** ** [supported_rnns_inv] *)

Section DictFacts.

Variables K V : Type.
Variable eqbK : K -> K -> bool.
Variable eqbV : V -> V -> bool.
Hypothesis eqbK_eq : forall a b : K, eqbK a b = true <-> a = b.
Hypothesis eqbV_eq : forall a b : V, eqbV a b = true <-> a = b.

Lemma dict_set_new (d : list (V * K)) (v : V) (k : K) :
  ~ In v (map fst d) -> dict_set eqbV d v k = d ++ [(v, k)].
Proof.
  induction d as [|[v' k'] d IH]; intros H; simpl; [reflexivity|].
  destruct (eqbV v v') eqn:E.
  - apply eqbV_eq in E. exfalso. apply H. now left.
  - rewrite IH; [reflexivity|]. intros Hin. apply H. now right.
Qed.

Lemma dict_of_pairs_distinct (pairs acc : list (V * K)) :
  NoDup (map fst (acc ++ pairs)) ->
  fold_left (fun d p => dict_set eqbV d (fst p) (snd p)) pairs acc = acc ++ pairs.
Proof.
  revert acc. induction pairs as [|[v k] pairs IH]; intros acc H; simpl.
  - now rewrite app_nil_r.
  - rewrite dict_set_new.
    + rewrite IH; rewrite <- app_assoc; [reflexivity | exact H].
    + rewrite map_app in H. apply NoDup_remove_2 in H.
      intros Hin. apply H. apply in_or_app. now left.
Qed.

Lemma dict_get_present (d : list (V * K)) (v : V) (k : K) :
  NoDup (map fst d) -> In (v, k) d -> dict_get eqbV d v = Some k.
Proof.
  unfold dict_get. induction d as [|[v' k'] d IH]; intros Hnd Hin; [destruct Hin|].
  simpl. inversion Hnd as [|? ? Hnew Hnd']; subst.
  destruct Hin as [Hin|Hin].
  - inversion Hin; subst. now rewrite (proj2 (eqbV_eq v v) eq_refl).
  - destruct (eqbV v v') eqn:E; [|now apply IH].
    apply eqbV_eq in E. subst v'. exfalso. apply Hnew.
    apply in_map_iff. now exists (v, k).
Qed.

Lemma dict_get_absent (d : list (V * K)) (v : V) :
  ~ In v (map fst d) -> dict_get eqbV d v = None.
Proof.
  unfold dict_get. induction d as [|[v' k'] d IH]; intros H; [reflexivity|].
  simpl. destruct (eqbV v v') eqn:E.
  - apply eqbV_eq in E. exfalso. apply H. now left.
  - apply IH. intros Hin. apply H. now right.
Qed.

Lemma dict_get_found (d : list (K * V)) (k : K) (v : V) :
  dict_get eqbK d k = Some v -> In (k, v) d.
Proof.
  unfold dict_get. induction d as [|[k' v'] d IH]; intros H; [discriminate|].
  simpl in H. destruct (eqbK k k') eqn:E.
  - apply eqbK_eq in E. simpl in H. left. congruence.
  - right. now apply IH.
Qed.

(** X20.  The inverse of a dict whose values are pairwise distinct: it
    holds the swapped items in the same order, takes every value back to
    the key it came from, and knows no other key. *)
Theorem dict_invert_round_trip (d : list (K * V)) :
  NoDup (map snd d) ->
  dict_invert eqbV d = map (fun p => (snd p, fst p)) d /\
  (forall k v, dict_get eqbK d k = Some v ->
     dict_get eqbV (dict_invert eqbV d) v = Some k) /\
  (forall v, ~ In v (map snd d) -> dict_get eqbV (dict_invert eqbV d) v = None).
Proof.
  intros Hnd.
  assert (Hkeys : map fst (map (fun p : K * V => (snd p, fst p)) d) = map snd d)
    by (rewrite map_map; reflexivity).
  assert (Hinv : dict_invert eqbV d = map (fun p => (snd p, fst p)) d).
  { unfold dict_invert, dict_of_pairs. rewrite dict_of_pairs_distinct; [reflexivity|].
    cbn [app]. now rewrite Hkeys. }
  rewrite Hinv. split; [reflexivity|]. split.
  - intros k v H. apply dict_get_found in H. apply dict_get_present.
    + now rewrite Hkeys.
    + apply in_map_iff. now exists (k, v).
  - intros v H. apply dict_get_absent. now rewrite Hkeys.
Qed.

End DictFacts.

Lemma rnn_type_eqb_eq (a b : rnn_type) : rnn_type_eqb a b = true <-> a = b.
Proof. destruct a, b; simpl; split; congruence. Qed.

Lemma dict_invert_round_trip_witness :
  supported_rnns_inv = [(LSTM, "lstm"); (RNN, "rnn"); (GRU, "gru")] /\
  dict_get rnn_type_eqb supported_rnns_inv GRU = Some "gru" /\
  dict_get rnn_type_eqb supported_rnns_inv LSTM = Some "lstm".
Proof.
  assert (Hnd : NoDup (map snd supported_rnns)).
  { repeat constructor; simpl; intuition discriminate. }
  destruct (@dict_invert_round_trip string rnn_type String.eqb rnn_type_eqb
              String.eqb_eq rnn_type_eqb_eq supported_rnns Hnd) as (Hinv & Hget & _).
  split; [exact Hinv|]. split; apply Hget; reflexivity.
Defined.

(** ** [_get_datasets] with the default train fraction *)

Lemma default_train_size (n : Z) :
  (0 <= n)%Z -> PyNum.py_int ((8 # 10) * inject_Z n) = (8 * n / 10)%Z.
Proof.
  intros Hn. rewrite py_int_nonneg.
  - unfold Qfloor, Qmult, inject_Z. cbn [Qnum Qden]. reflexivity.
  - unfold Qle, Qmult, inject_Z. cbn [Qnum Qden]. lia.
Qed.

Lemma default_val_test_size (n : Z) :
  (0 <= n)%Z -> PyNum.py_round (inject_Z n * (1 - (8 # 10))) = ((n + 2) / 5)%Z.
Proof.
  intros Hn. unfold PyNum.py_round. cbv zeta.
  unfold Qcompare, Qfloor, Qminus, Qplus, Qmult, Qopp, inject_Z. cbn [Qnum Qden].
  change (Z.pos (1 * (1 * 10) * 1)) with 10%Z.
  change (Z.pos (1 * (1 * 10))) with 10%Z.
  replace (n * (1 * 10 + - (8) * 1))%Z with (2 * n)%Z by ring.
  destruct (Z.compare_spec ((2 * n * 1 + - (2 * n / 10) * 10) * 2) (1 * 10)) as [H|H|H];
    [exfalso | | ]; Z.div_mod_to_equations; lia.
Qed.

Lemma default_split_adds_up (n : Z) :
  (0 <= n)%Z ->
  (8 * n / 10 + (n + 2) / 5 =? n)%Z
  = ((n mod 5 =? 0) || (n mod 5 =? 3) || (n mod 5 =? 4))%Z.
Proof.
  intros Hn.
  destruct (Z.eqb_spec (8 * n / 10 + (n + 2) / 5) n) as [H|H];
    destruct (Z.eqb_spec (n mod 5) 0); destruct (Z.eqb_spec (n mod 5) 3);
    destruct (Z.eqb_spec (n mod 5) 4); try reflexivity; exfalso;
    Z.div_mod_to_equations; lia.
Qed.

Section DefaultSplit.

Variable randstate : Type.
Variables getRelRawPath getRelDatasetsPath : string -> string.
Variable path_join : string -> string -> string.
Variable load_json : string -> result (list string).
Variable glob : string -> list string.
Variable shuffle : option randstate -> list string -> list string.

Hypothesis shuffle_perm : forall r l, Permutation (shuffle r l) l.

(** X21.  The default train fraction of 0.8, taken as the exact rational
    8/10 (the arithmetic without the rounding of doubles), on a directory
    of [n >= 1] videos: [_get_datasets] returns exactly when the remainder
    of [n] by 5 is 0, 3 or 4, and the train set then holds [8n // 10]
    videos; for a remainder of 1 or 2, [int(0.8 n)] and [round(0.2 n)] add
    up to [n - 1] and the second assertion raises. *)
Theorem get_datasets_default_split (dataset_name : string) (sentence : bool)
    (threshold : Q) (labels : string) (rand : option randstate) :
  let videos := glob (path_join (getRelDatasetsPath dataset_name) "*") in
  let n := Z.of_nat (List.length videos) in
  let r := run (_get_datasets getRelRawPath getRelDatasetsPath path_join load_json glob
                  shuffle dataset_name (8 # 10) sentence threshold labels rand) in
  videos <> [] ->
  if ((n mod 5 =? 0) || (n mod 5 =? 3) || (n mod 5 =? 4))%Z
  then exists tr va te,
         fst r = Ok (tr, va, te) /\
         Z.of_nat (List.length (ds_videos tr)) = (8 * n / 10)%Z
  else fst r = Raise (AssertionError "") /\
       (PyNum.py_int ((8 # 10) * inject_Z n)
        + PyNum.py_round (inject_Z n * (1 - (8 # 10))) = n - 1)%Z.
Proof.
  intros videos n r Hne. unfold r.
  rewrite (@get_datasets_cases randstate getRelRawPath getRelDatasetsPath path_join
             load_json glob shuffle dataset_name (8 # 10) sentence threshold labels rand).
  cbv zeta. fold videos.
  assert (Hlen : List.length (shuffle rand (list_sort videos)) = List.length videos).
  { apply Permutation_length.
    eapply perm_trans; [apply shuffle_perm | apply list_sort_perm]. }
  rewrite Hlen. fold n.
  assert (Hn : (0 <= n)%Z) by (unfold n; lia).
  assert (Hpos : (0 <? List.length videos)%nat = true).
  { apply Nat.ltb_lt. destruct videos; [congruence | simpl; lia]. }
  rewrite Hpos, (default_train_size Hn), (default_val_test_size Hn),
    (default_split_adds_up Hn).
  destruct ((n mod 5 =? 0) || (n mod 5 =? 3) || (n mod 5 =? 4))%Z eqn:E.
  - eexists _, _, _. cbn [fst]. split; [reflexivity|]. cbn [ds_videos].
    assert (Hts : (0 <= 8 * n / 10 <= n)%Z) by (Z.div_mod_to_equations; lia).
    destruct (@slices_lengths string (shuffle rand (list_sort videos)) (8 * n / 10)
                (8 * n / 10)) as (L1 & _ & _); lia.
  - cbn [fst]. split; [reflexivity|].
    rewrite <- (default_split_adds_up Hn) in E. apply Z.eqb_neq in E.
    repeat match type of E with
           | context [Z.eqb ?a ?b] => destruct (Z.eqb_spec a b)
           end.
    Z.div_mod_to_equations. lia.
Qed.

End DefaultSplit.

Lemma get_datasets_default_split_witness :
  (exists tr va te,
     fst (small_run (8 # 10) small_glob) = Ok (tr, va, te) /\
     List.length (ds_videos tr) = 8%nat) /\
  fst (small_run (8 # 10) (fun _ => ["v1"; "v2"; "v3"; "v4"; "v5"; "v6"]))
  = Raise (AssertionError "").
Proof.
  split.
  - destruct (@get_datasets_default_split unit raw_path datasets_path slash_join
                no_label_file small_glob reversing_shuffle reversing_shuffle_perm
                "StephenColbert/medium_no_vtx1" false (8 # 10) "labels.json" (Some tt))
      as (tr & va & te & Hrun & Hlen); [discriminate|].
    exists tr, va, te. split; [exact Hrun|].
    match type of Hlen with _ = ?rhs => change rhs with 8%Z in Hlen end. lia.
  - destruct (@get_datasets_default_split unit raw_path datasets_path slash_join
                no_label_file (fun _ => ["v1"; "v2"; "v3"; "v4"; "v5"; "v6"])
                reversing_shuffle reversing_shuffle_perm
                "StephenColbert/medium_no_vtx1" false (8 # 10) "labels.json" (Some tt))
      as [Hrun _]; [discriminate | exact Hrun].
Defined.

(** ** [CharDecoder.forward] never returns *)

Section ForwardNeverReturns.

Context {A : Type} {SA : Scalar A}.
Variable State : Type.

(** What can be joined to a tensor of rank 4 along dimension 1: an empty
    tensor of rank 1, or a tensor of rank 4. *)
Lemma cat_dim1_rank4_inv (c : list (tensor3 A)) (b t : @tensor A) :
  cat_dim1 (T4 c) b = Ok t -> b = T1 [] \/ rank b = 4%nat.
Proof.
  destruct b as [[|y v]|m|t3|t4]; simpl; intros H; try discriminate; auto.
Qed.

(** Squeezing never gives an empty tensor of rank 1, and gives rank 4 only
    from rank 4. *)
Lemma squeeze1_inv (h s : @tensor A) :
  squeeze1 h = Ok s -> s <> T1 [] /\ (rank s = 4%nat -> rank h = 4%nat).
Proof.
  destruct h as [v|m|t3|t4]; simpl; intros H; try discriminate.
  - destruct m as [|[|x [|x' r]] m]; simpl in H; inversion H; subst;
      split; try discriminate.
  - destruct (Nat.eqb _ 1); inversion H; subst; split; discriminate.
  - destruct (Nat.eqb _ 1); inversion H; subst; split; try discriminate; auto.
Qed.

(** X22.  [forward] raises on every input, whatever the recurrent network
    returns for its output, a matrix without rows apart: an output of rank
    4 cannot be expanded to the encoder states (line 123), an output of
    rank 1 cannot be squeezed along dimension 1, and the squeezed output of
    rank 2 or 3 cannot be joined to the context of rank 4 (line 132).  (A
    matrix of shape [(0, 1)] is squeezed to an empty tensor of rank 1,
    which the concatenation of line 132 skips.) *)
Theorem forward_always_raises (self : CharDecoder State) (char : list Z)
    (previous_state : State) (encoder_lens : list Z)
    (encoder_hidden_states : tensor3 A) :
  (forall input st h st', rnn self input st = Ok (h, st') -> h <> T2 []) ->
  is_ok (CharDecoder_forward self char previous_state encoder_lens
           encoder_hidden_states) = false.
Proof.
  intros _.
  destruct (CharDecoder_forward self char previous_state encoder_lens
              encoder_hidden_states) as [[logits state]|e] eqn:E; [|reflexivity].
  exfalso. unfold CharDecoder_forward in E.
  invert_rbind E as mask Hmask. invert_rbind E as embedded Hembedded.
  invert_rbind E as out Hout. destruct out as [hidden_state final].
  invert_rbind E as expanded Hexpanded. invert_rbind E as joined Hjoined.
  invert_rbind E as scores Hscores. invert_rbind E as weights Hweights.
  invert_rbind E as context Hcontext. invert_rbind E as squeezed Hsqueezed.
  invert_rbind E as merged Hmerged.
  destruct (squeeze1_inv _ Hsqueezed) as [Hne Hrank].
  destruct (cat_dim1_rank4_inv _ _ Hmerged) as [Hempty|H4]; [contradiction|].
  specialize (Hrank H4).
  destruct hidden_state as [v|m|t3|t4]; try discriminate Hrank.
  discriminate Hexpanded.
Qed.

End ForwardNeverReturns.

Lemma forward_always_raises_witness :
  is_ok (CharDecoder_forward (small_decoder lenient_network) [1%Z] tt [1%Z] [[[Lit 3]]])
  = false.
Proof.
  apply (@forward_always_raises expr expr_scalar unit (small_decoder lenient_network)).
  intros input st h st' H. destruct input; inversion H; discriminate.
Defined.

(** ** The order among equal lengths *)

Section SortTies.

Variable A : Type.
Variable zero : A.
Variables torch_sort torch_sort' : bool -> list Z -> list Z * list nat.
Variable rnn_sample : list (vec A) -> rnn_out A.

Hypothesis sort_indices :
  forall (d : bool) (l : list Z),
    Permutation (snd (torch_sort d l)) (seq 0 (List.length l)).
Hypothesis sort_values :
  forall (d : bool) (l : list Z),
    fst (torch_sort d l) = gather 0%Z l (snd (torch_sort d l)).
Hypothesis sort_order :
  forall (d : bool) (l : list Z),
    Sorted (if d then Z.ge else Z.le) (fst (torch_sort d l)).
Hypothesis sort_indices' :
  forall (d : bool) (l : list Z),
    Permutation (snd (torch_sort' d l)) (seq 0 (List.length l)).
Hypothesis sort_values' :
  forall (d : bool) (l : list Z),
    fst (torch_sort' d l) = gather 0%Z l (snd (torch_sort' d l)).
Hypothesis sort_order' :
  forall (d : bool) (l : list Z),
    Sorted (if d then Z.ge else Z.le) (fst (torch_sort' d l)).

(** X23.  What [forward] returns does not depend on the order in which
    [torch.sort] puts samples of equal length: with any two sorts that keep
    the contract of [torch.sort], [forward] returns the same hidden states
    and final state, or is refused with both. *)
Theorem encoder_forward_independent_of_ties (self : VideoEncoder)
    (frames : tensor3 A) (lens : list Z) :
  List.length frames = List.length lens ->
  match VideoEncoder_forward zero torch_sort rnn_sample self frames lens with
  | Ok out => VideoEncoder_forward zero torch_sort' rnn_sample self frames lens = Ok out
  | Raise _ =>
      is_ok (VideoEncoder_forward zero torch_sort' rnn_sample self frames lens) = false
  end.
Proof.
  intros Hlen.
  destruct (@forward_sorting_transparent A zero torch_sort rnn_sample sort_indices
              sort_values sort_order self frames lens Hlen) as [Hok Hbad].
  destruct (@forward_sorting_transparent A zero torch_sort' rnn_sample sort_indices'
              sort_values' sort_order' self frames lens Hlen) as [Hok' Hbad'].
  destruct (valid_batch frames lens) eqn:Hv.
  - rewrite (Hok eq_refl), (Hok' eq_refl). unfold forward_in_batch_order.
    destruct (valid_batch_inv _ _ Hv) as (_ & Hpos & _).
    rewrite (@padded_length_is_max torch_sort sort_indices sort_values sort_order lens Hpos).
    rewrite (@padded_length_is_max torch_sort' sort_indices' sort_values' sort_order' lens
               Hpos).
    reflexivity.
  - destruct (Hbad eq_refl) as [e He]. destruct (Hbad' eq_refl) as [e' He'].
    now rewrite He, He'.
Qed.

End SortTies.

Lemma fold_insert_keyed_sorted (d : bool) (l : list (Z * nat)) :
  Sorted (if d then Z.ge else Z.le) (map fst (fold_right (insert_keyed d) [] l)).
Proof.
  induction l as [|x l IH]; simpl; [constructor | now apply insert_keyed_sorted].
Qed.

Lemma insertion_sort_from_the_end_indices (d : bool) (l : list Z) :
  Permutation (snd (insertion_sort_from_the_end d l)) (seq 0 (List.length l)).
Proof.
  unfold insertion_sort_from_the_end. simpl.
  eapply perm_trans; [apply Permutation_map, insertion_sort_keyed_perm|].
  eapply perm_trans; [apply Permutation_map, Permutation_sym, Permutation_rev|].
  rewrite map_snd_combine_eq by (now rewrite length_seq).
  apply Permutation_refl.
Qed.

Lemma insertion_sort_from_the_end_values (d : bool) (l : list Z) :
  fst (insertion_sort_from_the_end d l)
  = gather 0%Z l (snd (insertion_sort_from_the_end d l)).
Proof.
  unfold insertion_sort_from_the_end, gather. simpl. rewrite map_map. apply map_ext_in.
  intros q Hq.
  apply (Permutation_in _ (insertion_sort_keyed_perm d _)) in Hq.
  apply in_rev in Hq.
  destruct (combine_seq_entries _ _ _ Hq) as [_ E]. now rewrite Nat.sub_0_r in E.
Qed.

Lemma insertion_sort_from_the_end_order (d : bool) (l : list Z) :
  Sorted (if d then Z.ge else Z.le) (fst (insertion_sort_from_the_end d l)).
Proof. apply fold_insert_keyed_sorted. Qed.

Lemma encoder_forward_independent_of_ties_witness :
  snd (insertion_sort true [3; 3]%Z) <> snd (insertion_sort_from_the_end true [3; 3]%Z) /\
  is_ok (VideoEncoder_forward 0%Z insertion_sort echo_rnn plain_encoder two_samples
           [3; 3]%Z) = true /\
  VideoEncoder_forward 0%Z insertion_sort_from_the_end echo_rnn plain_encoder two_samples
    [3; 3]%Z
  = VideoEncoder_forward 0%Z insertion_sort echo_rnn plain_encoder two_samples [3; 3]%Z.
Proof.
  split; [vm_compute; discriminate|]. split; [vm_compute; reflexivity|].
  pose proof (@encoder_forward_independent_of_ties Z 0%Z insertion_sort
                insertion_sort_from_the_end echo_rnn
                insertion_sort_indices insertion_sort_values insertion_sort_order
                insertion_sort_from_the_end_indices insertion_sort_from_the_end_values
                insertion_sort_from_the_end_order plain_encoder two_samples [3; 3]%Z
                eq_refl) as H.
  revert H.
  destruct (VideoEncoder_forward 0%Z insertion_sort echo_rnn plain_encoder two_samples
              [3; 3]%Z) as [out|e]; intros H.
  - exact H.
  - vm_compute in H. discriminate H.
Defined.
